(** * codecbench: container reader/writer, pixel-format resolver and
      frame pipeline, embedded from [src/codecbench.cpp].

    The C++ objects are embedded as records and their methods as functions
    on the record ([this] is the last argument).  Exceptions are a result
    type, fixed-width integers are [Z] with the wrap-around written out,
    bytes are [Byte.byte], and a [std::vector<char>] is a [list byte].
    Memory allocation always succeeds.  What the program takes from its
    host (the clock, the interrupt, the Video for Windows codecs, the
    junk in an uninitialised local) is the class [Host]. *)

From Stdlib Require Import ZArith Lia.
From Stdlib.Strings Require Import Ascii String Byte.
From stdpp Require Import base list strings gmap.

Local Open Scope Z_scope.

(** ** Fixed-width integers *)

Module CInt.

(** [uint32_t], [DWORD]. *)
Definition u32 (z : Z) : Z := z mod 2 ^ 32.

(** [uint64_t]. *)
Definition u64 (z : Z) : Z := z mod 2 ^ 64.

(** [int], [LONG]: two's complement on 32 bits. *)
Definition s32 (z : Z) : Z := (z + 2 ^ 31) mod 2 ^ 32 - 2 ^ 31.

(** [int64_t]. *)
Definition s64 (z : Z) : Z := (z + 2 ^ 63) mod 2 ^ 64 - 2 ^ 63.

(** [abs] on [int]. *)
Definition abs (z : Z) : Z := s32 (Z.abs z).

End CInt.

(** ** Object representation of integers (little endian, as on x86) *)

Module Mem.

Definition byte_of_Z (z : Z) : byte :=
  default x00 (Byte.of_N (Z.to_N (z mod 256))).

Definition Z_of_byte (b : byte) : Z := Z.of_N (Byte.to_N b).

(** The [n] bytes of the object representation of [z]. *)
Fixpoint bytes_of (n : nat) (z : Z) : list byte :=
  match n with
  | O => []
  | S n' => byte_of_Z z :: bytes_of n' (z / 256)
  end.

(** The unsigned integer whose object representation is [bs]. *)
Fixpoint unsigned_of (bs : list byte) : Z :=
  match bs with
  | [] => 0
  | b :: bs' => Z_of_byte b + 256 * unsigned_of bs'
  end.

(** [std::vector<char>::resize]: new elements are value-initialised. *)
Definition resize (n : Z) (v : list byte) : list byte :=
  if n <=? Z.of_nat (length v) then take (Z.to_nat n) v
  else v ++ replicate (Z.to_nat n - length v)%nat x00.

(** Copy [src] over the front of [dst] (a [read] or [memcpy] into it). *)
Definition blit (src dst : list byte) : list byte :=
  src ++ drop (length src) dst.

(** The [n] bytes at offset [off]. *)
Definition slice (off n : nat) (v : list byte) : list byte :=
  take n (drop off v).

End Mem.

(** ** Exceptions *)

Inductive result (A : Type) : Type :=
  | Ok (a : A)
  | Throw (what : string).
Arguments Ok {A} a.
Arguments Throw {A} what.

Definition bind {A B} (m : result A) (k : A -> result B) : result B :=
  match m with
  | Ok a => k a
  | Throw w => Throw w
  end.

Notation "'do' x <- m ; k" := (bind m (fun x => k))
  (at level 10, x pattern, m at level 100, k at level 200).

(** ** The file system the streams open their files on *)

Record filesystem := {
  files : gmap string (list byte);   (* readable files and their content *)
  creatable : string -> bool         (* can an output file be created here *)
}.

(** ** std::ifstream *)

Module IStream.

Record t := {
  content : list byte;
  gpos : N;
  eofbit : bool;
  failbit : bool
}.

(** [open(path, binary)] on a fresh stream: failbit when it cannot open. *)
Definition open (fs : filesystem) (path : string) : t :=
  match files fs !! path with
  | Some bs => {| content := bs; gpos := 0; eofbit := false; failbit := false |}
  | None => {| content := []; gpos := 0; eofbit := false; failbit := true |}
  end.

Definition eof (s : t) : bool := eofbit s.
Definition fail (s : t) : bool := failbit s.
Definition good (s : t) : bool := negb (eofbit s) && negb (failbit s).

(** Bytes between the get position and the end of the file. *)
Definition avail (s : t) : Z :=
  Z.max 0 (Z.of_nat (length (content s)) - Z.of_N (gpos s)).

(** [read(buf, n)]: the bytes stored into [buf] and the stream afterwards.
    On a stream that is not good nothing is extracted and failbit is set;
    when fewer than [n] bytes are left they are all extracted and
    eofbit and failbit are set. *)
Definition read (n : Z) (s : t) : list byte * t :=
  if good s then
    let k := Z.max 0 (Z.min n (avail s)) in
    let bs := if k =? 0 then []
              else take (Z.to_nat k) (drop (N.to_nat (gpos s)) (content s)) in
    (bs, {| content := content s; gpos := gpos s + Z.to_N k;
            eofbit := k <? n; failbit := k <? n |})
  else
    ([], {| content := content s; gpos := gpos s;
            eofbit := eofbit s; failbit := true |}).

(** [clear()]. *)
Definition clear (s : t) : t :=
  {| content := content s; gpos := gpos s; eofbit := false; failbit := false |}.

(** [seekg(off, beg)]: clears eofbit, then moves unless the stream failed.
    A position past the end of the file is kept; nothing can be read there. *)
Definition seekg (off : Z) (s : t) : t :=
  if failbit s then
    {| content := content s; gpos := gpos s; eofbit := false; failbit := true |}
  else
    {| content := content s; gpos := Z.to_N off; eofbit := false; failbit := false |}.

End IStream.

(** ** std::ofstream *)

Module OStream.

Record t := {
  written : list byte;
  failbit : bool
}.

Definition open (fs : filesystem) (path : string) : t :=
  {| written := []; failbit := negb (creatable fs path) |}.

Definition write (bs : list byte) (s : t) : t :=
  if failbit s then s
  else {| written := written s ++ bs; failbit := false |}.

End OStream.

(** ** readVar / writeVar

  [readVar] returns a local that [read] may have filled only partly:
  the bytes that were not read keep the indeterminate value [junk] the
  local had. *)

Definition readVar (width : nat) (junk : Z) (input : IStream.t) : Z * IStream.t :=
  let '(bs, input') := IStream.read (Z.of_nat width) input in
  (Mem.unsigned_of (Mem.blit bs (Mem.bytes_of width junk)), input').

Definition writeVar (width : nat) (output : OStream.t) (var : Z) : OStream.t :=
  OStream.write (Mem.bytes_of width var) output.

Definition MAGIC : Z := 0xABCDEF01.

(** ** BITMAPINFOHEADER

  The struct is declared in the Windows SDK ([wingdi.h]), not in the
  repository: eleven fields, 40 bytes, no padding.  A
  [BITMAPINFOHEADER*] is embedded as the bytes it points to; the fields
  the program reads through such a pointer are loaded from their offsets. *)

Record BITMAPINFOHEADER := {
  biSize : Z;            (* DWORD, offset 0 *)
  biWidth : Z;           (* LONG, offset 4 *)
  biHeight : Z;          (* LONG, offset 8 *)
  biPlanes : Z;          (* WORD, offset 12 *)
  biBitCount : Z;        (* WORD, offset 14 *)
  biCompression : Z;     (* DWORD, offset 16 *)
  biSizeImage : Z;       (* DWORD, offset 20 *)
  biXPelsPerMeter : Z;   (* LONG, offset 24 *)
  biYPelsPerMeter : Z;   (* LONG, offset 28 *)
  biClrUsed : Z;         (* DWORD, offset 32 *)
  biClrImportant : Z     (* DWORD, offset 36 *)
}.

Definition sizeof_BITMAPINFOHEADER : Z := 40.

Module Bih.

(** The object representation of the struct. *)
Definition bytes (b : BITMAPINFOHEADER) : list byte :=
  Mem.bytes_of 4 (biSize b) ++ Mem.bytes_of 4 (biWidth b) ++
  Mem.bytes_of 4 (biHeight b) ++ Mem.bytes_of 2 (biPlanes b) ++
  Mem.bytes_of 2 (biBitCount b) ++ Mem.bytes_of 4 (biCompression b) ++
  Mem.bytes_of 4 (biSizeImage b) ++ Mem.bytes_of 4 (biXPelsPerMeter b) ++
  Mem.bytes_of 4 (biYPelsPerMeter b) ++ Mem.bytes_of 4 (biClrUsed b) ++
  Mem.bytes_of 4 (biClrImportant b).

Definition load_u32 (off : nat) (p : list byte) : Z :=
  Mem.unsigned_of (Mem.slice off 4 p).
Definition load_u16 (off : nat) (p : list byte) : Z :=
  Mem.unsigned_of (Mem.slice off 2 p).
Definition load_s32 (off : nat) (p : list byte) : Z :=
  CInt.s32 (load_u32 off p).

(** [p->biSize], [p->biWidth], ... *)
Definition size (p : list byte) : Z := load_u32 0 p.
Definition width (p : list byte) : Z := load_s32 4 p.
Definition height (p : list byte) : Z := load_s32 8 p.
Definition bitCount (p : list byte) : Z := load_u16 14 p.
Definition compression (p : list byte) : Z := load_u32 16 p.
Definition sizeImage (p : list byte) : Z := load_u32 20 p.

(** [p->biSizeImage = v] and the like: a four-byte store at [off]. *)
Definition store_32 (off : nat) (v : Z) (p : list byte) : list byte :=
  take off p ++ Mem.blit (Mem.bytes_of 4 v) (drop off p).

Definition set_width (v : Z) (p : list byte) : list byte := store_32 4 v p.
Definition set_height (v : Z) (p : list byte) : list byte := store_32 8 v p.
Definition set_sizeImage (v : Z) (p : list byte) : list byte := store_32 20 v p.

End Bih.

(** ** class BitmapInfoHeader: a byte vector holding a BITMAPINFOHEADER
     and whatever the codec appended to it *)

Module BitmapInfoHeader.

(** The object is its [buf]. *)
Definition t := list byte.

Definition resize (size : Z) (this : t) : t := Mem.resize size this.

(** The constructor: [resize(sizeof(BITMAPINFOHEADER))] of an empty vector. *)
Definition ctor : t := resize sizeof_BITMAPINFOHEADER [].

(** [operator=(const BITMAPINFOHEADER* bih)]; [None] is the null pointer.
    [memcpy] copies [bih->biSize] bytes from [bih]. *)
Definition assign (bih : option (list byte)) (this : t) : t :=
  match bih with
  | None => this
  | Some p =>
      let buf := resize (Bih.size p) this in
      Mem.blit (take (Z.to_nat (Bih.size p)) p) buf
  end.

(** [operator BITMAPINFOHEADER*()]: the address of [buf[0]]. *)
Definition ptr (this : t) : list byte := this.

End BitmapInfoHeader.

(** ** PixelFormatResolver: align_to and GetDecompFormat *)

Module Resolver.

(** [strcmp], as far as the program looks at it: zero exactly on equal
    strings. *)
Definition strcmp (a b : string) : Z :=
  match String.compare a b with
  | Eq => 0
  | Lt => -1
  | Gt => 1
  end.

(** [BI_RGB] and [mmioFOURCC] come from the Windows SDK headers. *)
Definition BI_RGB : Z := 0.

Definition mmioFOURCC (ch0 ch1 ch2 ch3 : ascii) : Z :=
  let b (c : ascii) := Z.of_N (Ascii.N_of_ascii c) in
  Z.lor (Z.lor (Z.lor (b ch0) (Z.shiftl (b ch1) 8)) (Z.shiftl (b ch2) 16))
        (Z.shiftl (b ch3) 24).

(** [align_to<ALIGN, LONG>(val)] with a [uintptr_t] of [ptr_bits] bits:
    [(T)((uintptr_t(val) + ALIGN - 1) / ALIGN * ALIGN)]. *)
Definition align_to_on (ptr_bits ALIGN val : Z) : Z :=
  let up (z : Z) := z mod 2 ^ ptr_bits in
  CInt.s32 (up (up (up (up val + ALIGN) - 1) / ALIGN * ALIGN)).

(** The 64-bit build; [align_to_on_32_64] shows the 32-bit build computes
    the same values. *)
Definition uintptr_bits : Z := 64.

Definition align_to (ALIGN val : Z) : Z := align_to_on uintptr_bits ALIGN val.

(** The three assignments every branch of [GetDecompFormat] makes;
    [biSizeImage] is a [DWORD]. *)
Definition layout (bitCount compression sizeImage : Z) (b : BITMAPINFOHEADER)
  : BITMAPINFOHEADER :=
  {| biSize := biSize b; biWidth := biWidth b; biHeight := biHeight b;
     biPlanes := biPlanes b; biBitCount := bitCount;
     biCompression := compression; biSizeImage := CInt.u32 sizeImage;
     biXPelsPerMeter := biXPelsPerMeter b;
     biYPelsPerMeter := biYPelsPerMeter b;
     biClrUsed := biClrUsed b; biClrImportant := biClrImportant b |}.

(** [int] multiplication, addition and division. *)
Definition mul (a b : Z) : Z := CInt.s32 (a * b).
Definition add (a b : Z) : Z := CInt.s32 (a + b).
Definition div (a b : Z) : Z := CInt.s32 (Z.quot a b).

Definition GetDecompFormat (format : string) (width height : Z)
  : result BITMAPINFOHEADER :=
  let out :=
    {| biSize := sizeof_BITMAPINFOHEADER; biWidth := width;
       biHeight := height; biPlanes := 1; biBitCount := 0;
       biCompression := 0; biSizeImage := 0; biXPelsPerMeter := 0;
       biYPelsPerMeter := 0; biClrUsed := 0; biClrImportant := 0 |} in
  let w := biWidth out in
  let h := CInt.abs (biHeight out) in
  if (strcmp format "RGB24" =? 0) || (strcmp format "bgr24" =? 0) then
    Ok (layout 24 BI_RGB (mul (align_to 4 (mul w 3)) h) out)
  else if (strcmp format "RGB32" =? 0) || (strcmp format "bgr32" =? 0) then
    Ok (layout 32 BI_RGB (mul (mul w 4) h) out)
  else if strcmp format "BGRA" =? 0 then
    Ok (layout 32 (mmioFOURCC "B" "G" "R" "A") (mul (mul w 4) h) out)
  else if strcmp format "AYUV" =? 0 then
    Ok (layout 32 (mmioFOURCC "A" "Y" "U" "V") (mul (mul w 4) h) out)
  else if strcmp format "YUY2" =? 0 then
    Ok (layout 16 (mmioFOURCC "Y" "U" "Y" "2") (mul (mul w 2) h) out)
  else if strcmp format "UYVY" =? 0 then
    Ok (layout 16 (mmioFOURCC "U" "Y" "V" "Y") (mul (mul w 2) h) out)
  else if strcmp format "YV12" =? 0 then
    Ok (layout 12 (mmioFOURCC "Y" "V" "1" "2") (div (mul (mul w h) 3) 2) out)
  else if strcmp format "YV24" =? 0 then
    Ok (layout 24 (mmioFOURCC "Y" "V" "2" "4") (mul (mul w h) 3) out)
  else if strcmp format "Y8" =? 0 then
    Ok (layout 8 (mmioFOURCC "Y" "8" " " " ") (mul w h) out)
  else if strcmp format "b64a" =? 0 then
    Ok (layout 64 (mmioFOURCC "b" "6" "4" "a") (mul (mul w 8) h) out)
  else if strcmp format "b48r" =? 0 then
    Ok (layout 48 (mmioFOURCC "b" "4" "8" "r") (mul (mul w 6) h) out)
  else if strcmp format "v210" =? 0 then
    Ok (layout 20 (mmioFOURCC "v" "2" "1" "0")
          (mul (mul (div (add w 47) 48) 128) h) out)
  else if strcmp format "r210" =? 0 then
    Ok (layout 30 (mmioFOURCC "r" "2" "1" "0")
          (mul (mul (div (add w 63) 64) 256) h) out)
  else
    Throw ("Invalid requested decompressed format: " +:+ format).

End Resolver.

(** ** class VideoReader *)

Module VideoReader.

Record t := {
  m_frameBuf : list byte;
  m_frameSize : Z;
  m_inFile : IStream.t;
  m_biFormat : BitmapInfoHeader.t;
  m_headerSize : Z;
  m_raw : bool
}.

(** The implicit constructor: an empty vector, a closed stream, a
    [BitmapInfoHeader]; [m_frameSize], [m_headerSize] and [m_raw] are
    assigned before they are read. *)
Definition ctor : t :=
  {| m_frameBuf := []; m_frameSize := 0;
     m_inFile := {| IStream.content := []; IStream.gpos := 0;
                    IStream.eofbit := false; IStream.failbit := false |};
     m_biFormat := BitmapInfoHeader.ctor; m_headerSize := 0; m_raw := false |}.

Definition getFormat (this : t) : list byte :=
  BitmapInfoHeader.ptr (m_biFormat this).

Definition frameData (this : t) : list byte := m_frameBuf this.

Definition frameSize (this : t) : Z := m_frameSize this.

Definition openRaw (fs : filesystem) (infile format : string)
    (width height : Z) (this : t) : result t :=
  do bi <- Resolver.GetDecompFormat format width height;
  let fmt := Mem.blit (Bih.bytes bi) (m_biFormat this) in
  let inFile := IStream.open fs infile in
  if IStream.fail inFile then
    Throw ("ERROR: Failed to open file: " +:+ infile)
  else
    Ok {| m_frameBuf := m_frameBuf this; m_frameSize := m_frameSize this;
          m_inFile := inFile; m_biFormat := fmt;
          m_headerSize := 0; m_raw := true |}.

(** [junk_magic] and [junk_size] are what the two [readVar] locals hold
    before their [read]. *)
Definition open (fs : filesystem) (infile : string)
    (junk_magic junk_size : Z) (this : t) : result t :=
  let inFile := IStream.open fs infile in
  if IStream.fail inFile then
    Throw ("ERROR: Failed to open file: " +:+ infile)
  else
    let '(magic, inFile1) := readVar 4 junk_magic inFile in
    if negb (magic =? MAGIC) then
      Throw "ERROR: Invalid file magic"
    else
      let '(formatSize, inFile2) := readVar 4 junk_size inFile1 in
      let fmt := BitmapInfoHeader.resize formatSize (m_biFormat this) in
      let '(bs, inFile3) := IStream.read formatSize inFile2 in
      Ok {| m_frameBuf := m_frameBuf this; m_frameSize := m_frameSize this;
            m_inFile := inFile3; m_biFormat := Mem.blit bs fmt;
            m_headerSize := CInt.u32 (8 + formatSize); m_raw := false |}.

Definition readFrame (junk : Z) (this : t) : bool * t :=
  if IStream.eof (m_inFile this) then (false, this)
  else
    let '(size, inFile1) :=
      if m_raw this then (Bih.sizeImage (getFormat this), m_inFile this)
      else readVar 4 junk (m_inFile this) in
    let buf :=
      if Z.of_nat (length (m_frameBuf this)) <? size
      then Mem.resize size (m_frameBuf this)
      else m_frameBuf this in
    let '(bs, inFile2) := IStream.read size inFile1 in
    (negb (IStream.fail inFile2),
     {| m_frameBuf := Mem.blit bs buf; m_frameSize := size;
        m_inFile := inFile2; m_biFormat := m_biFormat this;
        m_headerSize := m_headerSize this; m_raw := m_raw this |}).

Definition rewind (this : t) : t :=
  {| m_frameBuf := m_frameBuf this; m_frameSize := m_frameSize this;
     m_inFile := IStream.seekg (m_headerSize this) (IStream.clear (m_inFile this));
     m_biFormat := m_biFormat this;
     m_headerSize := m_headerSize this; m_raw := m_raw this |}.

(** The frame a caller sees after a successful [readFrame]: the first
    [frameSize()] bytes at [frameData()]. *)
Definition frame (this : t) : list byte :=
  take (Z.to_nat (frameSize this)) (frameData this).

End VideoReader.

(** ** class VideoWriter *)

Module VideoWriter.

Record t := {
  m_outFile : OStream.t;
  m_raw : bool
}.

(** The implicit constructor: a closed stream; [m_raw] is assigned before
    it is read. *)
Definition ctor : t :=
  {| m_outFile := {| OStream.written := []; OStream.failbit := false |};
     m_raw := false |}.

(** [biFormat = None] is the null pointer: the file is written raw. *)
Definition open (fs : filesystem) (outfile : string)
    (biFormat : option (list byte)) (this : t) : result t :=
  let outFile := OStream.open fs outfile in
  if OStream.failbit outFile then
    Throw ("ERROR: Failed to open file: " +:+ outfile)
  else
    match biFormat with
    | None => Ok {| m_outFile := outFile; m_raw := true |}
    | Some p =>
        let outFile1 := writeVar 4 outFile MAGIC in
        let outFile2 := writeVar 4 outFile1 (Bih.size p) in
        Ok {| m_outFile :=
                OStream.write (take (Z.to_nat (Bih.size p)) p) outFile2;
              m_raw := false |}
    end.

(** [data] is the memory at the pointer, [frameSize] a [uint32_t]. *)
Definition writeFrame (data : list byte) (frameSize : Z) (this : t) : t :=
  let outFile1 :=
    if negb (m_raw this) then writeVar 4 (m_outFile this) frameSize
    else m_outFile this in
  {| m_outFile := OStream.write (take (Z.to_nat frameSize) data) outFile1;
     m_raw := m_raw this |}.

End VideoWriter.

(** ** Standard output and the exception monad of the orchestrator

    What is printed stays printed when an exception is thrown, so the
    output is threaded next to the result.  A line whose text depends on
    [printf] number formatting is kept as the values it is formatted from. *)

Inductive event :=
| Text (s : string)
| BitmapInfo (width height compression bitCount : Z)
| Progress (numFrames : Z)
           (decompress : option (Z * Z * Z))   (* sumRawSize, sumInputSize, decompTimer.sumTimeUs() *)
           (compress : option (Z * Z * Z)).    (* sumRawSize, sumOutputSize, compTimer.sumTimeUs() *)

Definition IO (A : Type) : Type := list event -> result A * list event.

Definition ret {A} (a : A) : IO A := fun out => (Ok a, out).

Definition throw {A} (what : string) : IO A := fun out => (Throw what, out).

Definition printf (e : event) : IO unit := fun out => (Ok tt, out ++ [e]).

Definition lift {A} (r : result A) : IO A := fun out => (r, out).

Definition bindIO {A B} (m : IO A) (k : A -> IO B) : IO B :=
  fun out =>
    match m out with
    | (Ok a, out') => k a out'
    | (Throw w, out') => (Throw w, out')
    end.

Notation "'doIO' x <- m ; k" := (bindIO m (fun x => k))
  (at level 10, x pattern, m at level 100, k at level 200).

Definition nl : string := String (Ascii.ascii_of_nat 10) EmptyString.

Definition PrintBitmapInfo (biFormat : list byte) : IO unit :=
  printf (BitmapInfo (Bih.width biFormat) (Bih.height biFormat)
                     (Bih.compression biFormat) (Bih.bitCount biFormat)).

(** ** The host: clock, interrupt, and the Video for Windows codecs

    None of it is code of the repository.  A codec call takes the codec
    instance and returns it, since a codec keeps state between calls. *)

Class Host := {
  QueryPerformanceFrequency : Z;
  (** the counter at the n-th query of the run *)
  QueryPerformanceCounter : nat -> Z;
  (** [s_stop] as the n-th test of the loop condition finds it; the signal
      handler sets it *)
  s_stop : nat -> bool;
  (** what the [readVar] locals hold before the read: the two of
      [VideoReader::open], and the one of the n-th [readFrame] of the run *)
  junk_open : Z * Z;
  junk_frame : nat -> Z;
  HIC : Type;
  COMPVARS : Type;
  ICGetInfo : HIC -> string * string;
  (** [ICLocate(ICTYPE_VIDEO, fccHandler, lpbiIn, NULL, ICMODE_DECOMPRESS)] *)
  ICLocate : Z -> list byte -> option HIC;
  ICDecompressQuery : HIC -> list byte -> list byte -> Z * HIC;
  ICDecompressGetFormatSize : HIC -> list byte -> Z * HIC;
  (** returns the bytes it stores at [lpbiOut] *)
  ICDecompressGetFormat : HIC -> list byte -> list byte -> Z * list byte * HIC;
  ICDecompressBegin : HIC -> list byte -> list byte -> Z * HIC;
  (** [ICDecompress(hic, 0, lpbiIn, data, lpbiOut, out)], [out] as it is
      on entry: the bytes it stores at [out] *)
  ICDecompress :
    HIC -> list byte -> list byte -> list byte -> list byte -> list byte * HIC;
  (** [ICCompressorChoose]: [None] when it returns FALSE (cancelled) *)
  ICCompressorChoose : list byte -> option COMPVARS;
  compvars_hic : COMPVARS -> option HIC;
  compvars_lpbiIn : COMPVARS -> list byte;
  compvars_lpbiOut : COMPVARS -> option (list byte);
  ICSeqCompressFrameStart : COMPVARS -> list byte -> bool * COMPVARS;
  (** [ICSeqCompressFrame(pc, 0, data, &fKey, &size)] with [*size] on entry:
      the memory at the returned pointer and [*size] on return *)
  ICSeqCompressFrame : COMPVARS -> list byte -> Z -> list byte * Z * COMPVARS
}.

Definition ICERR_OK : Z := 0.

(** ** struct Timer

    [sumTimeUs] divides by the counter frequency, which Windows reports
    as nonzero. *)

Module Timer.

Record t := {
  freq : Z;
  startCount : Z;
  endCount : Z;
  sumCounts : Z;
  numSamples : Z
}.

(** [startCount] and [endCount] are assigned before they are read. *)
Definition ctor `{Host} : t :=
  {| freq := QueryPerformanceFrequency; startCount := 0; endCount := 0;
     sumCounts := 0; numSamples := 0 |}.

Definition begin (now : Z) (this : t) : t :=
  {| freq := freq this; startCount := now; endCount := endCount this;
     sumCounts := sumCounts this; numSamples := numSamples this |}.

Definition end_ (now : Z) (this : t) : t :=
  {| freq := freq this; startCount := startCount this; endCount := now;
     sumCounts := CInt.s64 (sumCounts this + CInt.s64 (now - startCount this));
     numSamples := CInt.s64 (numSamples this + 1) |}.

Definition sumTimeUs (this : t) : Z :=
  CInt.s64 (Z.quot (CInt.s64 (1000000 * sumCounts this)) (freq this)).

End Timer.

(** ** class ArgvParser *)

Module ArgvParser.

(** [argmap] maps an option to its parameter, [None] being the null
    pointer of an option given without one. *)
Record t := {
  argmap : gmap string (option string);
  arglist : list string
}.

Definition is_switch (arg : string) : bool :=
  match arg with
  | String c _ => bool_decide (c = "-"%char)
  | EmptyString => false
  end.

(** The constructor's loop over [argv[i]], [lastarg] being its local. *)
Fixpoint scan (args : list string) (lastarg : option string) (this : t) : t :=
  match args with
  | [] => this
  | a :: rest =>
      if is_switch a then
        scan rest (Some a)
             {| argmap := <[a := None]> (argmap this); arglist := arglist this |}
      else
        match lastarg with
        | Some l =>
            scan rest None
                 {| argmap := <[l := Some a]> (argmap this);
                    arglist := arglist this |}
        | None =>
            scan rest None
                 {| argmap := argmap this; arglist := arglist this ++ [a] |}
        end
  end.

Definition ctor (argv : list string) : t :=
  scan (drop 1 argv) None {| argmap := ∅; arglist := [] |}.

Definition hasArg (arg : string) (allowParam : bool) (this : t) : result bool :=
  match argmap this !! arg with
  | None => Ok false
  | Some second =>
      if negb allowParam && bool_decide (is_Some second) then
        Throw ("ERROR: '" +:+ arg +:+ "' does not accept arguments")
      else Ok true
  end.

Definition getArg (arg : string) (defVal : option string) (this : t)
  : result (option string) :=
  match argmap this !! arg with
  | None => Ok defVal
  | Some None => Throw ("ERROR: Missing argument for option '" +:+ arg +:+ "'")
  | Some (Some v) => Ok (Some v)
  end.

End ArgvParser.

(** ** atoi (C runtime): white space, an optional sign, decimal digits;
       the Microsoft runtime returns INT_MAX or INT_MIN on overflow. *)

Module Crt.

Definition isspace (c : ascii) : bool :=
  let n := Ascii.N_of_ascii c in
  ((n =? 32) || ((9 <=? n) && (n <=? 13)))%N.

Definition digit (c : ascii) : option Z :=
  let n := Z.of_N (Ascii.N_of_ascii c) in
  if (48 <=? n) && (n <=? 57) then Some (n - 48) else None.

Fixpoint skip_spaces (s : string) : string :=
  match s with
  | String c r => if isspace c then skip_spaces r else s
  | EmptyString => s
  end.

Fixpoint digits (acc : Z) (s : string) : Z :=
  match s with
  | String c r =>
      match digit c with
      | Some d => digits (10 * acc + d) r
      | None => acc
      end
  | EmptyString => acc
  end.

Definition clamp (z : Z) : Z := Z.max (- 2 ^ 31) (Z.min (2 ^ 31 - 1) z).

Definition atoi (s : string) : Z :=
  match skip_spaces s with
  | String c r =>
      if bool_decide (c = "-"%char) then clamp (- digits 0 r)
      else if bool_decide (c = "+"%char) then clamp (digits 0 r)
      else clamp (digits 0 (String c r))
  | EmptyString => 0
  end.

End Crt.

(** ** class Decompressor *)

Module Decompressor.
Section WithHost.
Context `{Host}.

Record t := {
  m_hic : option HIC;
  m_decompressing : bool;
  m_frameBuf : list byte;
  m_biFormatIn : BitmapInfoHeader.t;
  m_biFormatOut : BitmapInfoHeader.t
}.

Definition ctor : t :=
  {| m_hic := None; m_decompressing := false; m_frameBuf := [];
     m_biFormatIn := BitmapInfoHeader.ctor;
     m_biFormatOut := BitmapInfoHeader.ctor |}.

Definition frameData (this : t) : list byte := m_frameBuf this.

Definition getOutputFormat (this : t) : list byte :=
  BitmapInfoHeader.ptr (m_biFormatOut this).

(** A store of [bs] through a pointer to the start of [buf], which keeps
    its size. *)
Definition store (bs buf : list byte) : list byte :=
  Mem.blit (take (length buf) bs) buf.

(** The first half of [init]: determine or request the decompressed format. *)
Definition negotiate_format (hic : HIC) (biFormatIn : list byte)
    (biFormatOut : option (list byte)) (this : t)
  : IO (HIC * BitmapInfoHeader.t) :=
  match biFormatOut with
  | Some out =>
      let '(result, hic1) := ICDecompressQuery hic biFormatIn out in
      if negb (result =? ICERR_OK) then
        throw ("ERROR: The decompressor cannot decompress to the requested format/size" +:+ nl)
      else ret (hic1, BitmapInfoHeader.assign (Some out) (m_biFormatOut this))
  | None =>
      let '(size, hic1) := ICDecompressGetFormatSize hic biFormatIn in
      let decompFormatSize := CInt.u32 size in
      if (decompFormatSize =? 0) || (CInt.s32 decompFormatSize <? 0) then
        throw ("ICDecompressGetFormatSize() failed" +:+ nl)
      else
        let buf := BitmapInfoHeader.resize decompFormatSize (m_biFormatOut this) in
        let '(result, bs, hic2) := ICDecompressGetFormat hic1 biFormatIn buf in
        if negb (result =? ICERR_OK) then
          throw ("ICDecompressGetFormat() failed" +:+ nl)
        else ret (hic2, store bs buf)
  end.

(** The second half: determine or request the decompressed size. *)
Definition negotiate_size (hic : HIC) (biFormatIn : list byte)
    (width height : Z) (fmtOut : BitmapInfoHeader.t)
  : IO (HIC * BitmapInfoHeader.t) :=
  if negb (width =? 0) || negb (height =? 0) then
    let fmt1 := if negb (width =? 0) then Bih.set_width width fmtOut else fmtOut in
    let fmt2 := if negb (height =? 0) then Bih.set_height height fmt1 else fmt1 in
    let '(result, hic1) := ICDecompressQuery hic biFormatIn fmt2 in
    if negb (result =? ICERR_OK) then
      throw ("ERROR: The decompressor cannot decompress to the specified size" +:+ nl)
    else ret (hic1, fmt2)
  else ret (hic, fmtOut).

Definition init (biFormatIn : list byte) (biFormatOut : option (list byte))
    (width height : Z) (this : t) : IO t :=
  match ICLocate (Bih.compression biFormatIn) biFormatIn with
  | None => throw ("ERROR: Could not find appropriate decompressor!" +:+ nl)
  | Some hic =>
      doIO _ <- printf (Text ("INFO: Decompressor        : '" +:+ (ICGetInfo hic).1
                              +:+ "' - '" +:+ (ICGetInfo hic).2 +:+ "'" +:+ nl));
      doIO (hic1, fmt1) <- negotiate_format hic biFormatIn biFormatOut this;
      doIO (hic2, fmt2) <- negotiate_size hic1 biFormatIn width height fmt1;
      let '(result, hic3) := ICDecompressBegin hic2 biFormatIn fmt2 in
      if negb (result =? ICERR_OK) then
        throw ("ICDecompressBegin() failed" +:+ nl)
      else
        ret {| m_hic := Some hic3; m_decompressing := true;
               m_frameBuf := Mem.resize (Bih.sizeImage fmt2) (m_frameBuf this);
               m_biFormatIn :=
                 BitmapInfoHeader.assign (Some biFormatIn) (m_biFormatIn this);
               m_biFormatOut := fmt2 |}
  end.

Definition decompressFrame (data : list byte) (dataSize : Z) (this : t) : t :=
  let fmtIn := Bih.set_sizeImage dataSize (m_biFormatIn this) in
  match m_hic this with
  | Some hic =>
      let '(bs, hic1) :=
        ICDecompress hic fmtIn data (m_biFormatOut this) (m_frameBuf this) in
      {| m_hic := Some hic1; m_decompressing := m_decompressing this;
         m_frameBuf := store bs (m_frameBuf this);
         m_biFormatIn := fmtIn; m_biFormatOut := m_biFormatOut this |}
  | None =>
      {| m_hic := None; m_decompressing := m_decompressing this;
         m_frameBuf := m_frameBuf this;
         m_biFormatIn := fmtIn; m_biFormatOut := m_biFormatOut this |}
  end.

End WithHost.
End Decompressor.

(** ** class Compressor *)

Module Compressor.
Section WithHost.
Context `{Host}.

(** [m_compvars] is [None] while it is the zeroed struct of the
    constructor. *)
Record t := {
  m_compvars : option COMPVARS;
  m_compressing : bool;
  m_frameData : list byte;
  m_frameSize : Z;
  m_biFormatOut : BitmapInfoHeader.t
}.

(** [m_frameData] and [m_frameSize] are assigned before they are read. *)
Definition ctor : t :=
  {| m_compvars := None; m_compressing := false; m_frameData := [];
     m_frameSize := 0; m_biFormatOut := BitmapInfoHeader.ctor |}.

Definition frameData (this : t) : list byte := m_frameData this.

Definition frameSize (this : t) : Z := CInt.u32 (m_frameSize this).

Definition getOutputFormat (this : t) : list byte :=
  BitmapInfoHeader.ptr (m_biFormatOut this).

(** Returns [false] when no compression was selected. *)
Definition init (biFormatIn : list byte) (this : t) : IO (bool * t) :=
  match ICCompressorChoose biFormatIn with
  | None => throw ("Compressor selection was canceled!" +:+ nl)
  | Some cv =>
      match compvars_hic cv with
      | None =>
          ret (false,
               {| m_compvars := Some cv; m_compressing := false;
                  m_frameData := m_frameData this;
                  m_frameSize := m_frameSize this;
                  m_biFormatOut := m_biFormatOut this |})
      | Some hic =>
          doIO _ <- printf (Text ("INFO: Compressor          : '" +:+ (ICGetInfo hic).1
                                  +:+ "' - '" +:+ (ICGetInfo hic).2 +:+ "'" +:+ nl));
          let '(res, cv1) := ICSeqCompressFrameStart cv biFormatIn in
          if negb res then
            throw ("ERROR: ICSeqCompressFrameStart() failed" +:+ nl)
          else
            ret (true,
                 {| m_compvars := Some cv1; m_compressing := true;
                    m_frameData := m_frameData this;
                    m_frameSize := m_frameSize this;
                    m_biFormatOut :=
                      BitmapInfoHeader.assign (compvars_lpbiOut cv1)
                                              (m_biFormatOut this) |})
      end
  end.

Definition compressFrame (data : list byte) (this : t) : t :=
  match m_compvars this with
  | Some cv =>
      let size := CInt.s32 (Bih.sizeImage (compvars_lpbiIn cv)) in
      let '(p, size', cv1) := ICSeqCompressFrame cv data size in
      {| m_compvars := Some cv1; m_compressing := m_compressing this;
         m_frameData := p; m_frameSize := CInt.s32 size';
         m_biFormatOut := m_biFormatOut this |}
  | None => this
  end.

End WithHost.
End Compressor.

(** ** class CodecBench *)

Module CodecBench.
Section WithHost.
Context `{Host}.
Variable fs : filesystem.

(** A [const char*] member is an [option string], [None] being NULL. *)
Record t := {
  m_rawin : bool;
  m_rawout : bool;
  m_decompress : bool;
  m_compress : bool;
  m_infile : option string;
  m_outfile : option string;
  m_decompFormat : option string;
  m_decompWidth : Z;
  m_decompHeight : Z;
  m_framesToProcess : Z;
  m_loopCount : Z;
  m_videoReader : VideoReader.t;
  m_videoWriter : VideoWriter.t;
  m_decompressor : Decompressor.t;
  m_compressor : Compressor.t;
  m_formatDecompressed : BitmapInfoHeader.t;
  m_formatCompressed : BitmapInfoHeader.t
}.

(** [CodecBench cb;]: the members with a constructor are constructed; the
    others are assigned by [initArguments] before they are read. *)
Definition ctor : t :=
  {| m_rawin := false; m_rawout := false; m_decompress := false;
     m_compress := false; m_infile := None; m_outfile := None;
     m_decompFormat := None; m_decompWidth := 0; m_decompHeight := 0;
     m_framesToProcess := 0; m_loopCount := 0;
     m_videoReader := VideoReader.ctor;
     m_videoWriter := VideoWriter.ctor;
     m_decompressor := Decompressor.ctor;
     m_compressor := Compressor.ctor;
     m_formatDecompressed := BitmapInfoHeader.ctor;
     m_formatCompressed := BitmapInfoHeader.ctor |}.

Definition usage (argv0 : string) : list string :=
  [ "Usage: " +:+ argv0 +:+ " -i <infile> -o [outfile] [options]" +:+ nl;
    "Options:" +:+ nl;
    "  -i [infile]  Input file. Required." +:+ nl;
    "  -o [outfile] Output file. Optional. If not given, the output is discarded." +:+ nl;
    "  -nd          Do not decompress input (send read input directly to compressor)." +:+ nl;
    "  -nc          Do not compress. Useful for benchmarking a decoder." +:+ nl;
    "  -rawin       Input is raw. -nd is turned on automatically. -f, -w and -h must be specified." +:+ nl;
    "  -rawout      Output is raw. -nc is turned on automatically." +:+ nl;
    "  -f [format]  Request the decompressor to decode <infile> as [format]. Valid formats are:" +:+ nl;
    "               RGB24 (bgr24), RGB32 (bgr32), BGRA, AYUV, YUY2, UYVY, YV12, YV24, Y8, b64a, b48r, v210, r210" +:+ nl;
    "               If not given, the decompressor specifies the format." +:+ nl;
    "               For -rawin: specifies raw video format." +:+ nl;
    "  -w [width]   Request the decompressor to decode <infile> to given width." +:+ nl;
    "               If not given, the decompressor specifies the width." +:+ nl;
    "               For -rawin: specifies raw video width." +:+ nl;
    "  -h [height]  Request the decompressor to decode <infile> to given height." +:+ nl;
    "               Negative value is possible, which will request top-to-bottom RGB (RGB only)." +:+ nl;
    "               If not given, the decompressor specifies the height." +:+ nl;
    "               For -rawin: specifies raw video height." +:+ nl;
    "  -frames [n]  Process only the first [n] frames (0: all)." +:+ nl;
    "  -loop [n]    Loop the process [n] times (default: 1)." +:+ nl ].

Fixpoint print_all (lines : list string) : IO unit :=
  match lines with
  | [] => ret tt
  | l :: rest => doIO _ <- printf (Text l); print_all rest
  end.

(** [atoi(parser.getArg(arg, defVal))]. *)
Definition intArg (arg defVal : string) (parser : ArgvParser.t) : IO Z :=
  doIO v <- lift (ArgvParser.getArg arg (Some defVal) parser);
  ret (Crt.atoi (default EmptyString v)).

(** "Verify arguments": the last part of [initArguments], on the parsed
    values. *)
Definition verifyArguments (this : t) : IO t :=
  if negb (bool_decide (is_Some (m_infile this))) then
    throw ("ERROR: No input file given (-i)!" +:+ nl)
  else if m_rawin this then
    if negb (bool_decide (is_Some (m_decompFormat this)))
       || (m_decompWidth this =? 0) || (m_decompHeight this =? 0) then
      throw ("ERROR: -f, -w, -h must be given for raw inputs" +:+ nl)
    else ret this
  else if negb (m_decompress this) then
    doIO decompFormat <-
      (if bool_decide (is_Some (m_decompFormat this)) then
         doIO _ <- printf (Text ("WARNING: ignoring -f option because -nd option was given" +:+ nl));
         ret None
       else ret (m_decompFormat this));
    doIO decompWidth <-
      (if negb (m_decompWidth this =? 0) then
         doIO _ <- printf (Text ("WARNING: ignoring -w option because -nd option was given" +:+ nl));
         ret 0
       else ret (m_decompWidth this));
    doIO decompHeight <-
      (if negb (m_decompHeight this =? 0) then
         doIO _ <- printf (Text ("WARNING: ignoring -h option because -nd option was given" +:+ nl));
         ret 0
       else ret (m_decompHeight this));
    ret {| m_rawin := m_rawin this; m_rawout := m_rawout this;
           m_decompress := m_decompress this; m_compress := m_compress this;
           m_infile := m_infile this; m_outfile := m_outfile this;
           m_decompFormat := decompFormat; m_decompWidth := decompWidth;
           m_decompHeight := decompHeight;
           m_framesToProcess := m_framesToProcess this;
           m_loopCount := m_loopCount this;
           m_videoReader := m_videoReader this;
           m_videoWriter := m_videoWriter this;
           m_decompressor := m_decompressor this;
           m_compressor := m_compressor this;
           m_formatDecompressed := m_formatDecompressed this;
           m_formatCompressed := m_formatCompressed this |}
  else ret this.

Definition initArguments (argv : list string) (this : t) : IO t :=
  if Z.of_nat (length argv) <? 2 then
    doIO _ <- print_all (usage (default EmptyString (head argv)));
    throw EmptyString
  else
    let parser := ArgvParser.ctor argv in
    doIO rawin <- lift (ArgvParser.hasArg "-rawin" false parser);
    doIO rawout <- lift (ArgvParser.hasArg "-rawout" false parser);
    doIO decompress <-
      (if rawin : bool then ret false
       else doIO nd <- lift (ArgvParser.hasArg "-nd" false parser); ret (negb nd));
    doIO compress <-
      (if rawout : bool then ret false
       else doIO nc <- lift (ArgvParser.hasArg "-nc" false parser); ret (negb nc));
    doIO decompFormat <- lift (ArgvParser.getArg "-f" None parser);
    doIO decompWidth <- intArg "-w" "0" parser;
    doIO decompHeight <- intArg "-h" "0" parser;
    doIO framesToProcess <- intArg "-frames" "0" parser;
    doIO loopCount <- intArg "-loop" "1" parser;
    doIO infile <- lift (ArgvParser.getArg "-i" None parser);
    doIO outfile <- lift (ArgvParser.getArg "-o" None parser);
    verifyArguments
      {| m_rawin := rawin; m_rawout := rawout; m_decompress := decompress;
         m_compress := compress; m_infile := infile; m_outfile := outfile;
         m_decompFormat := decompFormat; m_decompWidth := decompWidth;
         m_decompHeight := decompHeight;
         m_framesToProcess := framesToProcess; m_loopCount := loopCount;
         m_videoReader := m_videoReader this;
         m_videoWriter := m_videoWriter this;
         m_decompressor := m_decompressor this;
         m_compressor := m_compressor this;
         m_formatDecompressed := m_formatDecompressed this;
         m_formatCompressed := m_formatCompressed this |}.

(** Assignments to one member. *)
Definition set_videoReader (v : VideoReader.t) (this : t) : t :=
  {| m_rawin := m_rawin this; m_rawout := m_rawout this;
     m_decompress := m_decompress this; m_compress := m_compress this;
     m_infile := m_infile this; m_outfile := m_outfile this;
     m_decompFormat := m_decompFormat this;
     m_decompWidth := m_decompWidth this; m_decompHeight := m_decompHeight this;
     m_framesToProcess := m_framesToProcess this; m_loopCount := m_loopCount this;
     m_videoReader := v; m_videoWriter := m_videoWriter this;
     m_decompressor := m_decompressor this; m_compressor := m_compressor this;
     m_formatDecompressed := m_formatDecompressed this;
     m_formatCompressed := m_formatCompressed this |}.

Definition set_videoWriter (v : VideoWriter.t) (this : t) : t :=
  {| m_rawin := m_rawin this; m_rawout := m_rawout this;
     m_decompress := m_decompress this; m_compress := m_compress this;
     m_infile := m_infile this; m_outfile := m_outfile this;
     m_decompFormat := m_decompFormat this;
     m_decompWidth := m_decompWidth this; m_decompHeight := m_decompHeight this;
     m_framesToProcess := m_framesToProcess this; m_loopCount := m_loopCount this;
     m_videoReader := m_videoReader this; m_videoWriter := v;
     m_decompressor := m_decompressor this; m_compressor := m_compressor this;
     m_formatDecompressed := m_formatDecompressed this;
     m_formatCompressed := m_formatCompressed this |}.

Definition set_decompressor (v : Decompressor.t) (this : t) : t :=
  {| m_rawin := m_rawin this; m_rawout := m_rawout this;
     m_decompress := m_decompress this; m_compress := m_compress this;
     m_infile := m_infile this; m_outfile := m_outfile this;
     m_decompFormat := m_decompFormat this;
     m_decompWidth := m_decompWidth this; m_decompHeight := m_decompHeight this;
     m_framesToProcess := m_framesToProcess this; m_loopCount := m_loopCount this;
     m_videoReader := m_videoReader this; m_videoWriter := m_videoWriter this;
     m_decompressor := v; m_compressor := m_compressor this;
     m_formatDecompressed := m_formatDecompressed this;
     m_formatCompressed := m_formatCompressed this |}.

Definition set_compressor (v : Compressor.t) (this : t) : t :=
  {| m_rawin := m_rawin this; m_rawout := m_rawout this;
     m_decompress := m_decompress this; m_compress := m_compress this;
     m_infile := m_infile this; m_outfile := m_outfile this;
     m_decompFormat := m_decompFormat this;
     m_decompWidth := m_decompWidth this; m_decompHeight := m_decompHeight this;
     m_framesToProcess := m_framesToProcess this; m_loopCount := m_loopCount this;
     m_videoReader := m_videoReader this; m_videoWriter := m_videoWriter this;
     m_decompressor := m_decompressor this; m_compressor := v;
     m_formatDecompressed := m_formatDecompressed this;
     m_formatCompressed := m_formatCompressed this |}.

Definition set_compress (v : bool) (this : t) : t :=
  {| m_rawin := m_rawin this; m_rawout := m_rawout this;
     m_decompress := m_decompress this; m_compress := v;
     m_infile := m_infile this; m_outfile := m_outfile this;
     m_decompFormat := m_decompFormat this;
     m_decompWidth := m_decompWidth this; m_decompHeight := m_decompHeight this;
     m_framesToProcess := m_framesToProcess this; m_loopCount := m_loopCount this;
     m_videoReader := m_videoReader this; m_videoWriter := m_videoWriter this;
     m_decompressor := m_decompressor this; m_compressor := m_compressor this;
     m_formatDecompressed := m_formatDecompressed this;
     m_formatCompressed := m_formatCompressed this |}.

Definition set_formatDecompressed (v : BitmapInfoHeader.t) (this : t) : t :=
  {| m_rawin := m_rawin this; m_rawout := m_rawout this;
     m_decompress := m_decompress this; m_compress := m_compress this;
     m_infile := m_infile this; m_outfile := m_outfile this;
     m_decompFormat := m_decompFormat this;
     m_decompWidth := m_decompWidth this; m_decompHeight := m_decompHeight this;
     m_framesToProcess := m_framesToProcess this; m_loopCount := m_loopCount this;
     m_videoReader := m_videoReader this; m_videoWriter := m_videoWriter this;
     m_decompressor := m_decompressor this; m_compressor := m_compressor this;
     m_formatDecompressed := v;
     m_formatCompressed := m_formatCompressed this |}.

Definition set_formatCompressed (v : BitmapInfoHeader.t) (this : t) : t :=
  {| m_rawin := m_rawin this; m_rawout := m_rawout this;
     m_decompress := m_decompress this; m_compress := m_compress this;
     m_infile := m_infile this; m_outfile := m_outfile this;
     m_decompFormat := m_decompFormat this;
     m_decompWidth := m_decompWidth this; m_decompHeight := m_decompHeight this;
     m_framesToProcess := m_framesToProcess this; m_loopCount := m_loopCount this;
     m_videoReader := m_videoReader this; m_videoWriter := m_videoWriter this;
     m_decompressor := m_decompressor this; m_compressor := m_compressor this;
     m_formatDecompressed := m_formatDecompressed this;
     m_formatCompressed := v |}.

Definition initInput (this : t) : IO t :=
  let infile := default EmptyString (m_infile this) in
  (* Open input video stream *)
  doIO reader <-
    lift (if m_rawin this then
            VideoReader.openRaw fs infile
              (default EmptyString (m_decompFormat this))
              (m_decompWidth this) (m_decompHeight this) (m_videoReader this)
          else
            VideoReader.open fs infile junk_open.1 junk_open.2
              (m_videoReader this));
  let this := set_videoReader reader this in
  doIO _ <- printf (Text ("INFO: Input file          : "
                          +:+ (if m_rawin this then "[RAW] " else EmptyString)
                          +:+ infile +:+ nl));
  doIO _ <- printf (Text "INFO: Input format        : ");
  doIO _ <- PrintBitmapInfo (VideoReader.getFormat reader);
  doIO _ <- printf (Text nl);
  (* Prepare decompressor if needed *)
  if m_decompress this then
    doIO biFormatDecomp <-
      match m_decompFormat this with
      | Some format =>
          doIO bi <- lift (Resolver.GetDecompFormat format
                             (Bih.width (VideoReader.getFormat reader))
                             (Bih.height (VideoReader.getFormat reader)));
          ret (Some (Bih.bytes bi))
      | None => ret None
      end;
    doIO decompressor <-
      Decompressor.init (VideoReader.getFormat reader) biFormatDecomp
        (m_decompWidth this) (m_decompHeight this) (m_decompressor this);
    let this := set_decompressor decompressor this in
    let this :=
      set_formatDecompressed
        (BitmapInfoHeader.assign (Some (Decompressor.getOutputFormat decompressor))
                                 (m_formatDecompressed this)) this in
    doIO _ <- printf (Text "INFO: Decompressed format : ");
    doIO _ <- PrintBitmapInfo (BitmapInfoHeader.ptr (m_formatDecompressed this));
    doIO _ <- printf (Text nl);
    ret this
  else
    doIO _ <- printf (Text ("INFO: Decompressor        : -" +:+ nl));
    ret (set_formatDecompressed
           (BitmapInfoHeader.assign (Some (VideoReader.getFormat reader))
                                    (m_formatDecompressed this)) this).

Definition initOutput (this : t) : IO t :=
  (* Prepare compressor if needed *)
  doIO this <-
    (if m_compress this then
       doIO (compress, compressor) <-
         Compressor.init (BitmapInfoHeader.ptr (m_formatDecompressed this))
                         (m_compressor this);
       let this := set_compress compress (set_compressor compressor this) in
       if compress : bool then
         ret (set_formatCompressed
                (BitmapInfoHeader.assign
                   (Some (Compressor.getOutputFormat compressor))
                   (m_formatCompressed this)) this)
       else ret this
     else ret this);
  doIO this <-
    (if negb (m_compress this) then
       doIO _ <- printf (Text ("INFO: Compressor          : -" +:+ nl));
       ret (set_formatCompressed
              (BitmapInfoHeader.assign
                 (Some (BitmapInfoHeader.ptr (m_formatDecompressed this)))
                 (m_formatCompressed this)) this)
     else ret this);
  doIO _ <- printf (Text "INFO: Output format       : ");
  doIO _ <- PrintBitmapInfo (BitmapInfoHeader.ptr (m_formatCompressed this));
  doIO _ <- printf (Text nl);
  (* Initialize output file if needed *)
  doIO this <-
    match m_outfile this with
    | Some outfile =>
        doIO writer <-
          lift (VideoWriter.open fs outfile
                  (if m_rawout this then None
                   else Some (BitmapInfoHeader.ptr (m_formatCompressed this)))
                  (m_videoWriter this));
        ret (set_videoWriter writer this)
    | None => ret this
    end;
  doIO _ <- printf (Text ("INFO: Output file         : "
                          +:+ (if bool_decide (is_Some (m_outfile this)) && m_rawout this
                               then "[RAW] " else EmptyString)
                          +:+ default "-" (m_outfile this) +:+ nl));
  ret this.

Definition init (argv : list string) (this : t) : IO t :=
  doIO this <- initArguments argv this;
  doIO this <- initInput this;
  initOutput this.

(** *** run

    The locals of [run] and what the loop consumes from the host:
    [iter] counts the tests of the loop condition (one [readFrame] follows
    each test that passes), [ticks] the queries of the performance counter. *)

Record locals := {
  this_ : t;
  decompTimer : Timer.t;
  compTimer : Timer.t;
  numFrames : Z;
  currentFrameNum : Z;
  sumInputSize : Z;
  sumOutputSize : Z;
  sumRawSize : Z;
  loop : Z;
  stdout : list event;
  iter : nat;
  ticks : nat
}.

(** [currData] and [currDataSize]. *)
Record current := {
  currData : list byte;
  currDataSize : Z
}.

(** "Decompress if needed": the decompressor, its timer, the counter
    queries and the current frame afterwards. *)
Definition decompress_if_needed (this : t) (timer : Timer.t) (ticks : nat)
    (curr : current) : Decompressor.t * Timer.t * nat * current :=
  if m_decompress this then
    let timer1 := Timer.begin (QueryPerformanceCounter ticks) timer in
    let decompressor :=
      Decompressor.decompressFrame (currData curr) (currDataSize curr)
                                   (m_decompressor this) in
    let timer2 := Timer.end_ (QueryPerformanceCounter (S ticks)) timer1 in
    (decompressor, timer2, S (S ticks),
     {| currData := Decompressor.frameData decompressor;
        currDataSize :=
          Bih.sizeImage (Decompressor.getOutputFormat decompressor) |})
  else (m_decompressor this, timer, ticks, curr).

(** "Compress if needed". *)
Definition compress_if_needed (this : t) (timer : Timer.t) (ticks : nat)
    (curr : current) : Compressor.t * Timer.t * nat * current :=
  if m_compress this then
    let timer1 := Timer.begin (QueryPerformanceCounter ticks) timer in
    let compressor :=
      Compressor.compressFrame (currData curr) (m_compressor this) in
    let timer2 := Timer.end_ (QueryPerformanceCounter (S ticks)) timer1 in
    (compressor, timer2, S (S ticks),
     {| currData := Compressor.frameData compressor;
        currDataSize := Compressor.frameSize compressor |})
  else (m_compressor this, timer, ticks, curr).

(** "Write output if needed". *)
Definition write_if_needed (this : t) (curr : current) : VideoWriter.t :=
  if bool_decide (is_Some (m_outfile this)) then
    VideoWriter.writeFrame (currData curr) (currDataSize curr) (m_videoWriter this)
  else m_videoWriter this.

(** The progress line, with the padding that overwrites the previous one. *)
Definition progress (this : t) (numFrames sumInputSize sumRawSize sumOutputSize : Z)
    (decompTimer compTimer : Timer.t) : event :=
  Progress numFrames
    (if m_decompress this
     then Some (sumRawSize, sumInputSize, Timer.sumTimeUs decompTimer) else None)
    (if m_compress this
     then Some (sumRawSize, sumOutputSize, Timer.sumTimeUs compTimer) else None).

(** One turn of the [while] loop, after its condition held. *)
Definition body (st : locals) : locals :=
  let this := this_ st in
  let '(more, reader) :=
    VideoReader.readFrame (junk_frame (iter st)) (m_videoReader this) in
  if negb more
     || (negb (m_framesToProcess this =? 0)
         && (m_framesToProcess this <=? currentFrameNum st)) then
    let loop1 := CInt.s32 (loop st + 1) in
    let reader1 :=
      if loop1 <? m_loopCount this then VideoReader.rewind reader else reader in
    {| this_ := set_videoReader reader1 this;
       decompTimer := decompTimer st; compTimer := compTimer st;
       numFrames := numFrames st; currentFrameNum := 0;
       sumInputSize := sumInputSize st; sumOutputSize := sumOutputSize st;
       sumRawSize := sumRawSize st; loop := loop1; stdout := stdout st;
       iter := S (iter st); ticks := ticks st |}
  else
    let this := set_videoReader reader this in
    let currentFrameNum1 := CInt.s32 (currentFrameNum st + 1) in
    let numFrames1 := CInt.s32 (numFrames st + 1) in
    let curr0 := {| currData := VideoReader.frameData reader;
                    currDataSize := VideoReader.frameSize reader |} in
    let sumInputSize1 := CInt.u64 (sumInputSize st + currDataSize curr0) in
    let '(decompressor, decompTimer1, ticks1, curr1) :=
      decompress_if_needed this (decompTimer st) (ticks st) curr0 in
    let this := set_decompressor decompressor this in
    let sumRawSize1 := CInt.u64 (sumRawSize st + currDataSize curr1) in
    let '(compressor, compTimer1, ticks2, curr2) :=
      compress_if_needed this (compTimer st) ticks1 curr1 in
    let this := set_compressor compressor this in
    let sumOutputSize1 := CInt.u64 (sumOutputSize st + currDataSize curr2) in
    let this := set_videoWriter (write_if_needed this curr2) this in
    {| this_ := this;
       decompTimer := decompTimer1; compTimer := compTimer1;
       numFrames := numFrames1; currentFrameNum := currentFrameNum1;
       sumInputSize := sumInputSize1; sumOutputSize := sumOutputSize1;
       sumRawSize := sumRawSize1; loop := loop st;
       stdout := stdout st ++ [progress this numFrames1 sumInputSize1
                                 sumRawSize1 sumOutputSize1
                                 decompTimer1 compTimer1];
       iter := S (iter st); ticks := ticks2 |}.

(** [while (!s_stop && loop < m_loopCount)], at most [fuel] turns. *)
Fixpoint while (fuel : nat) (st : locals) : option locals :=
  if negb (s_stop (iter st)) && (loop st <? m_loopCount (this_ st)) then
    match fuel with
    | O => None
    | S fuel' => while fuel' (body st)
    end
  else Some st.

(** The locals when the loop is entered. *)
Definition enter (this : t) (out : list event) : locals :=
  {| this_ := this; decompTimer := Timer.ctor; compTimer := Timer.ctor;
     numFrames := 0; currentFrameNum := 0; sumInputSize := 0;
     sumOutputSize := 0; sumRawSize := 0; loop := 0;
     stdout := out ++ [Text nl]; iter := O; ticks := O |}.

(** [run]: [None] when the loop has not ended after [fuel] turns. *)
Definition run (fuel : nat) (this : t) (out : list event) : option locals :=
  match while fuel (enter this out) with
  | Some st =>
      Some {| this_ := this_ st;
              decompTimer := decompTimer st; compTimer := compTimer st;
              numFrames := numFrames st; currentFrameNum := currentFrameNum st;
              sumInputSize := sumInputSize st; sumOutputSize := sumOutputSize st;
              sumRawSize := sumRawSize st; loop := loop st;
              stdout := stdout st ++ [Text nl];
              iter := iter st; ticks := ticks st |}
  | None => None
  end.

End WithHost.
End CodecBench.

(** ** main: the exit code and what was printed *)

Definition main `{Host} (fs : filesystem) (fuel : nat) (argv : list string)
  : option (Z * list event) :=
  match CodecBench.init fs argv CodecBench.ctor [] with
  | (Ok cb, out) =>
      match CodecBench.run fuel cb out with
      | Some st => Some (0, CodecBench.stdout st)
      | None => None
      end
  | (Throw what, out) => Some (1, out ++ [Text (what +:+ nl)])
  end.

(** ** Notions the properties are stated with *)

(** The format names of the usage text. *)
Definition supported : list string :=
  [ "RGB24"; "bgr24"; "RGB32"; "bgr32"; "BGRA"; "AYUV"; "YUY2"; "UYVY";
    "YV12"; "YV24"; "Y8"; "b64a"; "b48r"; "v210"; "r210" ]%string.

(** The frame size of each layout over the integers, as the layouts
    define it: rows of 8-bit RGB are padded to four bytes, v210 packs 48
    pixels into 128 bytes and r210 64 pixels into 256. *)
Definition align4 (z : Z) : Z := (z + 3) / 4 * 4.



(** What a caller gets from a call of [readFrame]: the frame, or nothing
    when it returned [false]. *)
Definition returned (res : bool * VideoReader.t) : option (list byte) :=
  if res.1 then Some (VideoReader.frame res.2) else None.

(** [readFrame] called once for each element of [junks]: what each call
    returned, with [frameSize()] and the frame after it. *)
Fixpoint readFrames (junks : list Z) (r : VideoReader.t)
  : list (bool * Z * list byte) * VideoReader.t :=
  match junks with
  | [] => ([], r)
  | j :: junks' =>
      let '(more, r1) := VideoReader.readFrame j r in
      let '(l, r2) := readFrames junks' r1 in
      ((more, VideoReader.frameSize r1, VideoReader.frame r1) :: l, r2)
  end.

(** The size of the frame at the get position: the descriptor's in raw
    mode, the length prefix in container mode. *)
Definition next_size (r : VideoReader.t) : Z :=
  if VideoReader.m_raw r then Bih.sizeImage (VideoReader.getFormat r)
  else Mem.unsigned_of
         (Mem.slice (N.to_nat (IStream.gpos (VideoReader.m_inFile r))) 4
                    (IStream.content (VideoReader.m_inFile r))).

(** The offset of its bytes. *)
Definition next_off (r : VideoReader.t) : N :=
  if VideoReader.m_raw r then IStream.gpos (VideoReader.m_inFile r)
  else (IStream.gpos (VideoReader.m_inFile r) + 4)%N.

(** Is a complete frame left in the stream: the stream is good and holds
    the whole length prefix (container mode) and as many bytes as the
    frame's size after it. *)
Definition frame_ahead (r : VideoReader.t) : bool :=
  let s := VideoReader.m_inFile r in
  IStream.good s &&
  (if VideoReader.m_raw r then next_size r <=? IStream.avail s
   else (4 <=? IStream.avail s) && (4 + next_size r <=? IStream.avail s)).

(** A frame as [writeFrame] takes it: the memory at [data] and a
    [uint32_t] size, which the memory covers. *)
Definition frame_ok (f : list byte * Z) : Prop :=
  0 <= f.2 < 2 ^ 32 /\ f.2 <= Z.of_nat (length f.1).

(** A descriptor as [VideoWriter::open] takes it: the memory at
    [biFormat] covers the [biSize] bytes it declares. *)
Definition descriptor_ok (p : list byte) : Prop :=
  Bih.size p <= Z.of_nat (length p).

(** [writeFrame] for each frame in turn. *)
Definition writeFrames (frames : list (list byte * Z)) (w : VideoWriter.t)
  : VideoWriter.t :=
  foldl (fun w f => VideoWriter.writeFrame f.1 f.2 w) w frames.

(** The bytes of a frame sequence in a container stream. *)
Definition container_frames (frames : list (list byte * Z)) : list byte :=
  concat (map (fun f => Mem.bytes_of 4 f.2 ++ take (Z.to_nat f.2) f.1) frames).

(** A reader that [open] or [openRaw] returned. *)
Definition opened (fs : filesystem) (r : VideoReader.t) : Prop :=
  (exists infile junk_magic junk_size r0,
     VideoReader.open fs infile junk_magic junk_size r0 = Ok r) \/
  (exists infile format width height r0,
     VideoReader.openRaw fs infile format width height r0 = Ok r).

(** The warnings "Verify arguments" prints for a non-raw input that is
    not decompressed, in the order it prints them. *)
Definition nd_warning (option : string) : event :=
  Text ("WARNING: ignoring " +:+ option +:+ " option because -nd option was given" +:+ nl).


(** [n] turns of the loop of [run]. *)
Definition turns `{Host} (n : nat) (st : CodecBench.locals) : CodecBench.locals :=
  Nat.iter n CodecBench.body st.

(** The number of progress lines in what was printed: one per frame
    processed. *)
Definition is_progress (e : event) : bool :=
  match e with
  | Progress _ _ _ => true
  | _ => false
  end.

Definition frames_processed (out : list event) : Z :=
  Z.of_nat (length (filter (fun e => is_progress e = true) out)).

(** The same orchestrator with another loop count. *)
Definition with_loopCount `{Host} (n : Z) (this : CodecBench.t) : CodecBench.t :=
  {| CodecBench.m_rawin := CodecBench.m_rawin this;
     CodecBench.m_rawout := CodecBench.m_rawout this;
     CodecBench.m_decompress := CodecBench.m_decompress this;
     CodecBench.m_compress := CodecBench.m_compress this;
     CodecBench.m_infile := CodecBench.m_infile this;
     CodecBench.m_outfile := CodecBench.m_outfile this;
     CodecBench.m_decompFormat := CodecBench.m_decompFormat this;
     CodecBench.m_decompWidth := CodecBench.m_decompWidth this;
     CodecBench.m_decompHeight := CodecBench.m_decompHeight this;
     CodecBench.m_framesToProcess := CodecBench.m_framesToProcess this;
     CodecBench.m_loopCount := n;
     CodecBench.m_videoReader := CodecBench.m_videoReader this;
     CodecBench.m_videoWriter := CodecBench.m_videoWriter this;
     CodecBench.m_decompressor := CodecBench.m_decompressor this;
     CodecBench.m_compressor := CodecBench.m_compressor this;
     CodecBench.m_formatDecompressed := CodecBench.m_formatDecompressed this;
     CodecBench.m_formatCompressed := CodecBench.m_formatCompressed this |}.

(** Are [n] complete frames left in the stream, one after the other. *)
Fixpoint frames_ahead (n : nat) (r : VideoReader.t) : bool :=
  match n with
  | O => true
  | S n' => frame_ahead r && frames_ahead n' (VideoReader.readFrame 0 r).2
  end.

(** What a turn of the loop leaves alone: the switches, the limits and
    the frame size of the decompressor's output format. *)
Definition settings `{Host} (this : CodecBench.t)
  : bool * bool * option string * Z * Z * Z :=
  (CodecBench.m_decompress this, CodecBench.m_compress this,
   CodecBench.m_outfile this, CodecBench.m_framesToProcess this,
   CodecBench.m_loopCount this,
   Bih.sizeImage (Decompressor.getOutputFormat (CodecBench.m_decompressor this))).



(** Two readers on the same source at the same place: they differ at most
    in their frame buffer and frame size. *)
Definition same_source (r r' : VideoReader.t) : Prop :=
  VideoReader.m_inFile r = VideoReader.m_inFile r' /\
  VideoReader.m_raw r = VideoReader.m_raw r' /\
  VideoReader.m_biFormat r = VideoReader.m_biFormat r' /\
  VideoReader.m_headerSize r = VideoReader.m_headerSize r'.

(** The reader after [n] frames, and the bytes those frames hold. *)
Fixpoint after_frames (n : nat) (r : VideoReader.t) : VideoReader.t :=
  match n with
  | O => r
  | S n' => after_frames n' (VideoReader.readFrame 0 r).2
  end.

Fixpoint bytes_ahead (n : nat) (r : VideoReader.t) : Z :=
  match n with
  | O => 0
  | S n' => next_size r + bytes_ahead n' (VideoReader.readFrame 0 r).2
  end.

(** The size of a frame after the decode stage, and of [n] frames. *)
Definition decoded_size `{Host} (this : CodecBench.t) (size : Z) : Z :=
  if CodecBench.m_decompress this
  then Bih.sizeImage (Decompressor.getOutputFormat (CodecBench.m_decompressor this))
  else size.

Definition decoded_bytes_ahead `{Host} (this : CodecBench.t) (n : nat)
    (r : VideoReader.t) : Z :=
  if CodecBench.m_decompress this
  then Z.of_nat n
       * Bih.sizeImage (Decompressor.getOutputFormat (CodecBench.m_decompressor this))
  else bytes_ahead n r.

(** The loop condition of [run]. *)
Definition goes_on `{Host} (st : CodecBench.locals) : bool :=
  negb (s_stop (CodecBench.iter st))
  && (CodecBench.loop st <? CodecBench.m_loopCount (CodecBench.this_ st)).

(** A reader whose stream is good and at the offset [rewind] seeks to. *)
Definition at_start (r : VideoReader.t) : Prop :=
  IStream.good (VideoReader.m_inFile r) = true /\
  IStream.gpos (VideoReader.m_inFile r) = Z.to_N (VideoReader.m_headerSize r).

(** The counters of [run] hold values of their types. *)
Definition counters_ok `{Host} (st : CodecBench.locals) : Prop :=
  CInt.s32 (CodecBench.numFrames st) = CodecBench.numFrames st /\
  CInt.u64 (CodecBench.sumInputSize st) = CodecBench.sumInputSize st /\
  CInt.u64 (CodecBench.sumRawSize st) = CodecBench.sumRawSize st /\
  CInt.u64 (CodecBench.sumOutputSize st) = CodecBench.sumOutputSize st.

(** ** Sample data *)

Module Sample.

Definition format : BITMAPINFOHEADER :=
  {| biSize := 40; biWidth := 4; biHeight := 2; biPlanes := 1;
     biBitCount := 24; biCompression := 0; biSizeImage := 100;
     biXPelsPerMeter := 0; biYPelsPerMeter := 0; biClrUsed := 0;
     biClrImportant := 0 |}.

Definition header : list byte :=
  Mem.bytes_of 4 MAGIC ++ Mem.bytes_of 4 40 ++ Bih.bytes format.

Definition disk (name : string) (bs : list byte) : filesystem :=
  {| files := {[ name := bs ]}; creatable := fun _ => true |}.

(** Three frames of 3, 0 and 2 bytes; the last one sits in a larger
    buffer. *)
Definition frames : list (list byte * Z) :=
  [ ([x01; x02; x03], 3); ([], 0); ([x0a; x0b; x0c; x0d], 2) ].

Definition writer : VideoWriter.t :=
  match VideoWriter.open (disk "none" []) "out.cb" (Some (Bih.bytes format))
                         VideoWriter.ctor with
  | Ok w => w
  | Throw _ => VideoWriter.ctor
  end.

Definition written : list byte :=
  OStream.written (VideoWriter.m_outFile (writeFrames frames writer)).

(** The header, then a frame that declares 100 bytes and has 50. *)
Definition truncated : list byte :=
  header ++ Mem.bytes_of 4 100 ++ replicate 50 x2a.

(** A header whose format block declares 0xFFFFFFFF bytes, three bytes of
    it, and 255 more bytes. *)
Definition wrapping : list byte :=
  Mem.bytes_of 4 MAGIC ++ Mem.bytes_of 4 0xFFFFFFFF ++ replicate 3 x00
  ++ replicate 255 x07.

(** The reader [open] returns on a file, and [ctor] if it throws. *)
Definition reader_on (file : list byte) : VideoReader.t :=
  match VideoReader.open (disk "in.cb" file) "in.cb" 0 0 VideoReader.ctor with
  | Ok r => r
  | Throw _ => VideoReader.ctor
  end.


(** A host: a clock that advances by ten counts per query, an interrupt
    that arrives when [stop] says, a decoder that turns every frame into
    the four bytes [64 65 66 67], and what the compressor dialog gives:
    nothing (cancelled), no compression, or a compressor whose first
    frame of a sequence takes two bytes and every later one a single byte. *)
Inductive choice := Cancelled | NoCompression | Compressor.

Definition decoded_format : BITMAPINFOHEADER :=
  {| biSize := 40; biWidth := 4; biHeight := 2; biPlanes := 1;
     biBitCount := 24; biCompression := 0; biSizeImage := 4;
     biXPelsPerMeter := 0; biYPelsPerMeter := 0; biClrUsed := 0;
     biClrImportant := 0 |}.

Definition host (stop : nat -> bool) (chosen : choice) : Host :=
  {| QueryPerformanceFrequency := 1000000;
     QueryPerformanceCounter := fun n => 10 * Z.of_nat n;
     s_stop := stop;
     junk_open := (0, 0);
     junk_frame := fun _ => 0;
     HIC := unit;
     COMPVARS := nat * bool;
     ICGetInfo := fun _ => ("toy"%string, "toy codec"%string);
     ICLocate := fun fcc _ => if fcc =? 0 then Some tt else None;
     ICDecompressQuery := fun hic _ _ => (ICERR_OK, hic);
     ICDecompressGetFormatSize := fun hic _ => (40, hic);
     ICDecompressGetFormat := fun hic _ _ => (ICERR_OK, Bih.bytes decoded_format, hic);
     ICDecompressBegin := fun hic _ _ => (ICERR_OK, hic);
     ICDecompress := fun hic _ _ _ _ => ([x40; x41; x42; x43], hic);
     ICCompressorChoose := fun _ =>
       match chosen with
       | Cancelled => None
       | NoCompression => Some (O, false)
       | Compressor => Some (O, true)
       end;
     compvars_hic := fun cv => if cv.2 then Some tt else None;
     compvars_lpbiIn := fun _ => Bih.bytes decoded_format;
     compvars_lpbiOut := fun _ => Some (Bih.bytes format);
     ICSeqCompressFrameStart := fun cv _ => (true, cv);
     ICSeqCompressFrame := fun cv _ _ =>
       match cv.1 with
       | O => ([xaa; xbb], 2, (S cv.1, cv.2))
       | S _ => ([xcc], 1, (S cv.1, cv.2))
       end |}.

Definition never : nat -> bool := fun _ => false.

(** A host on which nothing interrupts and the dialog selects no
    compressor, and one on which it selects the compressor. *)
Definition plain : Host := host never NoCompression.
Definition compressing : Host := host never Compressor.

(** The written sample container as the input file. *)
Definition input : filesystem := disk "in.cb" written.


(** Three loops over the first two frames, without decoder and encoder;
    two loops over them with both. *)
Definition loop_argv : list string :=
  [ "codecbench"; "-i"; "in.cb"; "-nd"; "-nc"; "-frames"; "2"; "-loop"; "3" ]%string.

Definition twice_argv : list string :=
  [ "codecbench"; "-i"; "in.cb"; "-frames"; "2"; "-loop"; "2" ]%string.

(** The orchestrator after [init], and what [init] printed. *)
Definition initialised (H : Host) (fs : filesystem) (argv : list string)
  : CodecBench.t * list event :=
  match CodecBench.init fs argv CodecBench.ctor [] with
  | (Ok cb, out) => (cb, out)
  | (Throw _, out) => (CodecBench.ctor, out)
  end.

(** The command line [codecbench -i in.cb -nd -f RGB24 -w 7 -h 0] as
    [initArguments] has parsed it, before it verifies it. *)
Definition nd_argv : list string :=
  [ "codecbench"; "-i"; "in.cb"; "-nd"; "-f"; "RGB24"; "-w"; "7"; "-h"; "0" ]%string.


End Sample.

(** ** printf conversions and isprint (C runtime) *)

Module Stdio.

(** The character of a digit below sixteen, upper case above nine. *)
Definition digit (d : Z) : ascii :=
  Ascii.ascii_of_N (Z.to_N (if d <? 10 then 48 + d else 55 + d)).

(** The decimal digits of [n >= 0] in front of [acc]; [fuel] bounds their
    number, and ten digits hold every 32-bit value. *)
Fixpoint decimal (fuel : nat) (n : Z) (acc : string) : string :=
  match fuel with
  | O => acc
  | S fuel' =>
      let acc' := String (digit (n mod 10)) acc in
      if n / 10 =? 0 then acc' else decimal fuel' (n / 10) acc'
  end.

(** [%d] and [%ld]: [int] and [long] both have 32 bits on Windows. *)
Definition d (n : Z) : string :=
  if n <? 0 then String "-" (decimal 10 (- n) EmptyString)
  else decimal 10 n EmptyString.

(** The last [digits] hexadecimal digits of [n] in front of [acc]. *)
Fixpoint hex (digits : nat) (n : Z) (acc : string) : string :=
  match digits with
  | O => acc
  | S digits' => hex digits' (n / 16) (String (digit (n mod 16)) acc)
  end.

(** [%08lX] of a [DWORD]. *)
Definition X08 (n : Z) : string := hex 8 n EmptyString.

(** [isprint] in the C locale: space to tilde. *)
Definition isprint (c : Z) : bool := (32 <=? c) && (c <=? 126).

End Stdio.

(** ** printfcc

    [printfcc] returns the string it leaves in [buf]; [PrintBitmapInfo]
    hands it the 32 bytes of [fccstr]. *)

Definition printfcc (fcc bpp : Z) : string :=
  if Stdio.isprint (Z.land fcc 0xFF)
     && Stdio.isprint (Z.land (Z.shiftr fcc 8) 0xFF)
     && Stdio.isprint (Z.land (Z.shiftr fcc 16) 0xFF)
     && Stdio.isprint (Z.land (Z.shiftr fcc 24) 0xFF)
  then string_of_list_byte (Mem.bytes_of 4 fcc)
  else if fcc =? 0 then "RGB" +:+ Stdio.d bpp
  else "0x" +:+ Stdio.X08 fcc.

(** ** Notions for the properties of the display, the parser and the pipeline *)

(** A character [isprint] accepts. *)
Definition printable (c : ascii) : Prop :=
  Stdio.isprint (Z.of_N (Ascii.N_of_ascii c)) = true.

(** What the info lines show between the brackets for a supported format
    name: 8-bit RGB has no four-character code and is shown with its bit
    count, the two-letter code of Y8 is shown with its padding. *)
Definition shown_as (format : string) : string :=
  if bool_decide (format ∈ ["RGB24"; "bgr24"]%string) then "RGB24"
  else if bool_decide (format ∈ ["RGB32"; "bgr32"]%string) then "RGB32"
  else if bool_decide (format = "Y8"%string) then "Y8  "
  else format.

(** The orchestrator [initArguments] returns for a command line, and
    what it printed; [ctor] if it throws. *)
Definition parsed (H : Host) (argv : list string) : CodecBench.t * list event :=
  match CodecBench.initArguments argv CodecBench.ctor [] with
  | (Ok cb, out) => (cb, out)
  | (Throw _, out) => (CodecBench.ctor, out)
  end.

(** A raw input of 4 x 2 YV12 frames. *)
Definition raw_argv : list string :=
  [ "codecbench"; "-rawin"; "-i"; "in.raw"; "-f"; "YV12"; "-w"; "4"; "-h"; "2" ]%string.

(** The bytes of a frame sequence in a raw stream: the frames, one after
    the other. *)
Definition raw_frames (frames : list (list byte * Z)) : list byte :=
  concat (map (fun f => take (Z.to_nat f.2) f.1) frames).


(** Two raw 2 x 1 Y8 frames, the second one in a larger buffer, the
    writer that [open] without a descriptor returns, and the reader
    [openRaw] returns on a file ([ctor] if they throw). *)
Definition y8_frames : list (list byte * Z) :=
  [ ([x01; x02], 2); ([x03; x04; x05], 2) ].

Definition raw_writer : VideoWriter.t :=
  match VideoWriter.open (Sample.disk "none" []) "out.raw" None VideoWriter.ctor with
  | Ok w => w
  | Throw _ => VideoWriter.ctor
  end.

Definition y8_reader_on (file : list byte) : VideoReader.t :=
  match VideoReader.openRaw (Sample.disk "in.raw" file) "in.raw" "Y8" 2 1
                            VideoReader.ctor with
  | Ok r => r
  | Throw _ => VideoReader.ctor
  end.

(** The decompressor after [init] on a fresh object, and what [init]
    printed; [ctor] if it throws. *)
Definition decoder (H : Host) (biIn : list byte) (biOut : option (list byte))
    (w h : Z) : Decompressor.t * list event :=
  match Decompressor.init biIn biOut w h Decompressor.ctor [] with
  | (Ok d, out) => (d, out)
  | (Throw _, out) => (Decompressor.ctor, out)
  end.

(** What [initInput] and [initOutput] leave alone of the orchestrator:
    the options read from the command line, [m_compress] apart. *)
Definition options `{Host} (this : CodecBench.t)
  : bool * bool * bool * option string * option string * option string
    * Z * Z * Z * Z :=
  (CodecBench.m_rawin this, CodecBench.m_rawout this, CodecBench.m_decompress this,
   CodecBench.m_infile this, CodecBench.m_outfile this,
   CodecBench.m_decompFormat this, CodecBench.m_decompWidth this,
   CodecBench.m_decompHeight this, CodecBench.m_framesToProcess this,
   CodecBench.m_loopCount this).

(** A decompressor that can be handed frames: the codec is located,
    decompression has begun, and the frame buffer has the size of a frame
    of the output format. *)
Definition decoder_ready `{Host} (d : Decompressor.t) : Prop :=
  is_Some (Decompressor.m_hic d) /\
  Decompressor.m_decompressing d = true /\
  Z.of_nat (length (Decompressor.frameData d))
    = Bih.sizeImage (Decompressor.getOutputFormat d).

(** A compressor that can be handed frames: a compressor was chosen and
    the compression sequence was started. *)
Definition encoder_ready `{Host} (c : Compressor.t) : Prop :=
  is_Some (Compressor.m_compvars c) /\ Compressor.m_compressing c = true.

(** The two stages as [run] needs them: a stage that is on is ready, the
    decompressor of a decode stage that is off is as constructed, and the
    compressor of an encode stage that is off has started no sequence. *)
Definition stages_prepared `{Host} (this : CodecBench.t) : Prop :=
  (CodecBench.m_decompress this = true -> decoder_ready (CodecBench.m_decompressor this)) /\
  (CodecBench.m_decompress this = false ->
   CodecBench.m_decompressor this = Decompressor.ctor) /\
  (CodecBench.m_compress this = true -> encoder_ready (CodecBench.m_compressor this)) /\
  (CodecBench.m_compress this = false ->
   Compressor.m_compressing (CodecBench.m_compressor this) = false).







(** * Facts about the object representation *)

Lemma Z_of_byte_range b : 0 <= Mem.Z_of_byte b < 256.
Proof.
  unfold Mem.Z_of_byte. pose proof (Byte.to_N_bounded b). lia.
Qed.

Lemma Z_of_byte_of_Z z : Mem.Z_of_byte (Mem.byte_of_Z z) = z mod 256.
Proof.
  unfold Mem.Z_of_byte, Mem.byte_of_Z.
  assert (Hr : 0 <= z mod 256 < 256) by (apply Z.mod_pos_bound; lia).
  destruct (Byte.of_N (Z.to_N (z mod 256))) as [b|] eqn:E.
  - apply Byte.to_of_N in E. simpl. rewrite E. lia.
  - apply Byte.of_N_None_iff in E. lia.
Qed.

Lemma byte_of_Z_of_byte b : Mem.byte_of_Z (Mem.Z_of_byte b) = b.
Proof.
  unfold Mem.byte_of_Z. pose proof (Z_of_byte_range b).
  rewrite Z.mod_small by lia. unfold Mem.Z_of_byte.
  rewrite N2Z.id, Byte.of_to_N. reflexivity.
Qed.

Lemma length_bytes_of n z : length (Mem.bytes_of n z) = n.
Proof. revert z. induction n; intros; simpl; auto. Qed.

Lemma unsigned_of_bytes_of n z :
  Mem.unsigned_of (Mem.bytes_of n z) = z mod 256 ^ Z.of_nat n.
Proof.
  revert z. induction n as [|n IH]; intros z.
  - simpl. rewrite Z.mod_1_r. reflexivity.
  - cbn [Mem.bytes_of Mem.unsigned_of]. rewrite IH, Z_of_byte_of_Z.
    rewrite Nat2Z.inj_succ, Z.pow_succ_r by lia.
    rewrite Z.rem_mul_r by lia. reflexivity.
Qed.

Lemma unsigned_of_range bs : 0 <= Mem.unsigned_of bs < 256 ^ Z.of_nat (length bs).
Proof.
  induction bs as [|b bs IH]; cbn [Mem.unsigned_of length].
  - simpl. lia.
  - rewrite Nat2Z.inj_succ, Z.pow_succ_r by lia.
    pose proof (Z_of_byte_range b). lia.
Qed.


(** * The resolver *)

Lemma strcmp_zero a b : (Resolver.strcmp a b =? 0) = bool_decide (a = b).
Proof.
  unfold Resolver.strcmp.
  destruct (String.compare a b) eqn:E.
  - apply String.compare_eq_iff in E. subst. rewrite bool_decide_eq_true_2; auto.
  - rewrite bool_decide_eq_false_2; auto. intros ->.
    pose proof (String.compare_antisym b b) as A. rewrite E in A. discriminate.
  - rewrite bool_decide_eq_false_2; auto. intros ->.
    pose proof (String.compare_antisym b b) as A. rewrite E in A. discriminate.
Qed.

Lemma s32_small z : - 2 ^ 31 <= z < 2 ^ 31 -> CInt.s32 z = z.
Proof. intros Hz. unfold CInt.s32. rewrite Z.mod_small; lia. Qed.

Lemma u32_small z : 0 <= z < 2 ^ 32 -> CInt.u32 z = z.
Proof. intros Hz. unfold CInt.u32. apply Z.mod_small; lia. Qed.


Lemma mod_wrap_once z M : 0 <= z + M < M -> z mod M = z + M.
Proof.
  intros Hz. symmetry. apply (Z.mod_unique_pos z M (-1)); lia.
Qed.

Lemma mod_unwrap_once z M : 0 <= z - M < M -> z mod M = z - M.
Proof.
  intros Hz. symmetry. apply (Z.mod_unique_pos z M 1); lia.
Qed.

Lemma s32_add_multiple z c : CInt.s32 (z + c * 2 ^ 32) = CInt.s32 z.
Proof.
  unfold CInt.s32. replace (z + c * 2 ^ 32 + 2 ^ 31) with (z + 2 ^ 31 + c * 2 ^ 32) by lia.
  rewrite Z.mod_add by lia. reflexivity.
Qed.

(** Whatever the width of [uintptr_t], [align_to<4>] on a [LONG] is the
    rounding up to a multiple of four, on 32 bits. *)
Lemma align_to_on_spec P v :
  32 <= P -> - 2 ^ 31 <= v < 2 ^ 31 ->
  Resolver.align_to_on P 4 v = CInt.s32 (align4 v).
Proof.
  intros HP Hv. unfold Resolver.align_to_on, align4.
  assert (HM : 2 ^ P = 2 ^ (P - 32) * 2 ^ 32).
  { rewrite <- Z.pow_add_r by lia. f_equal. lia. }
  assert (Hc : 0 < 2 ^ (P - 32)) by (apply Z.pow_pos_nonneg; lia).
  set (c := 2 ^ (P - 32)) in *. set (M := 2 ^ P) in *.
  assert (HM4 : M = (c * 2 ^ 30) * 4) by (rewrite HM; lia).
  pose proof (Z.div_mod (v + 3) 4 ltac:(lia)) as Hd.
  pose proof (Z.mod_pos_bound (v + 3) 4 ltac:(lia)) as Hm.
  destruct (Z_le_gt_dec 0 v) as [Hpos|Hneg].
  - rewrite (Z.mod_small v) by lia.
    rewrite (Z.mod_small (v + 4)) by lia.
    replace (v + 4 - 1) with (v + 3) by lia.
    rewrite (Z.mod_small (v + 3)) by lia.
    rewrite (Z.mod_small ((v + 3) / 4 * 4)) by lia. reflexivity.
  - rewrite (mod_wrap_once v) by lia.
    destruct (Z_lt_ge_dec v (-4)) as [Hfar|Hnear].
    + rewrite (Z.mod_small (v + M + 4)) by lia.
      replace (v + M + 4 - 1) with (v + 3 + M) by lia.
      rewrite (Z.mod_small (v + 3 + M)) by lia.
      rewrite HM4 at 1. rewrite Z.div_add by lia.
      rewrite Z.mul_add_distr_r, <- HM4.
      rewrite (Z.mod_small ((v + 3) / 4 * 4 + M)) by lia.
      rewrite HM. apply s32_add_multiple.
    + rewrite (mod_unwrap_once (v + M + 4)) by lia.
      replace (v + M + 4 - M - 1) with (v + 3) by lia.
      assert (Hcases : v = -4 \/ v = -3 \/ v = -2 \/ v = -1) by lia.
      destruct Hcases as [ -> | [ -> | [ -> | -> ] ] ].
      * rewrite (mod_wrap_once (-4 + 3)) by lia.
        replace (-4 + 3 + M) with (3 + (c * 2 ^ 30 - 1) * 4) by lia.
        rewrite Z.div_add by lia. change (3 / 4) with 0.
        rewrite (Z.mod_small ((0 + (c * 2 ^ 30 - 1)) * 4)) by lia.
        replace ((0 + (c * 2 ^ 30 - 1)) * 4) with (-4 + c * 2 ^ 32) by lia.
        rewrite s32_add_multiple. reflexivity.
      * replace ((-3 + 3) mod M) with (-3 + 3) by (rewrite Z.mod_small; lia).
        replace ((-3 + 3) / 4 * 4) with 0 by reflexivity.
        rewrite Z.mod_0_l by lia. reflexivity.
      * replace ((-2 + 3) mod M) with (-2 + 3) by (rewrite Z.mod_small; lia).
        replace ((-2 + 3) / 4 * 4) with 0 by reflexivity.
        rewrite Z.mod_0_l by lia. reflexivity.
      * replace ((-1 + 3) mod M) with (-1 + 3) by (rewrite Z.mod_small; lia).
        replace ((-1 + 3) / 4 * 4) with 0 by reflexivity.
        rewrite Z.mod_0_l by lia. reflexivity.
Qed.

Lemma align_to_spec v :
  - 2 ^ 31 <= v < 2 ^ 31 -> Resolver.align_to 4 v = CInt.s32 (align4 v).
Proof.
  intros Hv. unfold Resolver.align_to, Resolver.uintptr_bits.
  apply align_to_on_spec; lia.
Qed.

(** The 32-bit build computes the same alignment as the 64-bit one. *)
Lemma align_to_on_32_64 v :
  - 2 ^ 31 <= v < 2 ^ 31 ->
  Resolver.align_to_on 32 4 v = Resolver.align_to_on 64 4 v.
Proof.
  intros Hv. rewrite !align_to_on_spec by lia. reflexivity.
Qed.

Lemma GetDecompFormat_unsupported format width height :
  format ∉ supported ->
  Resolver.GetDecompFormat format width height
    = Throw ("Invalid requested decompressed format: " +:+ format).
Proof.
  intros Hn. unfold Resolver.GetDecompFormat. rewrite !strcmp_zero.
  repeat (case_bool_decide;
          [ exfalso; apply Hn; subst format; unfold supported; set_solver | ]).
  reflexivity.
Qed.

Lemma GetDecompFormat_supported format width height :
  format ∈ supported ->
  exists bi, Resolver.GetDecompFormat format width height = Ok bi.
Proof.
  intros Hin. unfold Resolver.GetDecompFormat. rewrite !strcmp_zero.
  repeat (case_bool_decide; [ simpl; eauto | ]); simpl; eauto.
  exfalso. unfold supported in Hin.
  repeat (apply elem_of_cons in Hin; destruct Hin as [Hin|Hin]; [congruence|]).
  by apply elem_of_nil in Hin.
Qed.

(** C8. A format name outside the enumerated set makes [GetDecompFormat]
    throw its invalid-format error, and [openRaw] lets that exception
    through before it touches the file; a name in the set resolves. *)
Theorem unsupported_format_fails
    (fs : filesystem) (infile format : string) (width height : Z)
    (this : VideoReader.t) :
  (format ∈ supported ->
   exists bi, Resolver.GetDecompFormat format width height = Ok bi) /\
  (format ∉ supported ->
   Resolver.GetDecompFormat format width height
     = Throw ("Invalid requested decompressed format: " +:+ format) /\
   VideoReader.openRaw fs infile format width height this
     = Throw ("Invalid requested decompressed format: " +:+ format)).
Proof.
  split.
  - apply GetDecompFormat_supported.
  - intros Hn. split.
    + apply GetDecompFormat_unsupported, Hn.
    + unfold VideoReader.openRaw.
      rewrite (GetDecompFormat_unsupported _ _ _ Hn). reflexivity.
Qed.












(** The scenario of the raw input: RGB24, width 4, height 2. *)
Example rgb24_4x2 :
  exists bi, Resolver.GetDecompFormat "RGB24" 4 2 = Ok bi /\ biSizeImage bi = 24.
Proof. eexists. split; reflexivity. Qed.


(** * The streams *)

Lemma length_slice off n (v : list byte) :
  (off + n <= length v)%nat -> length (Mem.slice off n v) = n.
Proof.
  intros H. unfold Mem.slice. rewrite length_take, length_drop. lia.
Qed.

Lemma take_blit (bs buf : list byte) :
  take (length bs) (Mem.blit bs buf) = bs.
Proof. unfold Mem.blit. rewrite take_app_length. reflexivity. Qed.

Lemma length_blit (bs buf : list byte) :
  length (Mem.blit bs buf) = (length bs `max` length buf)%nat.
Proof. unfold Mem.blit. rewrite length_app, length_drop. lia. Qed.

Lemma blit_full (bs buf : list byte) :
  (length buf <= length bs)%nat -> Mem.blit bs buf = bs.
Proof.
  intros H. unfold Mem.blit. rewrite drop_ge by lia. apply app_nil_r.
Qed.

Lemma length_resize n (v : list byte) :
  0 <= n -> length (Mem.resize n v) = Z.to_nat n.
Proof.
  intros Hn. unfold Mem.resize. destruct (n <=? Z.of_nat (length v)) eqn:E.
  - apply Z.leb_le in E. rewrite length_take. lia.
  - apply Z.leb_gt in E. rewrite length_app, length_replicate. lia.
Qed.

Lemma read_good n s :
  IStream.good s = true -> 0 <= n <= IStream.avail s ->
  IStream.read n s =
    (Mem.slice (N.to_nat (IStream.gpos s)) (Z.to_nat n) (IStream.content s),
     {| IStream.content := IStream.content s;
        IStream.gpos := IStream.gpos s + Z.to_N n;
        IStream.eofbit := false; IStream.failbit := false |}).
Proof.
  intros Hg Hn. unfold IStream.read. rewrite Hg.
  rewrite Z.min_l by lia. rewrite Z.max_r by lia.
  rewrite Z.ltb_irrefl. f_equal.
  destruct (n =? 0) eqn:E; [|reflexivity].
  apply Z.eqb_eq in E. subst n. reflexivity.
Qed.

Lemma length_read_good n s :
  0 <= n <= IStream.avail s ->
  length (Mem.slice (N.to_nat (IStream.gpos s)) (Z.to_nat n) (IStream.content s))
    = Z.to_nat n.
Proof.
  intros Hn. unfold IStream.avail in Hn.
  destruct (Z.eq_dec n 0) as [->|Hne].
  - unfold Mem.slice. rewrite take_0. reflexivity.
  - apply length_slice. lia.
Qed.

Lemma read_short n s :
  IStream.good s = true -> IStream.avail s < n ->
  IStream.eofbit (IStream.read n s).2 = true /\
  IStream.failbit (IStream.read n s).2 = true /\
  IStream.content (IStream.read n s).2 = IStream.content s /\
  (length (IStream.read n s).1 < Z.to_nat n)%nat.
Proof.
  intros Hg Hn. unfold IStream.read. rewrite Hg. cbn [snd fst IStream.eofbit IStream.failbit IStream.content].
  assert (Ha : 0 <= IStream.avail s) by (unfold IStream.avail; lia).
  rewrite Z.min_r by lia. rewrite Z.max_r by lia.
  assert (E : (IStream.avail s <? n) = true) by (apply Z.ltb_lt; lia).
  rewrite E. repeat split.
  destruct (IStream.avail s =? 0) eqn:E0.
  - simpl. lia.
  - rewrite length_take. lia.
Qed.

Lemma read_bad n s :
  IStream.good s = false ->
  IStream.read n s =
    ([], {| IStream.content := IStream.content s; IStream.gpos := IStream.gpos s;
            IStream.eofbit := IStream.eofbit s; IStream.failbit := true |}).
Proof. intros Hg. unfold IStream.read. rewrite Hg. reflexivity. Qed.

Lemma readVar_good j s :
  IStream.good s = true -> 4 <= IStream.avail s ->
  readVar 4 j s =
    (Mem.unsigned_of (Mem.slice (N.to_nat (IStream.gpos s)) 4 (IStream.content s)),
     {| IStream.content := IStream.content s;
        IStream.gpos := IStream.gpos s + 4;
        IStream.eofbit := false; IStream.failbit := false |}).
Proof.
  intros Hg Ha. unfold readVar.
  rewrite read_good by (auto; simpl; lia).
  change (Z.to_nat (Z.of_nat 4)) with 4%nat. change (Z.to_N (Z.of_nat 4)) with 4%N.
  f_equal. f_equal. apply blit_full.
  rewrite length_bytes_of.
  pose proof (length_read_good 4 s ltac:(lia)) as L.
  change (Z.to_nat 4) with 4%nat in L. rewrite L. lia.
Qed.

(** A [readVar] that finds fewer than four bytes leaves the stream failed. *)
Lemma readVar_short j s :
  IStream.good s = false \/ IStream.avail s < 4 ->
  IStream.good (readVar 4 j s).2 = false /\
  IStream.failbit (readVar 4 j s).2 = true /\
  IStream.content (readVar 4 j s).2 = IStream.content s.
Proof.
  intros H. unfold readVar.
  destruct (IStream.read (Z.of_nat 4) s) as [bs s'] eqn:E. cbn [snd].
  destruct (IStream.good s) eqn:Hg.
  - destruct H as [H|H]; [discriminate|].
    destruct (read_short (Z.of_nat 4) s Hg ltac:(simpl; lia)) as (He & Hf & Hc & _).
    rewrite E in He, Hf, Hc. cbn [snd] in *.
    unfold IStream.good. rewrite He, Hf. auto.
  - rewrite read_bad in E by auto. injection E as <- <-.
    unfold IStream.good. cbn. rewrite andb_false_r. auto.
Qed.

(** * readFrame *)

Lemma next_size_nonneg r : 0 <= next_size r.
Proof.
  unfold next_size, Bih.sizeImage, Bih.load_u32.
  destruct (VideoReader.m_raw r); apply unsigned_of_range.
Qed.

Lemma good_not_eof s : IStream.good s = true -> IStream.eof s = false.
Proof.
  unfold IStream.good, IStream.eof. destruct (IStream.eofbit s); auto.
Qed.

Lemma take_into_buffer (bs buf : list byte) n :
  length bs = n -> take n (Mem.blit bs buf) = bs.
Proof. intros <-. apply take_blit. Qed.

(** With a complete frame ahead, [readFrame] returns it, whatever the
    junk and the buffer. *)
Lemma readFrame_ahead j r :
  frame_ahead r = true ->
  let r' := (VideoReader.readFrame j r).2 in
  (VideoReader.readFrame j r).1 = true /\
  VideoReader.frameSize r' = next_size r /\
  VideoReader.frame r' =
    Mem.slice (N.to_nat (next_off r)) (Z.to_nat (next_size r))
              (IStream.content (VideoReader.m_inFile r)) /\
  length (VideoReader.frame r') = Z.to_nat (next_size r) /\
  VideoReader.m_inFile r' =
    {| IStream.content := IStream.content (VideoReader.m_inFile r);
       IStream.gpos := next_off r + Z.to_N (next_size r);
       IStream.eofbit := false; IStream.failbit := false |}.
Proof.
  intros Ha. pose proof (next_size_nonneg r) as Hs.
  unfold frame_ahead in Ha. apply andb_true_iff in Ha as [Hg Ha].
  unfold VideoReader.readFrame, next_off.
  rewrite (good_not_eof _ Hg).
  unfold next_size in *.
  destruct (VideoReader.m_raw r) eqn:Hraw.
  - apply Z.leb_le in Ha.
    rewrite read_good by auto.
    unfold VideoReader.frame, VideoReader.frameSize, VideoReader.frameData,
      IStream.fail.
    cbn [fst snd IStream.failbit negb VideoReader.m_frameSize
         VideoReader.m_frameBuf VideoReader.m_inFile].
    pose proof (length_read_good _ (VideoReader.m_inFile r) (conj Hs Ha)) as L.
    rewrite take_into_buffer by exact L.
    repeat split; auto.
  - apply andb_true_iff in Ha as [H4 Ha]. apply Z.leb_le in H4, Ha.
    rewrite readVar_good by auto.
    set (s1 := {| IStream.content := _; IStream.gpos := _ + 4 |}).
    assert (Hg1 : IStream.good s1 = true) by reflexivity.
    assert (Ha1 : IStream.avail s1 = IStream.avail (VideoReader.m_inFile r) - 4).
    { unfold IStream.avail in *. subst s1. cbn [IStream.content IStream.gpos]. lia. }
    rewrite read_good by (auto; lia).
    unfold VideoReader.frame, VideoReader.frameSize, VideoReader.frameData,
      IStream.fail.
    cbn [fst snd IStream.failbit negb VideoReader.m_frameSize
         VideoReader.m_frameBuf VideoReader.m_inFile].
    match goal with |- context [Mem.slice ?o ?n ?c] =>
      assert (L : length (Mem.slice (N.to_nat (IStream.gpos s1)) n (IStream.content s1)) = n)
        by (apply length_read_good; lia) end.
    rewrite take_into_buffer by exact L.
    repeat split; auto.
Qed.

(** Without one, it returns [false]. *)
Lemma readFrame_not_ahead j r :
  frame_ahead r = false -> (VideoReader.readFrame j r).1 = false.
Proof.
  intros Ha. pose proof (next_size_nonneg r) as Hs.
  unfold frame_ahead in Ha. unfold VideoReader.readFrame.
  destruct (IStream.eof (VideoReader.m_inFile r)) eqn:He; [reflexivity|].
  unfold next_size in *.
  destruct (IStream.good (VideoReader.m_inFile r)) eqn:Hg.
  - cbn [andb] in Ha.
    destruct (VideoReader.m_raw r) eqn:Hraw.
    + apply Z.leb_gt in Ha.
      destruct (IStream.read _ _) as [bs s2] eqn:E. cbn [fst].
      destruct (read_short _ _ Hg Ha) as (_ & Hf & _). rewrite E in Hf.
      unfold IStream.fail. cbn [snd] in Hf. rewrite Hf. reflexivity.
    + destruct (4 <=? IStream.avail (VideoReader.m_inFile r)) eqn:H4.
      * apply Z.leb_le in H4. cbn [andb] in Ha. apply Z.leb_gt in Ha.
        rewrite readVar_good by auto.
        set (s1 := {| IStream.content := _; IStream.gpos := _ + 4 |}).
        assert (Hg1 : IStream.good s1 = true) by reflexivity.
        assert (Ha1 : IStream.avail s1 = IStream.avail (VideoReader.m_inFile r) - 4).
        { unfold IStream.avail in *. subst s1. cbn [IStream.content IStream.gpos]. lia. }
        match goal with |- context [IStream.read ?n s1] =>
          destruct (read_short n s1 Hg1 ltac:(lia)) as (_ & Hf & _);
          destruct (IStream.read n s1) as [bs s2] end.
        unfold IStream.fail. cbn [fst snd] in *. rewrite Hf. reflexivity.
      * apply Z.leb_gt in H4.
        destruct (readVar_short j (VideoReader.m_inFile r) (or_intror H4)) as (Hb & _).
        destruct (readVar 4 j _) as [size s1]. cbn [snd] in Hb.
        rewrite read_bad by auto. reflexivity.
  - destruct (VideoReader.m_raw r) eqn:Hraw.
    + rewrite read_bad by auto. reflexivity.
    + destruct (readVar_short j (VideoReader.m_inFile r) (or_introl Hg)) as (Hb & _).
      destruct (readVar 4 j _) as [size s1]. cbn [snd] in Hb.
      rewrite read_bad by auto. reflexivity.
Qed.

Lemma read_content n s : IStream.content (IStream.read n s).2 = IStream.content s.
Proof. unfold IStream.read. destruct (IStream.good s); reflexivity. Qed.

Lemma readVar_content j s : IStream.content (readVar 4 j s).2 = IStream.content s.
Proof.
  unfold readVar. pose proof (read_content (Z.of_nat 4) s) as H.
  destruct (IStream.read _ s). exact H.
Qed.

(** [readFrame] touches neither the file nor the header data. *)
Lemma readFrame_preserves j r :
  let r' := (VideoReader.readFrame j r).2 in
  IStream.content (VideoReader.m_inFile r') = IStream.content (VideoReader.m_inFile r) /\
  VideoReader.m_raw r' = VideoReader.m_raw r /\
  VideoReader.m_biFormat r' = VideoReader.m_biFormat r /\
  VideoReader.m_headerSize r' = VideoReader.m_headerSize r.
Proof.
  unfold VideoReader.readFrame.
  destruct (IStream.eof _); [cbn; auto|].
  destruct (VideoReader.m_raw r) eqn:Hraw.
  - pose proof (read_content (Bih.sizeImage (VideoReader.getFormat r)) (VideoReader.m_inFile r)) as Hc.
    destruct (IStream.read _ _) as [bs s2]. cbn in *. auto.
  - pose proof (readVar_content j (VideoReader.m_inFile r)) as Hc1.
    destruct (readVar 4 j _) as [size s1].
    pose proof (read_content size s1) as Hc.
    destruct (IStream.read _ _) as [bs s2]. cbn in *.
    rewrite Hc, Hc1. auto.
Qed.

(** * The container round trip *)

Lemma slice_middle (pre x rest : list byte) n :
  length x = n -> Mem.slice (length pre) n (pre ++ x ++ rest) = x.
Proof.
  intros <-. unfold Mem.slice. rewrite drop_app_length, take_app_length. reflexivity.
Qed.

Lemma u32_of_bytes_of v :
  0 <= v < 2 ^ 32 -> Mem.unsigned_of (Mem.bytes_of 4 v) = v.
Proof.
  intros Hv. rewrite unsigned_of_bytes_of. apply Z.mod_small.
  change (256 ^ Z.of_nat 4) with (2 ^ 32). lia.
Qed.

Lemma size_range p : 0 <= Bih.size p < 2 ^ 32.
Proof.
  unfold Bih.size, Bih.load_u32.
  pose proof (unsigned_of_range (Mem.slice 0 4 p)) as H.
  assert (L : (length (Mem.slice 0 4 p) <= 4)%nat).
  { unfold Mem.slice. rewrite length_take. lia. }
  assert (256 ^ Z.of_nat (length (Mem.slice 0 4 p)) <= 2 ^ 32).
  { change (2 ^ 32) with (256 ^ 4). apply Z.pow_le_mono_r; lia. }
  lia.
Qed.

Lemma writer_open_container fs outfile p w0 :
  creatable fs outfile = true ->
  VideoWriter.open fs outfile (Some p) w0 =
    Ok {| VideoWriter.m_outFile :=
            {| OStream.written :=
                 Mem.bytes_of 4 MAGIC ++ Mem.bytes_of 4 (Bih.size p)
                 ++ take (Z.to_nat (Bih.size p)) p;
               OStream.failbit := false |};
          VideoWriter.m_raw := false |}.
Proof.
  intros Hc. unfold VideoWriter.open, OStream.open. rewrite Hc.
  cbn [negb OStream.failbit]. unfold writeVar, OStream.write.
  cbn [OStream.failbit OStream.written]. rewrite app_nil_l, <- app_assoc.
  reflexivity.
Qed.

Lemma writer_open_inv fs outfile p w0 w1 :
  VideoWriter.open fs outfile (Some p) w0 = Ok w1 ->
  creatable fs outfile = true.
Proof.
  unfold VideoWriter.open, OStream.open. cbn [OStream.failbit].
  destruct (creatable fs outfile); [auto | discriminate].
Qed.

Lemma writeFrames_container frames w :
  VideoWriter.m_raw w = false ->
  OStream.failbit (VideoWriter.m_outFile w) = false ->
  OStream.written (VideoWriter.m_outFile (writeFrames frames w))
    = OStream.written (VideoWriter.m_outFile w) ++ container_frames frames.
Proof.
  revert w. induction frames as [|f frames IH]; intros w Hraw Hf.
  - unfold container_frames. simpl. rewrite app_nil_r. reflexivity.
  - unfold writeFrames in *. cbn [foldl]. rewrite IH.
    + unfold VideoWriter.writeFrame. rewrite Hraw. cbn [negb].
      unfold writeVar, OStream.write. rewrite Hf.
      cbn [OStream.failbit OStream.written VideoWriter.m_outFile].
      unfold container_frames. cbn [map concat].
      rewrite <- !app_assoc. reflexivity.
    + unfold VideoWriter.writeFrame. rewrite Hraw. reflexivity.
    + unfold VideoWriter.writeFrame. rewrite Hraw. cbn [negb].
      unfold writeVar, OStream.write. rewrite Hf. reflexivity.
Qed.

(** Opening a file that starts with a complete header. *)
Lemma open_container fs infile jm js r0 n blk rest :
  files fs !! infile
    = Some (Mem.bytes_of 4 MAGIC ++ Mem.bytes_of 4 n ++ blk ++ rest) ->
  0 <= n < 2 ^ 32 -> Z.of_nat (length blk) = n ->
  exists r,
    VideoReader.open fs infile jm js r0 = Ok r /\
    VideoReader.getFormat r = blk /\
    VideoReader.m_raw r = false /\
    VideoReader.m_headerSize r = CInt.u32 (8 + n) /\
    VideoReader.m_inFile r =
      {| IStream.content := Mem.bytes_of 4 MAGIC ++ Mem.bytes_of 4 n ++ blk ++ rest;
         IStream.gpos := Z.to_N (8 + n);
         IStream.eofbit := false; IStream.failbit := false |}.
Proof.
  intros Hfile Hn Hlen.
  set (file := Mem.bytes_of 4 MAGIC ++ Mem.bytes_of 4 n ++ blk ++ rest) in *.
  assert (Hfl : Z.of_nat (length file) = 8 + n + Z.of_nat (length rest)).
  { subst file. rewrite !length_app, !length_bytes_of. lia. }
  unfold VideoReader.open, IStream.open. rewrite Hfile.
  cbn [IStream.fail IStream.failbit].
  set (s0 := {| IStream.content := file; IStream.gpos := 0 |}).
  rewrite (readVar_good jm s0) by (auto; unfold IStream.avail; cbn [IStream.content IStream.gpos s0]; lia).
  cbn [IStream.gpos IStream.content s0].
  assert (E1 : Mem.slice (N.to_nat 0) 4 file = Mem.bytes_of 4 MAGIC).
  { subst file. apply (slice_middle [] (Mem.bytes_of 4 MAGIC)). apply length_bytes_of. }
  rewrite E1, u32_of_bytes_of by (unfold MAGIC; lia).
  rewrite Z.eqb_refl. cbn [negb].
  set (s1 := {| IStream.content := file; IStream.gpos := 0 + 4 |}).
  rewrite (readVar_good js s1) by (auto; unfold IStream.avail; cbn [IStream.content IStream.gpos s1]; lia).
  cbn [IStream.gpos IStream.content s1].
  assert (E2 : Mem.slice (N.to_nat (0 + 4)) 4 file = Mem.bytes_of 4 n).
  { subst file. change (N.to_nat (0 + 4)) with (length (Mem.bytes_of 4 MAGIC)).
    apply slice_middle. apply length_bytes_of. }
  rewrite E2, u32_of_bytes_of by lia.
  set (s2 := {| IStream.content := file; IStream.gpos := 0 + 4 + 4 |}).
  rewrite (read_good n s2) by (auto; unfold IStream.avail; cbn [IStream.content IStream.gpos s2]; lia).
  cbn [IStream.gpos IStream.content s2].
  assert (E3 : Mem.slice (N.to_nat (0 + 4 + 4)) (Z.to_nat n) file = blk).
  { subst file. rewrite (app_assoc (Mem.bytes_of 4 MAGIC)).
    replace (N.to_nat (0 + 4 + 4)) with (length (Mem.bytes_of 4 MAGIC ++ Mem.bytes_of 4 n))
      by (rewrite length_app, !length_bytes_of; reflexivity).
    apply slice_middle. lia. }
  rewrite E3. eexists. split; [reflexivity|].
  unfold VideoReader.getFormat, BitmapInfoHeader.ptr.
  cbn [VideoReader.m_biFormat VideoReader.m_raw VideoReader.m_headerSize VideoReader.m_inFile].
  repeat split.
  - apply blit_full. unfold BitmapInfoHeader.resize.
    rewrite length_resize by lia. lia.
  - f_equal. lia.
Qed.

Lemma reads_back frames : forall junks r pre post,
  VideoReader.m_raw r = false ->
  VideoReader.m_inFile r =
    {| IStream.content := pre ++ container_frames frames ++ post;
       IStream.gpos := N.of_nat (length pre);
       IStream.eofbit := false; IStream.failbit := false |} ->
  Forall frame_ok frames -> length junks = length frames ->
  (readFrames junks r).1
    = map (fun f => (true, f.2, take (Z.to_nat f.2) f.1)) frames.
Proof.
  induction frames as [|[data sz] frames IH]; intros junks r pre post Hraw Hs Hok Hlen.
  - destruct junks; [reflexivity | discriminate].
  - destruct junks as [|j junks]; [discriminate|].
    apply Forall_cons in Hok as [[Hsz Hdata] Hok]. cbn [fst snd] in *.
    set (x := take (Z.to_nat sz) data).
    assert (Lx : length x = Z.to_nat sz) by (subst x; rewrite length_take; lia).
    assert (Hc : IStream.content (VideoReader.m_inFile r)
                 = pre ++ Mem.bytes_of 4 sz ++ x ++ container_frames frames ++ post).
    { rewrite Hs. cbn [IStream.content]. unfold container_frames at 1.
      cbn [map concat fst snd]. fold (container_frames frames).
      rewrite <- !app_assoc. reflexivity. }
    assert (Hp : IStream.gpos (VideoReader.m_inFile r) = N.of_nat (length pre))
      by (rewrite Hs; reflexivity).
    assert (Hsize : next_size r = sz).
    { unfold next_size. rewrite Hraw, Hp, Hc, Nat2N.id.
      rewrite slice_middle by apply length_bytes_of. apply u32_of_bytes_of; lia. }
    assert (Hav : IStream.avail (VideoReader.m_inFile r)
                  = 4 + sz + Z.of_nat (length (container_frames frames ++ post))).
    { unfold IStream.avail. rewrite Hp, Hc, !length_app, length_bytes_of. lia. }
    assert (Hah : frame_ahead r = true).
    { unfold frame_ahead. rewrite Hraw, Hsize, Hav.
      replace (IStream.good (VideoReader.m_inFile r)) with true by (rewrite Hs; reflexivity).
      cbn [andb]. apply andb_true_iff. split; apply Z.leb_le; lia. }
    destruct (readFrame_ahead j r Hah) as (Hmore & Hfs & Hfr & _ & Hin).
    destruct (readFrame_preserves j r) as (_ & Hraw' & _).
    cbn [readFrames]. destruct (VideoReader.readFrame j r) as [more r1].
    cbn [fst snd] in *. subst more.
    specialize (IH junks r1 (pre ++ Mem.bytes_of 4 sz ++ x) post).
    destruct (readFrames junks r1) as [l r2]. cbn [fst snd map] in *.
    f_equal.
    + rewrite Hfs, Hfr, Hsize. repeat f_equal.
      unfold next_off. rewrite Hraw, Hp, Hc.
      replace (N.to_nat (N.of_nat (length pre) + 4))
        with (length (pre ++ Mem.bytes_of 4 sz))
        by (rewrite length_app, length_bytes_of; lia).
      rewrite (app_assoc pre). apply slice_middle. exact Lx.
    + apply IH.
      * congruence.
      * rewrite Hin, Hc, Hsize. unfold next_off. rewrite Hraw, Hp.
        f_equal.
        -- rewrite <- !app_assoc. reflexivity.
        -- rewrite !length_app, length_bytes_of. lia.
      * exact Hok.
      * simpl in Hlen. lia.
Qed.

(** C1. Frames written through the writer in container mode come back
    from the reader: [open] succeeds and holds the descriptor's bytes, and
    [readFrame], called once per frame, returns [true] each time with the
    frame's size and bytes. *)
Theorem container_round_trip
    (fs fs' : filesystem) (outfile infile : string)
    (descriptor : list byte) (frames : list (list byte * Z))
    (w0 w1 : VideoWriter.t) (r0 : VideoReader.t)
    (junk_magic junk_size : Z) (junks : list Z) :
  descriptor_ok descriptor ->
  Forall frame_ok frames ->
  VideoWriter.open fs outfile (Some descriptor) w0 = Ok w1 ->
  files fs' !! infile
    = Some (OStream.written (VideoWriter.m_outFile (writeFrames frames w1))) ->
  length junks = length frames ->
  exists r1,
    VideoReader.open fs' infile junk_magic junk_size r0 = Ok r1 /\
    VideoReader.getFormat r1 = take (Z.to_nat (Bih.size descriptor)) descriptor /\
    (readFrames junks r1).1
      = map (fun f => (true, f.2, take (Z.to_nat f.2) f.1)) frames.
Proof.
  intros Hd Hok Hopen Hfile Hlen.
  pose proof (writer_open_inv _ _ _ _ _ Hopen) as Hc.
  rewrite (writer_open_container _ _ _ _ Hc) in Hopen.
  assert (Hw : Ok w1 = Ok w1) by reflexivity.
  rewrite <- Hopen in Hw at 1. clear Hopen.
  assert (Hraw1 : VideoWriter.m_raw w1 = false)
    by (injection Hw as <-; reflexivity).
  assert (Hwr : VideoWriter.m_outFile w1 =
                {| OStream.written :=
                     Mem.bytes_of 4 MAGIC ++ Mem.bytes_of 4 (Bih.size descriptor)
                     ++ take (Z.to_nat (Bih.size descriptor)) descriptor;
                   OStream.failbit := false |})
    by (injection Hw as <-; reflexivity).
  rewrite writeFrames_container in Hfile by (auto; rewrite Hwr; reflexivity).
  rewrite Hwr in Hfile. cbn [OStream.written] in Hfile.
  rewrite <- !app_assoc in Hfile.
  pose proof (size_range descriptor) as Hr.
  set (blk := take (Z.to_nat (Bih.size descriptor)) descriptor) in *.
  assert (Lb : Z.of_nat (length blk) = Bih.size descriptor).
  { subst blk. unfold descriptor_ok in Hd. rewrite length_take. lia. }
  destruct (open_container fs' infile junk_magic junk_size r0 _ _ _ Hfile Hr Lb)
    as (r1 & Ho & Hf & Hraw & _ & Hs).
  exists r1. repeat split; auto.
  apply (reads_back frames junks r1
           (Mem.bytes_of 4 MAGIC ++ Mem.bytes_of 4 (Bih.size descriptor) ++ blk) []);
    auto.
  rewrite Hs. f_equal.
  - rewrite app_nil_r, <- !app_assoc. reflexivity.
  - rewrite !length_app, !length_bytes_of. lia.
Qed.

Lemma container_round_trip_witness :
  (descriptor_ok (Bih.bytes Sample.format) /\
   Forall frame_ok Sample.frames /\
   VideoWriter.open (Sample.disk "none" []) "out.cb"
     (Some (Bih.bytes Sample.format)) VideoWriter.ctor = Ok Sample.writer /\
   files (Sample.disk "in.cb" Sample.written) !! "in.cb"%string
     = Some (OStream.written
               (VideoWriter.m_outFile (writeFrames Sample.frames Sample.writer))) /\
   length [7; 8; 9] = length Sample.frames) /\
  exists r1,
    VideoReader.open (Sample.disk "in.cb" Sample.written) "in.cb" 0 0
                     VideoReader.ctor = Ok r1 /\
    VideoReader.getFormat r1
      = take (Z.to_nat (Bih.size (Bih.bytes Sample.format))) (Bih.bytes Sample.format) /\
    (readFrames [7; 8; 9] r1).1
      = map (fun f => (true, f.2, take (Z.to_nat f.2) f.1)) Sample.frames.
Proof.
  assert (H1 : descriptor_ok (Bih.bytes Sample.format))
    by (unfold descriptor_ok; vm_compute; discriminate).
  assert (H2 : Forall frame_ok Sample.frames).
  { unfold Sample.frames.
    repeat (apply Forall_cons_2; [ unfold frame_ok; simpl; lia | ]).
    apply Forall_nil_2. }
  assert (H3 : VideoWriter.open (Sample.disk "none" []) "out.cb"
                 (Some (Bih.bytes Sample.format)) VideoWriter.ctor = Ok Sample.writer)
    by reflexivity.
  assert (H4 : files (Sample.disk "in.cb" Sample.written) !! "in.cb"%string
               = Some (OStream.written
                         (VideoWriter.m_outFile (writeFrames Sample.frames Sample.writer))))
    by (vm_compute; reflexivity).
  assert (H5 : length [7; 8; 9] = length Sample.frames) by reflexivity.
  split; [ tauto | ].
  exact (container_round_trip (Sample.disk "none" []) (Sample.disk "in.cb" Sample.written)
           "out.cb" "in.cb" (Bih.bytes Sample.format) Sample.frames
           VideoWriter.ctor Sample.writer VideoReader.ctor 0 0 [7; 8; 9]
           H1 H2 H3 H4 H5).
Defined.

(** * End of stream *)

(** With a complete frame ahead [readFrame] returns it. *)
Lemma complete_frame_is_returned (junk : Z) (r : VideoReader.t) :
  frame_ahead r = true ->
  returned (VideoReader.readFrame junk r)
    = Some (Mem.slice (N.to_nat (next_off r)) (Z.to_nat (next_size r))
                      (IStream.content (VideoReader.m_inFile r))).
Proof.
  intros H. destruct (readFrame_ahead junk r H) as (Hm & _ & Hf & _).
  unfold returned. rewrite Hm, Hf. reflexivity.
Qed.



(** The scenario: the header is read, the format block declares
    [biSizeImage = 100], and the frame of declared size 100 with 50 bytes
    left is the end of the stream. *)
Example truncated_scenario :
  VideoReader.open (Sample.disk "in.cb" Sample.truncated) "in.cb" 0 0 VideoReader.ctor
    = Ok (Sample.reader_on Sample.truncated) /\
  Bih.sizeImage (VideoReader.getFormat (Sample.reader_on Sample.truncated)) = 100 /\
  next_size (Sample.reader_on Sample.truncated) = 100 /\
  (VideoReader.readFrame 0 (Sample.reader_on Sample.truncated)).1 = false.
Proof. vm_compute. auto. Qed.

(** * The length prefix at the end of the file *)

Lemma readVar_at_end junk s :
  IStream.good s = true -> IStream.avail s = 0 -> 0 <= junk < 2 ^ 32 ->
  readVar 4 junk s =
    (junk, {| IStream.content := IStream.content s; IStream.gpos := IStream.gpos s + 0;
              IStream.eofbit := true; IStream.failbit := true |}).
Proof.
  intros Hg Ha Hj. unfold readVar, IStream.read. rewrite Hg, Ha.
  change (Z.max 0 (Z.min (Z.of_nat 4) 0)) with 0.
  change (0 =? 0) with true. change (0 <? Z.of_nat 4) with true.
  cbv iota. unfold Mem.blit. cbn [length app]. rewrite drop_0.
  rewrite u32_of_bytes_of by lia. reflexivity.
Qed.

(** In container mode, on a stream that is at the end of the file and has
    not met it yet, the size [readFrame] works with is the junk in
    [readVar]'s local: it becomes [m_frameSize], and the buffer is resized
    to it. *)
Lemma readFrame_at_end junk (r : VideoReader.t) :
  VideoReader.m_raw r = false ->
  IStream.good (VideoReader.m_inFile r) = true ->
  IStream.avail (VideoReader.m_inFile r) = 0 ->
  0 <= junk < 2 ^ 32 ->
  (VideoReader.readFrame junk r).1 = false /\
  VideoReader.m_frameSize (VideoReader.readFrame junk r).2 = junk /\
  (Z.of_nat (length (VideoReader.m_frameBuf r)) < junk ->
   Z.of_nat (length (VideoReader.m_frameBuf (VideoReader.readFrame junk r).2)) = junk).
Proof.
  intros Hraw Hg Ha Hj.
  split.
  { apply readFrame_not_ahead. unfold frame_ahead. rewrite Hg, Hraw, Ha. reflexivity. }
  unfold VideoReader.readFrame. rewrite (good_not_eof _ Hg), Hraw.
  rewrite readVar_at_end by auto. rewrite read_bad by reflexivity.
  cbn [snd fst VideoReader.m_frameSize VideoReader.m_frameBuf].
  split; [reflexivity|]. intros Hlt.
  apply Z.ltb_lt in Hlt. rewrite Hlt.
  rewrite length_blit, length_resize by lia. simpl length. lia.
Qed.

(** C9 fails on the code: after [open] on a file that holds the header and
    nothing else, the first [readFrame] sets the frame size and the length
    of its buffer to whatever the junk is. *)
Lemma readFrame_acts_on_junk_size :
  VideoReader.open (Sample.disk "in.cb" Sample.header) "in.cb" 0 0 VideoReader.ctor
    = Ok (Sample.reader_on Sample.header) /\
  IStream.eof (VideoReader.m_inFile (Sample.reader_on Sample.header)) = false /\
  IStream.avail (VideoReader.m_inFile (Sample.reader_on Sample.header)) = 0 /\
  forall junk, (1 <=? junk) && (junk <? 2 ^ 32) = true ->
    (VideoReader.readFrame junk (Sample.reader_on Sample.header)).1 = false /\
    VideoReader.frameSize (VideoReader.readFrame junk (Sample.reader_on Sample.header)).2
      = junk /\
    Z.of_nat (length (VideoReader.frameData
                        (VideoReader.readFrame junk (Sample.reader_on Sample.header)).2))
      = junk.
Proof.
  split; [ vm_compute; reflexivity | ].
  split; [ vm_compute; reflexivity | ].
  split; [ vm_compute; reflexivity | ].
  intros junk Hj. apply andb_true_iff in Hj as [H1 H2].
  apply Z.leb_le in H1. apply Z.ltb_lt in H2.
  assert (Hraw : VideoReader.m_raw (Sample.reader_on Sample.header) = false)
    by (vm_compute; reflexivity).
  assert (Hg : IStream.good (VideoReader.m_inFile (Sample.reader_on Sample.header)) = true)
    by (vm_compute; reflexivity).
  assert (Ha : IStream.avail (VideoReader.m_inFile (Sample.reader_on Sample.header)) = 0)
    by (vm_compute; reflexivity).
  assert (Hb : length (VideoReader.m_frameBuf (Sample.reader_on Sample.header)) = 0%nat)
    by (vm_compute; reflexivity).
  destruct (readFrame_at_end junk (Sample.reader_on Sample.header) Hraw Hg Ha
              ltac:(lia)) as (A & B & C).
  repeat split; auto. apply C. rewrite Hb. simpl. lia.
Qed.

(** * Rewind *)

Lemma returned_none j r :
  frame_ahead r = false -> returned (VideoReader.readFrame j r) = None.
Proof.
  intros E. unfold returned. rewrite (readFrame_not_ahead j r E). reflexivity.
Qed.

(** What [readFrame] returns depends on the stream, on the mode and, in raw
    mode, on the descriptor's frame size: not on the buffer, not on the
    junk. *)
Lemma returned_ext j1 j2 r1 r2 :
  VideoReader.m_inFile r1 = VideoReader.m_inFile r2 ->
  VideoReader.m_raw r1 = VideoReader.m_raw r2 ->
  (VideoReader.m_raw r1 = true ->
   Bih.sizeImage (VideoReader.getFormat r1) = Bih.sizeImage (VideoReader.getFormat r2)) ->
  returned (VideoReader.readFrame j1 r1) = returned (VideoReader.readFrame j2 r2).
Proof.
  intros Hs Hraw Hsz.
  assert (Hn : next_size r1 = next_size r2).
  { unfold next_size. rewrite <- Hraw, <- Hs.
    destruct (VideoReader.m_raw r1); auto. }
  assert (Ho : next_off r1 = next_off r2).
  { unfold next_off. rewrite <- Hraw, <- Hs. reflexivity. }
  assert (Ha : frame_ahead r1 = frame_ahead r2).
  { unfold frame_ahead. rewrite <- Hraw, <- Hs, <- Hn. reflexivity. }
  destruct (frame_ahead r1) eqn:E.
  - rewrite (complete_frame_is_returned j1 r1 E).
    rewrite (complete_frame_is_returned j2 r2 (eq_sym Ha)).
    rewrite Hs, Hn, Ho. reflexivity.
  - rewrite (returned_none j1 r1 E), (returned_none j2 r2 (eq_sym Ha)).
    reflexivity.
Qed.

Lemma readFrames_preserves junks : forall r,
  IStream.content (VideoReader.m_inFile (readFrames junks r).2)
    = IStream.content (VideoReader.m_inFile r) /\
  VideoReader.m_raw (readFrames junks r).2 = VideoReader.m_raw r /\
  VideoReader.m_biFormat (readFrames junks r).2 = VideoReader.m_biFormat r /\
  VideoReader.m_headerSize (readFrames junks r).2 = VideoReader.m_headerSize r.
Proof.
  induction junks as [|j junks IH]; intros r; [cbn; auto|].
  cbn [readFrames].
  pose proof (readFrame_preserves j r) as P.
  destruct (VideoReader.readFrame j r) as [more r1]. cbn [snd] in P.
  specialize (IH r1). destruct (readFrames junks r1) as [l r2]. cbn [snd] in *.
  destruct P as (P1 & P2 & P3 & P4), IH as (I1 & I2 & I3 & I4).
  repeat split; congruence.
Qed.

(** The stream [rewind] leaves: cleared and at the recorded offset. *)
Lemma rewind_stream r :
  VideoReader.m_inFile (VideoReader.rewind r) =
    {| IStream.content := IStream.content (VideoReader.m_inFile r);
       IStream.gpos := Z.to_N (VideoReader.m_headerSize r);
       IStream.eofbit := false; IStream.failbit := false |}.
Proof. reflexivity. Qed.

Lemma length_read_le n s :
  (length (IStream.read n s).1 <= Z.to_nat n)%nat.
Proof.
  unfold IStream.read. destruct (IStream.good s); cbn [fst]; [|simpl; lia].
  destruct (_ =? 0); [simpl; lia|]. rewrite length_take. lia.
Qed.

Lemma readVar_range j s : 0 <= (readVar 4 j s).1 < 2 ^ 32.
Proof.
  unfold readVar. pose proof (length_read_le (Z.of_nat 4) s) as L.
  destruct (IStream.read (Z.of_nat 4) s) as [bs s']. cbn [fst] in *.
  pose proof (unsigned_of_range (Mem.blit bs (Mem.bytes_of 4 j))) as R.
  rewrite length_blit, length_bytes_of in R.
  replace (length bs `max` 4)%nat with 4%nat in R by lia.
  exact R.
Qed.

(** The position after a [readVar] that found its four bytes, and the
    state after one that did not. *)
Lemma readVar_cases j s :
  (IStream.good s = true /\ 4 <= IStream.avail s /\
   (readVar 4 j s).2 =
     {| IStream.content := IStream.content s; IStream.gpos := IStream.gpos s + 4;
        IStream.eofbit := false; IStream.failbit := false |}) \/
  ((IStream.good s = false \/ IStream.avail s < 4) /\
   IStream.good (readVar 4 j s).2 = false /\
   IStream.content (readVar 4 j s).2 = IStream.content s /\
   (IStream.good s = true -> IStream.eofbit (readVar 4 j s).2 = true) /\
   (IStream.eofbit s = true -> IStream.eofbit (readVar 4 j s).2 = true)).
Proof.
  destruct (IStream.good s) eqn:Hg.
  - destruct (Z_le_gt_dec 4 (IStream.avail s)) as [H4|H4].
    + left. rewrite readVar_good by auto. auto.
    + right. assert (Hlt : IStream.avail s < 4) by lia.
      destruct (readVar_short j s (or_intror Hlt)) as (A & B & C).
      repeat split; auto; [|].
      * intros _. unfold readVar.
        destruct (read_short (Z.of_nat 4) s Hg ltac:(simpl; lia)) as (He & _).
        destruct (IStream.read (Z.of_nat 4) s). exact He.
      * intros He. unfold IStream.good in Hg. rewrite He in Hg. discriminate.
  - right. destruct (readVar_short j s (or_introl Hg)) as (A & B & C).
    repeat split; auto; [discriminate|].
    intros He. unfold readVar. rewrite read_bad by auto. exact He.
Qed.

(** What [open] leaves behind: the mode, the recorded offset, and a stream
    that is either right behind a complete header or has met the end of the
    file inside it. *)
Lemma open_state fs infile jm js r0 r :
  VideoReader.open fs infile jm js r0 = Ok r ->
  VideoReader.m_raw r = false /\
  VideoReader.m_headerSize r
    = CInt.u32 (8 + Z.of_nat (length (VideoReader.getFormat r))) /\
  ((IStream.good (VideoReader.m_inFile r) = true /\
    IStream.gpos (VideoReader.m_inFile r)
      = Z.to_N (8 + Z.of_nat (length (VideoReader.getFormat r)))) \/
   (IStream.eofbit (VideoReader.m_inFile r) = true /\
    Z.of_nat (length (IStream.content (VideoReader.m_inFile r)))
      < 8 + Z.of_nat (length (VideoReader.getFormat r)))).
Proof.
  unfold VideoReader.open, IStream.open.
  destruct (files fs !! infile) as [file|]; cbn [IStream.fail IStream.failbit];
    [|discriminate].
  set (s0 := {| IStream.content := file; IStream.gpos := 0 |}).
  pose proof (readVar_cases jm s0) as C1.
  destruct (readVar 4 jm s0) as [magic s1]. cbn [snd] in C1.
  destruct (negb (magic =? MAGIC)); [discriminate|].
  pose proof (readVar_cases js s1) as C2.
  pose proof (readVar_range js s1) as R.
  destruct (readVar 4 js s1) as [fsz s2]. cbn [fst snd] in C2, R.
  pose proof (length_read_le fsz s2) as L.
  pose proof (read_content fsz s2) as Hc.
  destruct (IStream.read fsz s2) as [bs s3] eqn:E. cbn [fst snd] in L, Hc.
  intros Hr. injection Hr as <-.
  unfold VideoReader.getFormat, BitmapInfoHeader.ptr, BitmapInfoHeader.resize.
  cbn [VideoReader.m_raw VideoReader.m_headerSize VideoReader.m_biFormat
       VideoReader.m_inFile].
  assert (Lf : Z.of_nat (length (Mem.blit bs (Mem.resize fsz (VideoReader.m_biFormat r0)))) = fsz).
  { rewrite length_blit, length_resize by lia. lia. }
  rewrite Lf. split; [reflexivity|]. split; [reflexivity|].
  destruct C1 as [(G0 & A0 & S1)|(B0 & G1 & Ct1 & E1 & _)].
  - destruct C2 as [(G1 & A1 & S2)|(B1 & G2 & Ct2 & E2 & _)].
    + destruct (Z_le_gt_dec fsz (IStream.avail s2)) as [Hfit|Hcut].
      * left. assert (G2 : IStream.good s2 = true) by (rewrite S2; reflexivity).
        rewrite read_good in E by (auto; lia). injection E as _ <-.
        cbn [IStream.good IStream.eofbit IStream.failbit IStream.gpos negb andb].
        rewrite S2, S1. cbn [IStream.gpos s0]. split; [reflexivity|]. lia.
      * right. assert (G2 : IStream.good s2 = true) by (rewrite S2; reflexivity).
        destruct (read_short fsz s2 G2 ltac:(lia)) as (He & _). rewrite E in He.
        split; [exact He|]. rewrite Hc.
        unfold IStream.avail in Hcut. subst s2 s1.
        cbn [IStream.content IStream.gpos s0] in *. lia.
    + right. rewrite read_bad in E by auto. injection E as _ <-.
      cbn [IStream.eofbit IStream.content]. split.
      * apply E2. rewrite S1. reflexivity.
      * rewrite Ct2. destruct B1 as [B1|B1]; [rewrite S1 in B1; discriminate|].
        unfold IStream.avail in B1. subst s1.
        cbn [IStream.content IStream.gpos s0] in *. lia.
  - right. specialize (E1 eq_refl).
    destruct C2 as [(G1' & _)|(_ & G2 & Ct2 & _ & E2)]; [congruence|].
    rewrite read_bad in E by auto. injection E as _ <-.
    cbn [IStream.eofbit IStream.content]. split; [auto|].
    rewrite Ct2, Ct1. destruct B0 as [B0|B0]; [discriminate|].
    unfold IStream.avail in B0. cbn [IStream.content IStream.gpos s0] in *. lia.
Qed.

Lemma openRaw_state fs infile format w h r0 r :
  VideoReader.openRaw fs infile format w h r0 = Ok r ->
  VideoReader.m_raw r = true /\
  VideoReader.m_headerSize r = 0 /\
  IStream.good (VideoReader.m_inFile r) = true /\
  IStream.gpos (VideoReader.m_inFile r) = 0%N.
Proof.
  unfold VideoReader.openRaw, bind.
  destruct (Resolver.GetDecompFormat format w h); [|discriminate].
  unfold IStream.open. destruct (files fs !! infile); cbn [IStream.fail IStream.failbit];
    [|discriminate].
  intros Hr. injection Hr as <-. cbn. auto.
Qed.

Lemma good_flags s :
  IStream.good s = true -> IStream.eofbit s = false /\ IStream.failbit s = false.
Proof.
  unfold IStream.good. destruct (IStream.eofbit s), (IStream.failbit s); auto; discriminate.
Qed.

Lemma stream_at s p :
  IStream.good s = true -> IStream.gpos s = p ->
  s = {| IStream.content := IStream.content s; IStream.gpos := p;
         IStream.eofbit := false; IStream.failbit := false |}.
Proof.
  intros Hg Hp. destruct (good_flags s Hg) as [He Hf].
  destruct s; cbn in *. subst. reflexivity.
Qed.

Lemma rewind_replays_gen fs r junks j j' :
  opened fs r ->
  (VideoReader.m_raw r = false ->
   8 + Z.of_nat (length (VideoReader.getFormat r)) < 2 ^ 32) ->
  returned (VideoReader.readFrame j (VideoReader.rewind (readFrames junks r).2))
    = returned (VideoReader.readFrame j' r) /\
  IStream.gpos (VideoReader.m_inFile (VideoReader.rewind (readFrames junks r).2))
    = Z.to_N (VideoReader.m_headerSize r) /\
  VideoReader.m_headerSize r
    = (if VideoReader.m_raw r then 0
       else 8 + Z.of_nat (length (VideoReader.getFormat r))) /\
  VideoReader.getFormat (VideoReader.rewind (readFrames junks r).2)
    = VideoReader.getFormat r.
Proof.
  intros Hop Hfit.
  destruct (readFrames_preserves junks r) as (Pc & Praw & Pfmt & Phs).
  set (r' := (readFrames junks r).2) in *.
  pose proof (rewind_stream r') as Hrw. rewrite Pc, Phs in Hrw.
  assert (Rraw : VideoReader.m_raw (VideoReader.rewind r') = VideoReader.m_raw r)
    by exact Praw.
  assert (Rfmt : VideoReader.getFormat (VideoReader.rewind r') = VideoReader.getFormat r)
    by exact Pfmt.
  destruct Hop as [(infile & jm & js & r0 & Ho)|(infile & format & w & h & r0 & Ho)].
  - destruct (open_state _ _ _ _ _ _ Ho) as (Hraw & Hhs & Hst).
    specialize (Hfit Hraw).
    assert (Hhs' : VideoReader.m_headerSize r
                   = 8 + Z.of_nat (length (VideoReader.getFormat r))).
    { rewrite Hhs. apply u32_small. lia. }
    rewrite Hraw. repeat split; auto.
    + destruct Hst as [(Hg & Hp)|(He & Hlen)].
      * apply returned_ext; try congruence.
        rewrite Hrw, Hhs'. symmetry. apply stream_at; auto.
      * rewrite (returned_none j' r).
        2:{ unfold frame_ahead, IStream.good. rewrite He. reflexivity. }
        apply returned_none. unfold frame_ahead. rewrite Rraw, Hraw, Hrw.
        unfold IStream.avail. cbn [IStream.good IStream.eofbit IStream.failbit
                                  IStream.content IStream.gpos negb andb].
        rewrite Hhs'.
        replace (4 <=? _) with false; [reflexivity|].
        symmetry. apply Z.leb_gt. lia.
    + rewrite Hrw. reflexivity.
  - destruct (openRaw_state _ _ _ _ _ _ _ Ho) as (Hraw & Hhs & Hg & Hp).
    rewrite Hraw. repeat split; auto.
    + apply returned_ext; try congruence.
      rewrite Hrw, Hhs. symmetry. apply stream_at; auto.
    + rewrite Hrw. reflexivity.
Qed.

(** C5 (as amended). After any number of [readFrame] calls on a reader that
    [open] or [openRaw] returned, [rewind] puts the stream at the recorded
    offset (8 + the format block size in container mode, 0 in raw mode)
    without touching the header data, and the next [readFrame] returns what
    the first one after opening returned, provided 8 + the format block
    size fits the 32-bit offset. *)
Theorem rewind_replays
    (fs : filesystem) (r : VideoReader.t) (junks : list Z) (junk junk' : Z) :
  opened fs r ->
  (VideoReader.m_raw r = false ->
   8 + Z.of_nat (length (VideoReader.getFormat r)) < 2 ^ 32) ->
  returned (VideoReader.readFrame junk (VideoReader.rewind (readFrames junks r).2))
    = returned (VideoReader.readFrame junk' r) /\
  IStream.gpos (VideoReader.m_inFile (VideoReader.rewind (readFrames junks r).2))
    = Z.to_N (VideoReader.m_headerSize r) /\
  VideoReader.m_headerSize r
    = (if VideoReader.m_raw r then 0
       else 8 + Z.of_nat (length (VideoReader.getFormat r))) /\
  VideoReader.getFormat (VideoReader.rewind (readFrames junks r).2)
    = VideoReader.getFormat r.
Proof. apply rewind_replays_gen. Qed.

Lemma rewind_replays_witness :
  (opened (Sample.disk "in.cb" Sample.written) (Sample.reader_on Sample.written) /\
   (VideoReader.m_raw (Sample.reader_on Sample.written) = false ->
    8 + Z.of_nat (length (VideoReader.getFormat (Sample.reader_on Sample.written)))
      < 2 ^ 32)) /\
  returned (VideoReader.readFrame 5
              (VideoReader.rewind
                 (readFrames [1; 2; 3; 4] (Sample.reader_on Sample.written)).2))
    = returned (VideoReader.readFrame 6 (Sample.reader_on Sample.written)) /\
  IStream.gpos (VideoReader.m_inFile
                  (VideoReader.rewind
                     (readFrames [1; 2; 3; 4] (Sample.reader_on Sample.written)).2))
    = Z.to_N (VideoReader.m_headerSize (Sample.reader_on Sample.written)) /\
  VideoReader.m_headerSize (Sample.reader_on Sample.written)
    = (if VideoReader.m_raw (Sample.reader_on Sample.written) then 0
       else 8 + Z.of_nat (length (VideoReader.getFormat (Sample.reader_on Sample.written)))) /\
  VideoReader.getFormat
    (VideoReader.rewind (readFrames [1; 2; 3; 4] (Sample.reader_on Sample.written)).2)
    = VideoReader.getFormat (Sample.reader_on Sample.written).
Proof.
  assert (H1 : opened (Sample.disk "in.cb" Sample.written)
                      (Sample.reader_on Sample.written)).
  { left. exists "in.cb"%string, 0, 0, VideoReader.ctor. vm_compute. reflexivity. }
  assert (H2 : VideoReader.m_raw (Sample.reader_on Sample.written) = false ->
               8 + Z.of_nat (length (VideoReader.getFormat (Sample.reader_on Sample.written)))
                 < 2 ^ 32).
  { intros _. vm_compute. reflexivity. }
  split; [ split; assumption | ].
  exact (rewind_replays (Sample.disk "in.cb" Sample.written)
           (Sample.reader_on Sample.written) [1; 2; 3; 4] 5 6 H1 H2).
Defined.

(** [open] on a readable file whose first word passes for the magic: it
    does not throw, whatever follows the magic. *)
Lemma open_explicit fs infile jm js r0 file :
  files fs !! infile = Some file ->
  (readVar 4 jm {| IStream.content := file; IStream.gpos := 0;
                   IStream.eofbit := false; IStream.failbit := false |}).1 = MAGIC ->
  exists r,
    VideoReader.open fs infile jm js r0 = Ok r /\
    VideoReader.m_raw r = false /\
    VideoReader.m_headerSize r
      = CInt.u32 (8 + (readVar 4 js
                         (readVar 4 jm {| IStream.content := file; IStream.gpos := 0;
                                          IStream.eofbit := false;
                                          IStream.failbit := false |}).2).1) /\
    VideoReader.m_inFile r
      = (IStream.read
           (readVar 4 js
              (readVar 4 jm {| IStream.content := file; IStream.gpos := 0;
                               IStream.eofbit := false; IStream.failbit := false |}).2).1
           (readVar 4 js
              (readVar 4 jm {| IStream.content := file; IStream.gpos := 0;
                               IStream.eofbit := false; IStream.failbit := false |}).2).2).2.
Proof.
  intros Hfile Hmagic. unfold VideoReader.open, IStream.open. rewrite Hfile.
  cbn [IStream.fail IStream.failbit].
  destruct (readVar 4 jm _) as [magic s1]. cbn [fst snd] in *. subst magic.
  rewrite Z.eqb_refl. cbn [negb].
  destruct (readVar 4 js s1) as [fsz s2]. cbn [fst snd].
  destruct (IStream.read fsz s2) as [bs s3]. cbn [snd].
  eexists. split; [reflexivity|]. cbn. auto.
Qed.

Lemma readFrame_eof j r :
  IStream.eof (VideoReader.m_inFile r) = true ->
  VideoReader.readFrame j r = (false, r).
Proof. intros He. unfold VideoReader.readFrame. rewrite He. reflexivity. Qed.

Lemma readFrames_eof junks r :
  IStream.eof (VideoReader.m_inFile r) = true -> (readFrames junks r).2 = r.
Proof.
  intros He. induction junks as [|j junks IH]; [reflexivity|].
  cbn [readFrames]. rewrite readFrame_eof by exact He.
  destruct (readFrames junks r) as [l r2]. exact IH.
Qed.

(** C5, as stated, fails for a format block size within 8 of 2^32: the
    recorded offset wraps.  Here the block declares 0xFFFFFFFF bytes, the
    file ends inside it, the first [readFrame] finds the end of the
    stream, and after [rewind], which seeks to offset 7, [readFrame]
    returns 255 bytes of the file as a frame. *)
Lemma rewind_replays_counterexample :
  exists r,
    VideoReader.open (Sample.disk "in.cb" Sample.wrapping) "in.cb" 0 0 VideoReader.ctor
      = Ok r /\
    VideoReader.m_headerSize r = 7 /\
    returned (VideoReader.readFrame 0 r) = None /\
    returned (VideoReader.readFrame 0 (VideoReader.rewind (readFrames [0; 0] r).2))
      = Some (replicate 255 x07).
Proof.
  destruct (open_explicit (Sample.disk "in.cb" Sample.wrapping) "in.cb" 0 0
              VideoReader.ctor Sample.wrapping)
    as (r & Ho & Hraw & Hhs & Hs).
  { vm_compute. reflexivity. }
  { vm_compute. reflexivity. }
  assert (Hhs7 : VideoReader.m_headerSize r = 7) by (rewrite Hhs; vm_compute; reflexivity).
  clear Hhs.
  match type of Hs with _ = ?s => let v := eval vm_compute in s in
    change (VideoReader.m_inFile r = v) in Hs end.
  assert (He : IStream.eof (VideoReader.m_inFile r) = true) by (rewrite Hs; reflexivity).
  exists r. repeat split; auto.
  - apply returned_none. unfold frame_ahead. rewrite Hs. reflexivity.
  - rewrite readFrames_eof by exact He.
    rewrite (returned_ext 0 0 (VideoReader.rewind r)
               {| VideoReader.m_frameBuf := []; VideoReader.m_frameSize := 0;
                  VideoReader.m_inFile :=
                    {| IStream.content := Sample.wrapping; IStream.gpos := 7;
                       IStream.eofbit := false; IStream.failbit := false |};
                  VideoReader.m_biFormat := []; VideoReader.m_headerSize := 7;
                  VideoReader.m_raw := false |}).
    + vm_compute. reflexivity.
    + rewrite rewind_stream, Hs, Hhs7. vm_compute. reflexivity.
    + exact Hraw.
    + unfold VideoReader.rewind. cbn [VideoReader.m_raw]. rewrite Hraw. discriminate.
Qed.

(** * Arguments *)

Section Arguments.
Context `{Host}.




End Arguments.


(** The whole of [initArguments] on that command line. *)
Example nd_command_line :
  exists cb,
    CodecBench.initArguments (H := Sample.host Sample.never Sample.NoCompression)
      Sample.nd_argv CodecBench.ctor []
      = (Ok cb, [nd_warning "-f"; nd_warning "-w"]) /\
    CodecBench.m_decompFormat cb = None /\
    CodecBench.m_decompWidth cb = 0 /\
    CodecBench.m_decompHeight cb = 0.
Proof. eexists. vm_compute. auto. Qed.


(** * The run loop and the exit code *)

Section Run.
Context `{Host}.

Lemma iter_body st : CodecBench.iter (CodecBench.body st) = S (CodecBench.iter st).
Proof.
  unfold CodecBench.body.
  destruct (VideoReader.readFrame _ _) as [more reader].
  destruct (negb more || _); [reflexivity|].
  destruct (CodecBench.decompress_if_needed _ _ _ _) as [[[d t1] k1] c1].
  destruct (CodecBench.compress_if_needed _ _ _ _) as [[[c t2] k2] c2].
  reflexivity.
Qed.

Lemma turns_S n st : turns (S n) st = turns n (CodecBench.body st).
Proof. unfold turns. apply Nat.iter_succ_r. Qed.

Lemma while_done fuel st :
  negb (s_stop (CodecBench.iter st))
  && (CodecBench.loop st <? CodecBench.m_loopCount (CodecBench.this_ st)) = false ->
  CodecBench.while fuel st = Some st.
Proof. intros E. destruct fuel; cbn [CodecBench.while]; rewrite E; reflexivity. Qed.

Lemma while_step fuel st :
  negb (s_stop (CodecBench.iter st))
  && (CodecBench.loop st <? CodecBench.m_loopCount (CodecBench.this_ st)) = true ->
  CodecBench.while (S fuel) st = CodecBench.while fuel (CodecBench.body st).
Proof. intros E. cbn [CodecBench.while]. rewrite E. reflexivity. Qed.



Lemma main_throw fs argv what out fuel :
  CodecBench.init fs argv CodecBench.ctor [] = (Throw what, out) ->
  main fs fuel argv = Some (1, out ++ [Text (what +:+ nl)]).
Proof. intros Hi. unfold main. rewrite Hi. reflexivity. Qed.




Lemma no_decompressor_throws biIn biOut w h d out :
  ICLocate (Bih.compression biIn) biIn = None ->
  Decompressor.init biIn biOut w h d out
    = (Throw ("ERROR: Could not find appropriate decompressor!" +:+ nl), out).
Proof. intros Hl. unfold Decompressor.init. rewrite Hl. reflexivity. Qed.

Lemma cancelled_compressor_throws biIn c out :
  ICCompressorChoose biIn = None ->
  Compressor.init biIn c out
    = (Throw ("Compressor selection was canceled!" +:+ nl), out).
Proof. intros Hc. unfold Compressor.init. rewrite Hc. reflexivity. Qed.

End Run.

(** Each kind of failure, on the sample host: the usage, a missing input
    option, an unreadable input, an unsupported format, a foreign file, a
    cancelled compressor dialog. *)
Example exit_1_usage :
  fst <$> main (H := Sample.plain) Sample.input 10 ["codecbench"]%string = Some 1.
Proof. vm_compute. reflexivity. Qed.

Example exit_1_no_input_option :
  main (H := Sample.plain) Sample.input 10 ["codecbench"; "-nd"]%string
  = Some (1, [Text ("ERROR: No input file given (-i)!" +:+ nl +:+ nl)]).
Proof. vm_compute. reflexivity. Qed.

Example exit_1_missing_argument :
  main (H := Sample.plain) Sample.input 10 ["codecbench"; "-i"; "in.cb"; "-nd"; "-w"]%string
  = Some (1, [Text ("ERROR: Missing argument for option '-w'" +:+ nl)]).
Proof. vm_compute. reflexivity. Qed.

Example exit_1_unreadable_input :
  main (H := Sample.plain) Sample.input 10 ["codecbench"; "-i"; "nothere"]%string
  = Some (1, [Text ("ERROR: Failed to open file: nothere" +:+ nl)]).
Proof. vm_compute. reflexivity. Qed.

Example exit_1_unsupported_format :
  main (H := Sample.plain) Sample.input 10
       ["codecbench"; "-i"; "in.cb"; "-rawin"; "-f"; "XYZ"; "-w"; "4"; "-h"; "2"]%string
  = Some (1, [Text ("Invalid requested decompressed format: XYZ" +:+ nl)]).
Proof. vm_compute. reflexivity. Qed.

Example exit_1_bad_magic :
  main (H := Sample.plain) (Sample.disk "in.cb" [x00; x01; x02; x03; x04]) 10
       ["codecbench"; "-i"; "in.cb"]%string
  = Some (1, [Text ("ERROR: Invalid file magic" +:+ nl)]).
Proof. vm_compute. reflexivity. Qed.

Example exit_1_cancelled :
  fst <$> main (H := Sample.host Sample.never Sample.Cancelled) Sample.input 10
               ["codecbench"; "-i"; "in.cb"]%string
  = Some 1.
Proof. vm_compute. reflexivity. Qed.

(** A run to the end of the input, and the same run interrupted at the
    third test of the loop condition: two frames are processed and
    reported, then the final newline, and the exit code is 0. *)
Example exit_0_completed :
  main (H := Sample.plain) Sample.input 10 ["codecbench"; "-i"; "in.cb"; "-nd"]%string
  = Some (0, [ Text ("INFO: Input file          : in.cb" +:+ nl);
               Text "INFO: Input format        : "; BitmapInfo 4 2 0 24; Text nl;
               Text ("INFO: Decompressor        : -" +:+ nl);
               Text ("INFO: Compressor          : -" +:+ nl);
               Text "INFO: Output format       : "; BitmapInfo 4 2 0 24; Text nl;
               Text ("INFO: Output file         : -" +:+ nl); Text nl;
               Progress 1 None None; Progress 2 None None; Progress 3 None None;
               Text nl ]).
Proof. vm_compute. reflexivity. Qed.

Example exit_0_interrupted :
  main (H := Sample.host (fun n => (2 <=? n)%nat) Sample.NoCompression) Sample.input 10
       ["codecbench"; "-i"; "in.cb"; "-nd"]%string
  = Some (0, [ Text ("INFO: Input file          : in.cb" +:+ nl);
               Text "INFO: Input format        : "; BitmapInfo 4 2 0 24; Text nl;
               Text ("INFO: Decompressor        : -" +:+ nl);
               Text ("INFO: Compressor          : -" +:+ nl);
               Text "INFO: Output format       : "; BitmapInfo 4 2 0 24; Text nl;
               Text ("INFO: Output file         : -" +:+ nl); Text nl;
               Progress 1 None None; Progress 2 None None;
               Text nl ]).
Proof. vm_compute. reflexivity. Qed.

(** * The encode stage switched off *)

Section NoCompression.
Context `{Host}.

Lemma decompressFrame_format data size (d : Decompressor.t) :
  Decompressor.getOutputFormat (Decompressor.decompressFrame data size d)
    = Decompressor.getOutputFormat d.
Proof.
  unfold Decompressor.decompressFrame, Decompressor.getOutputFormat.
  destruct (Decompressor.m_hic d); [|reflexivity].
  destruct (ICDecompress _ _ _ _ _). reflexivity.
Qed.

Lemma body_settings st :
  settings (CodecBench.this_ (CodecBench.body st)) = settings (CodecBench.this_ st).
Proof.
  unfold CodecBench.body.
  destruct (VideoReader.readFrame _ _) as [more reader].
  destruct (negb more || _); [reflexivity|].
  unfold CodecBench.decompress_if_needed, CodecBench.compress_if_needed.
  cbn [CodecBench.m_decompress CodecBench.m_compress CodecBench.set_videoReader
       CodecBench.set_decompressor].
  destruct (CodecBench.m_decompress (CodecBench.this_ st)) eqn:Ed;
    destruct (CodecBench.m_compress (CodecBench.this_ st)) eqn:Ec;
    unfold settings; cbn; rewrite ?Ed, ?Ec, ?decompressFrame_format; reflexivity.
Qed.








End NoCompression.


(** * Loops over the same frames *)

Lemma same_source_refl r : same_source r r.
Proof. repeat split. Qed.

Lemma same_source_ahead r r' :
  same_source r r' ->
  frame_ahead r = frame_ahead r' /\ next_size r = next_size r' /\ next_off r = next_off r'.
Proof.
  intros (Hs & Hraw & Hf & _).
  assert (Hn : next_size r = next_size r').
  { unfold next_size, VideoReader.getFormat. rewrite Hs, Hraw, Hf. reflexivity. }
  split; [|split]; auto.
  - unfold frame_ahead. rewrite Hs, Hraw, Hn. reflexivity.
  - unfold next_off. rewrite Hs, Hraw. reflexivity.
Qed.

(** Reading a complete frame keeps two readers on the same source
    together, whatever their junk. *)
Lemma readFrame_same_source j j' r r' :
  same_source r r' -> frame_ahead r = true ->
  same_source (VideoReader.readFrame j r).2 (VideoReader.readFrame j' r').2.
Proof.
  intros Hss Ha.
  destruct (same_source_ahead r r' Hss) as (Ea & En & Eo).
  destruct Hss as (Hs & Hraw & Hf & Hh).
  destruct (readFrame_ahead j r Ha) as (_ & _ & _ & _ & S1).
  destruct (readFrame_ahead j' r' ltac:(congruence)) as (_ & _ & _ & _ & S2).
  destruct (readFrame_preserves j r) as (_ & P2 & P3 & P4).
  destruct (readFrame_preserves j' r') as (_ & Q2 & Q3 & Q4).
  cbv zeta in *.
  split; [rewrite S1, S2, Hs, En, Eo; reflexivity|].
  repeat split; congruence.
Qed.

Lemma after_frames_preserves n : forall r,
  IStream.content (VideoReader.m_inFile (after_frames n r))
    = IStream.content (VideoReader.m_inFile r) /\
  VideoReader.m_raw (after_frames n r) = VideoReader.m_raw r /\
  VideoReader.m_biFormat (after_frames n r) = VideoReader.m_biFormat r /\
  VideoReader.m_headerSize (after_frames n r) = VideoReader.m_headerSize r.
Proof.
  induction n as [|n IH]; intros r; [cbn; auto|].
  cbn [after_frames].
  destruct (readFrame_preserves 0 r) as (P1 & P2 & P3 & P4).
  destruct (IH (VideoReader.readFrame 0 r).2) as (I1 & I2 & I3 & I4).
  cbv zeta in *. repeat split; congruence.
Qed.

Lemma u64_add_l a b : CInt.u64 (CInt.u64 a + b) = CInt.u64 (a + b).
Proof. unfold CInt.u64. apply Z.add_mod_idemp_l. lia. Qed.

Lemma s32_add_l a b : CInt.s32 (CInt.s32 a + b) = CInt.s32 (a + b).
Proof.
  unfold CInt.s32. f_equal.
  replace ((a + 2 ^ 31) mod 2 ^ 32 - 2 ^ 31 + b + 2 ^ 31)
    with ((a + 2 ^ 31) mod 2 ^ 32 + b) by lia.
  rewrite Z.add_mod_idemp_l by lia. f_equal. lia.
Qed.

Lemma frames_processed_app out out' :
  frames_processed (out ++ out') = frames_processed out + frames_processed out'.
Proof.
  unfold frames_processed. rewrite filter_app, length_app. lia.
Qed.

Section Loops.
Context `{Host}.

Lemma settings_decoded_size (this this' : CodecBench.t) size :
  settings this' = settings this -> decoded_size this' size = decoded_size this size.
Proof.
  intros E. unfold decoded_size.
  pose proof (f_equal (fun s => fst (fst (fst (fst (fst s))))) E) as E1.
  pose proof (f_equal snd E) as E2. cbn in E1, E2. rewrite E1, E2. reflexivity.
Qed.

Lemma settings_decoded_bytes (this this' : CodecBench.t) n r :
  settings this' = settings this ->
  decoded_bytes_ahead this' n r = decoded_bytes_ahead this n r.
Proof.
  intros E. unfold decoded_bytes_ahead.
  pose proof (f_equal (fun s => fst (fst (fst (fst (fst s))))) E) as E1.
  pose proof (f_equal snd E) as E2. cbn in E1, E2. rewrite E1, E2. reflexivity.
Qed.

Lemma settings_limits (this this' : CodecBench.t) :
  settings this' = settings this ->
  CodecBench.m_framesToProcess this' = CodecBench.m_framesToProcess this /\
  CodecBench.m_loopCount this' = CodecBench.m_loopCount this /\
  CodecBench.m_compress this' = CodecBench.m_compress this.
Proof.
  intros E.
  pose proof (f_equal (fun s => snd (fst (fst s))) E) as E1.
  pose proof (f_equal (fun s => snd (fst s)) E) as E2.
  pose proof (f_equal (fun s => snd (fst (fst (fst (fst s))))) E) as E3.
  cbn in E1, E2, E3. auto.
Qed.

(** A turn that finds a frame and is below the limit processes it. *)
Lemma body_process st :
  frame_ahead (CodecBench.m_videoReader (CodecBench.this_ st)) = true ->
  CodecBench.currentFrameNum st < CodecBench.m_framesToProcess (CodecBench.this_ st) ->
  let r := CodecBench.m_videoReader (CodecBench.this_ st) in
  let size := decoded_size (CodecBench.this_ st) (next_size r) in
  CodecBench.loop (CodecBench.body st) = CodecBench.loop st /\
  CodecBench.currentFrameNum (CodecBench.body st)
    = CInt.s32 (CodecBench.currentFrameNum st + 1) /\
  CodecBench.numFrames (CodecBench.body st) = CInt.s32 (CodecBench.numFrames st + 1) /\
  CodecBench.sumInputSize (CodecBench.body st)
    = CInt.u64 (CodecBench.sumInputSize st + next_size r) /\
  CodecBench.sumRawSize (CodecBench.body st) = CInt.u64 (CodecBench.sumRawSize st + size) /\
  (CodecBench.m_compress (CodecBench.this_ st) = false ->
   CodecBench.sumOutputSize (CodecBench.body st)
     = CInt.u64 (CodecBench.sumOutputSize st + size)) /\
  CodecBench.m_videoReader (CodecBench.this_ (CodecBench.body st))
    = (VideoReader.readFrame (junk_frame (CodecBench.iter st)) r).2 /\
  frames_processed (CodecBench.stdout (CodecBench.body st))
    = frames_processed (CodecBench.stdout st) + 1.
Proof.
  intros Ha Hlim r size.
  destruct (readFrame_ahead (junk_frame (CodecBench.iter st)) r Ha)
    as (Hmore & Hfs & _).
  cbv zeta in Hfs. subst size. unfold CodecBench.body. fold r.
  destruct (VideoReader.readFrame (junk_frame (CodecBench.iter st)) r) as [more reader].
  cbn [fst snd] in Hmore, Hfs. subst more.
  replace (CodecBench.m_framesToProcess (CodecBench.this_ st)
           <=? CodecBench.currentFrameNum st) with false
    by (symmetry; apply Z.leb_gt; lia).
  rewrite andb_false_r. cbn [negb orb].
  unfold CodecBench.decompress_if_needed, CodecBench.compress_if_needed, decoded_size.
  cbn [CodecBench.m_decompress CodecBench.m_compress CodecBench.set_videoReader
       CodecBench.set_decompressor CodecBench.m_decompressor CodecBench.currDataSize].
  destruct (CodecBench.m_decompress (CodecBench.this_ st)) eqn:Ed;
    destruct (CodecBench.m_compress (CodecBench.this_ st)) eqn:Ec;
    cbn [CodecBench.loop CodecBench.currentFrameNum CodecBench.numFrames
         CodecBench.sumInputSize CodecBench.sumRawSize CodecBench.sumOutputSize
         CodecBench.this_ CodecBench.stdout CodecBench.currDataSize
         CodecBench.m_videoReader CodecBench.set_videoWriter CodecBench.set_compressor
         CodecBench.set_decompressor CodecBench.set_videoReader];
    rewrite ?decompressFrame_format, ?Hfs;
    (repeat split; try reflexivity; try discriminate);
    rewrite frames_processed_app; reflexivity.
Qed.

(** A turn at the limit ends the loop over the input. *)
Lemma body_end st :
  CodecBench.m_framesToProcess (CodecBench.this_ st) <> 0 ->
  CodecBench.m_framesToProcess (CodecBench.this_ st) <= CodecBench.currentFrameNum st ->
  let r := CodecBench.m_videoReader (CodecBench.this_ st) in
  let r1 := (VideoReader.readFrame (junk_frame (CodecBench.iter st)) r).2 in
  CodecBench.loop (CodecBench.body st) = CInt.s32 (CodecBench.loop st + 1) /\
  CodecBench.currentFrameNum (CodecBench.body st) = 0 /\
  CodecBench.numFrames (CodecBench.body st) = CodecBench.numFrames st /\
  CodecBench.sumInputSize (CodecBench.body st) = CodecBench.sumInputSize st /\
  CodecBench.sumRawSize (CodecBench.body st) = CodecBench.sumRawSize st /\
  CodecBench.sumOutputSize (CodecBench.body st) = CodecBench.sumOutputSize st /\
  CodecBench.stdout (CodecBench.body st) = CodecBench.stdout st /\
  CodecBench.m_videoReader (CodecBench.this_ (CodecBench.body st))
    = (if CInt.s32 (CodecBench.loop st + 1)
          <? CodecBench.m_loopCount (CodecBench.this_ st)
       then VideoReader.rewind r1 else r1).
Proof.
  intros Hnz Hlim r r1. subst r1. unfold CodecBench.body. fold r.
  destruct (VideoReader.readFrame (junk_frame (CodecBench.iter st)) r) as [more reader].
  replace (CodecBench.m_framesToProcess (CodecBench.this_ st)
           <=? CodecBench.currentFrameNum st) with true
    by (symmetry; apply Z.leb_le; lia).
  replace (CodecBench.m_framesToProcess (CodecBench.this_ st) =? 0) with false
    by (symmetry; apply Z.eqb_neq; lia).
  cbn [negb andb]. rewrite orb_true_r. cbn. repeat split; reflexivity.
Qed.

Lemma frames_ahead_first n r :
  frames_ahead (S n) r = true ->
  frame_ahead r = true /\ frames_ahead n (VideoReader.readFrame 0 r).2 = true.
Proof. cbn [frames_ahead]. intros E. apply andb_true_iff in E. exact E. Qed.

(** [n] turns over [n] frames that are there, below the limit. *)
Lemma process_frames n : forall st r,
  same_source (CodecBench.m_videoReader (CodecBench.this_ st)) r ->
  frames_ahead n r = true ->
  0 <= CodecBench.currentFrameNum st ->
  CodecBench.currentFrameNum st + Z.of_nat n
    <= CodecBench.m_framesToProcess (CodecBench.this_ st) ->
  CodecBench.m_framesToProcess (CodecBench.this_ st) < 2 ^ 31 ->
  settings (CodecBench.this_ (turns n st)) = settings (CodecBench.this_ st) /\
  CodecBench.loop (turns n st) = CodecBench.loop st /\
  CodecBench.currentFrameNum (turns n st) = CodecBench.currentFrameNum st + Z.of_nat n /\
  CInt.s32 (CodecBench.numFrames (turns n st))
    = CInt.s32 (CodecBench.numFrames st + Z.of_nat n) /\
  CInt.u64 (CodecBench.sumInputSize (turns n st))
    = CInt.u64 (CodecBench.sumInputSize st + bytes_ahead n r) /\
  CInt.u64 (CodecBench.sumRawSize (turns n st))
    = CInt.u64 (CodecBench.sumRawSize st
                + decoded_bytes_ahead (CodecBench.this_ st) n r) /\
  (CodecBench.m_compress (CodecBench.this_ st) = false ->
   CInt.u64 (CodecBench.sumOutputSize (turns n st))
     = CInt.u64 (CodecBench.sumOutputSize st
                 + decoded_bytes_ahead (CodecBench.this_ st) n r)) /\
  same_source (CodecBench.m_videoReader (CodecBench.this_ (turns n st)))
              (after_frames n r) /\
  frames_processed (CodecBench.stdout (turns n st))
    = frames_processed (CodecBench.stdout st) + Z.of_nat n /\
  CodecBench.iter (turns n st) = (CodecBench.iter st + n)%nat.
Proof.
  induction n as [|n IH]; intros st r Hss Hfa Hc0 Hlim HF.
  - change (turns 0 st) with st. unfold decoded_bytes_ahead. cbn [bytes_ahead after_frames].
    rewrite !Z.add_0_r, Nat.add_0_r, Z.mul_0_l.
    destruct (CodecBench.m_decompress (CodecBench.this_ st));
      rewrite ?Z.add_0_r; repeat split; auto; apply Hss.
  - rewrite turns_S.
    destruct (frames_ahead_first n r Hfa) as (Ha & Hrest).
    destruct (same_source_ahead _ _ Hss) as (Ea & En & _).
    assert (Ha' : frame_ahead (CodecBench.m_videoReader (CodecBench.this_ st)) = true)
      by congruence.
    destruct (body_process st Ha' ltac:(lia))
      as (Bl & Bc & Bn & Bi & Br & Bo & Brd & Bp).
    cbv zeta in *.
    pose proof (body_settings st) as Bs.
    destruct (settings_limits _ _ Bs) as (BF & BK & BC).
    assert (Bc' : CodecBench.currentFrameNum (CodecBench.body st)
                  = CodecBench.currentFrameNum st + 1).
    { rewrite Bc. apply s32_small. lia. }
    destruct (IH (CodecBench.body st) (VideoReader.readFrame 0 r).2)
      as (Is & Il & Ic & Inf & Ii & Ir & Io & Iss & Ip & Iit).
    { rewrite Brd. apply readFrame_same_source; auto. }
    { exact Hrest. }
    { lia. }
    { rewrite BF. lia. }
    { rewrite BF. exact HF. }
    assert (Ed : decoded_bytes_ahead (CodecBench.this_ st) (S n) r
                 = decoded_size (CodecBench.this_ st) (next_size r)
                   + decoded_bytes_ahead (CodecBench.this_ (CodecBench.body st)) n
                       (VideoReader.readFrame 0 r).2).
    { rewrite (settings_decoded_bytes _ _ n _ Bs).
      unfold decoded_bytes_ahead, decoded_size. cbn [bytes_ahead].
      destruct (CodecBench.m_decompress (CodecBench.this_ st)); lia. }
    split; [congruence|]. split; [congruence|]. split; [lia|].
    split; [|split; [|split; [|split; [|split; [|split]]]]].
    + rewrite Inf, Bn, s32_add_l.
      apply f_equal. lia.
    + rewrite Ii, Bi, u64_add_l. cbn [bytes_ahead]. rewrite En. apply f_equal. lia.
    + rewrite Ir, Br, u64_add_l, Ed, En. apply f_equal. lia.
    + intros Hoff. rewrite Io by congruence.
      rewrite (Bo Hoff), u64_add_l, Ed, En. apply f_equal. lia.
    + exact Iss.
    + rewrite Ip, Bp. lia.
    + rewrite Iit, iter_body. lia.
Qed.

Lemma frames_ahead_le i : forall n r,
  (i <= n)%nat -> frames_ahead n r = true -> frames_ahead i r = true.
Proof.
  induction i as [|i IH]; intros n r Hle Hfa; [reflexivity|].
  destruct n as [|n]; [lia|].
  destruct (frames_ahead_first n r Hfa) as (Ha & Hrest).
  cbn [frames_ahead]. rewrite Ha. cbn [andb]. apply (IH n); [lia|exact Hrest].
Qed.

Lemma while_turns n : forall st fuel,
  (forall i, (i < n)%nat -> goes_on (turns i st) = true) ->
  CodecBench.while (n + fuel) st = CodecBench.while fuel (turns n st).
Proof.
  induction n as [|n IH]; intros st fuel Hgo; [reflexivity|].
  change (S n + fuel)%nat with (S (n + fuel)).
  rewrite while_step by (apply (Hgo O); lia).
  rewrite turns_S. apply IH. intros i Hi.
  rewrite <- turns_S. apply Hgo. lia.
Qed.

Lemma s32_range z : - 2 ^ 31 <= CInt.s32 z < 2 ^ 31.
Proof.
  unfold CInt.s32. pose proof (Z.mod_pos_bound (z + 2 ^ 31) (2 ^ 32) ltac:(lia)). lia.
Qed.

Lemma s32_idem z : CInt.s32 (CInt.s32 z) = CInt.s32 z.
Proof. apply s32_small, s32_range. Qed.

Lemma u64_idem z : CInt.u64 (CInt.u64 z) = CInt.u64 z.
Proof. unfold CInt.u64. apply Z.mod_mod. lia. Qed.

Lemma body_counters_ok st : counters_ok st -> counters_ok (CodecBench.body st).
Proof.
  intros (C1 & C2 & C3 & C4). unfold counters_ok, CodecBench.body.
  destruct (VideoReader.readFrame _ _) as [more reader].
  destruct (negb more || _); [cbn; auto|].
  destruct (CodecBench.decompress_if_needed _ _ _ _) as [[[d t1] k1] c1].
  destruct (CodecBench.compress_if_needed _ _ _ _) as [[[c t2] k2] c2].
  cbn. rewrite s32_idem, !u64_idem. auto.
Qed.

Lemma turns_counters_ok n st : counters_ok st -> counters_ok (turns n st).
Proof.
  intros Hc. induction n as [|n IH]; [exact Hc|].
  change (turns (S n) st) with (CodecBench.body (turns n st)).
  apply body_counters_ok, IH.
Qed.

Section OneSource.
Variable r0 : VideoReader.t.
Variable F : Z.
Hypothesis never_stopped : forall n, s_stop n = false.
Hypothesis F_range : 0 < F < 2 ^ 31.
Hypothesis r0_at_start : at_start r0.
Hypothesis r0_frames : frames_ahead (Z.to_nat F) r0 = true.

(** One loop over the input: [F] turns that process a frame and the turn
    that ends the loop, after which the reader is back at the start
    unless it was the last loop. *)
Lemma one_loop st :
  CodecBench.m_framesToProcess (CodecBench.this_ st) = F ->
  CodecBench.currentFrameNum st = 0 ->
  0 <= CodecBench.loop st < CodecBench.m_loopCount (CodecBench.this_ st) ->
  CodecBench.m_loopCount (CodecBench.this_ st) < 2 ^ 31 ->
  same_source (CodecBench.m_videoReader (CodecBench.this_ st)) r0 ->
  (forall fuel,
     CodecBench.while (S (Z.to_nat F) + fuel) st
       = CodecBench.while fuel (turns (S (Z.to_nat F)) st)) /\
  settings (CodecBench.this_ (turns (S (Z.to_nat F)) st)) = settings (CodecBench.this_ st) /\
  CodecBench.loop (turns (S (Z.to_nat F)) st) = CodecBench.loop st + 1 /\
  CodecBench.currentFrameNum (turns (S (Z.to_nat F)) st) = 0 /\
  CInt.s32 (CodecBench.numFrames (turns (S (Z.to_nat F)) st))
    = CInt.s32 (CodecBench.numFrames st + F) /\
  CInt.u64 (CodecBench.sumInputSize (turns (S (Z.to_nat F)) st))
    = CInt.u64 (CodecBench.sumInputSize st + bytes_ahead (Z.to_nat F) r0) /\
  CInt.u64 (CodecBench.sumRawSize (turns (S (Z.to_nat F)) st))
    = CInt.u64 (CodecBench.sumRawSize st
                + decoded_bytes_ahead (CodecBench.this_ st) (Z.to_nat F) r0) /\
  (CodecBench.m_compress (CodecBench.this_ st) = false ->
   CInt.u64 (CodecBench.sumOutputSize (turns (S (Z.to_nat F)) st))
     = CInt.u64 (CodecBench.sumOutputSize st
                 + decoded_bytes_ahead (CodecBench.this_ st) (Z.to_nat F) r0)) /\
  (CodecBench.loop st + 1 < CodecBench.m_loopCount (CodecBench.this_ st) ->
   same_source (CodecBench.m_videoReader (CodecBench.this_ (turns (S (Z.to_nat F)) st))) r0) /\
  frames_processed (CodecBench.stdout (turns (S (Z.to_nat F)) st))
    = frames_processed (CodecBench.stdout st) + F.
Proof.
  intros HF Hc0 Hloop HK Hss.
  set (Fn := Z.to_nat F) in *.
  assert (HFn : Z.of_nat Fn = F) by (subst Fn; lia).
  assert (Hturn : forall i, (i <= Fn)%nat ->
            settings (CodecBench.this_ (turns i st)) = settings (CodecBench.this_ st) /\
            CodecBench.loop (turns i st) = CodecBench.loop st /\
            CodecBench.iter (turns i st) = (CodecBench.iter st + i)%nat).
  { intros i Hi.
    destruct (process_frames i st r0 Hss (frames_ahead_le i Fn r0 Hi r0_frames))
      as (A & B & _ & _ & _ & _ & _ & _ & _ & C); try lia. auto. }
  assert (Hgo : forall i, (i < S Fn)%nat -> goes_on (turns i st) = true).
  { intros i Hi. destruct (Hturn i ltac:(lia)) as (A & B & _).
    destruct (settings_limits _ _ A) as (_ & AK & _).
    unfold goes_on. rewrite never_stopped, B, AK. cbn [negb andb].
    apply Z.ltb_lt. lia. }
  split; [intros fuel; apply while_turns; exact Hgo|].
  destruct (process_frames Fn st r0 Hss r0_frames)
    as (Ps & Pl & Pc & Pn & Pi & Pr & Po & Pss & Pp & Pit); try lia.
  destruct (settings_limits _ _ Ps) as (PF & PK & PC).
  change (turns (S Fn) st) with (CodecBench.body (turns Fn st)).
  destruct (body_end (turns Fn st)) as (El & Ec & En & Ei & Er & Eo & Es & Erd);
    try (rewrite PF; lia). cbv zeta in Erd.
  pose proof (body_settings (turns Fn st)) as Bs.
  assert (El' : CodecBench.loop (CodecBench.body (turns Fn st)) = CodecBench.loop st + 1).
  { rewrite El, Pl. apply s32_small. lia. }
  split; [congruence|]. split; [exact El'|]. split; [exact Ec|].
  split; [rewrite En, Pn; apply f_equal; lia|].
  split; [rewrite Ei; exact Pi|].
  split; [rewrite Er; exact Pr|].
  split; [intros Hoff; rewrite Eo; apply Po; exact Hoff|].
  split; [|rewrite Es, Pp; lia].
  intros Hmore. rewrite Erd, <- El, El', PK.
  replace (CodecBench.loop st + 1 <? CodecBench.m_loopCount (CodecBench.this_ st))
    with true by (symmetry; apply Z.ltb_lt; lia).
  destruct (readFrame_preserves
              (junk_frame (CodecBench.iter (turns Fn st)))
              (CodecBench.m_videoReader (CodecBench.this_ (turns Fn st))))
    as (R1 & R2 & R3 & R4). cbv zeta in *.
  destruct (after_frames_preserves Fn r0) as (A1 & A2 & A3 & A4).
  destruct Pss as (S1 & S2 & S3 & S4).
  destruct r0_at_start as (Hg & Hp).
  split; [|split; [|split]].
  - rewrite rewind_stream, R1, R4, S1, S4, A1, A4. symmetry. apply stream_at; auto.
  - cbn [VideoReader.rewind VideoReader.m_raw]. congruence.
  - cbn [VideoReader.rewind VideoReader.m_biFormat]. congruence.
  - cbn [VideoReader.rewind VideoReader.m_headerSize]. congruence.
Qed.

(** [j] loops over the input, the last of them the [m_loopCount]-th. *)
Lemma run_loops (j : nat) : forall st,
  CodecBench.m_framesToProcess (CodecBench.this_ st) = F ->
  CodecBench.currentFrameNum st = 0 ->
  0 <= CodecBench.loop st ->
  CodecBench.loop st + Z.of_nat j = CodecBench.m_loopCount (CodecBench.this_ st) ->
  CodecBench.m_loopCount (CodecBench.this_ st) < 2 ^ 31 ->
  (j <> O -> same_source (CodecBench.m_videoReader (CodecBench.this_ st)) r0) ->
  exists st',
    (forall fuel,
       CodecBench.while (j * S (Z.to_nat F) + fuel) st = Some st') /\
    (exists n, st' = turns n st) /\
    CInt.s32 (CodecBench.numFrames st')
      = CInt.s32 (CodecBench.numFrames st + Z.of_nat j * F) /\
    CInt.u64 (CodecBench.sumInputSize st')
      = CInt.u64 (CodecBench.sumInputSize st
                  + Z.of_nat j * bytes_ahead (Z.to_nat F) r0) /\
    CInt.u64 (CodecBench.sumRawSize st')
      = CInt.u64 (CodecBench.sumRawSize st
                  + Z.of_nat j * decoded_bytes_ahead (CodecBench.this_ st) (Z.to_nat F) r0) /\
    (CodecBench.m_compress (CodecBench.this_ st) = false ->
     CInt.u64 (CodecBench.sumOutputSize st')
       = CInt.u64 (CodecBench.sumOutputSize st
                   + Z.of_nat j * decoded_bytes_ahead (CodecBench.this_ st) (Z.to_nat F) r0)) /\
    frames_processed (CodecBench.stdout st')
      = frames_processed (CodecBench.stdout st) + Z.of_nat j * F.
Proof.
  induction j as [|j IH]; intros st HF Hc0 Hl0 HlK HK Hss.
  - exists st. split; [|split; [exists O; reflexivity|]].
    + intros fuel. apply while_done. rewrite never_stopped. cbn [negb andb].
      apply Z.ltb_ge. lia.
    + rewrite !Z.mul_0_l, !Z.add_0_r. repeat split; auto.
  - destruct (one_loop st HF Hc0 ltac:(lia) HK (Hss ltac:(lia)))
      as (Lw & Ls & Ll & Lc & Ln & Li & Lr & Lo & Lss & Lp).
    destruct (settings_limits _ _ Ls) as (LF & LK & LC).
    destruct (IH (turns (S (Z.to_nat F)) st)) as (st' & Iw & (n & Iturns) & In' & Ii & Ir & Io & Ip);
      try congruence; try lia.
    { intros Hj. apply Lss. lia. }
    exists st'. split; [|split].
    + intros fuel.
      replace (S j * S (Z.to_nat F) + fuel)%nat
        with (S (Z.to_nat F) + (j * S (Z.to_nat F) + fuel))%nat by lia.
      rewrite Lw. apply Iw.
    + exists (n + S (Z.to_nat F))%nat. rewrite Iturns. unfold turns.
      symmetry. apply Nat.iter_add.
    + rewrite (settings_decoded_bytes _ _ _ _ Ls) in Ir, Io.
      split; [|split; [|split; [|split]]].
      * rewrite In', <- s32_add_l, Ln, s32_add_l. apply f_equal. lia.
      * rewrite Ii, <- u64_add_l, Li, u64_add_l. apply f_equal. lia.
      * rewrite Ir, <- u64_add_l, Lr, u64_add_l. apply f_equal. lia.
      * intros Hoff. rewrite Io by congruence.
        rewrite <- u64_add_l, (Lo Hoff), u64_add_l. apply f_equal. lia.
      * rewrite Ip, Lp. lia.
Qed.

End OneSource.

End Loops.

(** A reader as [open] or [openRaw] left it, with a frame ahead and an
    offset that fits, is at its start. *)
Lemma opened_at_start fs r :
  opened fs r ->
  (VideoReader.m_raw r = false ->
   8 + Z.of_nat (length (VideoReader.getFormat r)) < 2 ^ 32) ->
  frame_ahead r = true ->
  at_start r.
Proof.
  intros Hop Hfit Ha.
  assert (Hg : IStream.good (VideoReader.m_inFile r) = true).
  { unfold frame_ahead in Ha. apply andb_true_iff in Ha. apply Ha. }
  split; [exact Hg|].
  destruct Hop as [(infile & jm & js & r0 & Ho)|(infile & format & w & h & r0 & Ho)].
  - destruct (open_state _ _ _ _ _ _ Ho) as (Hraw & Hhs & [(_ & Hp)|(He & _)]).
    + rewrite Hp, Hhs. f_equal. symmetry. apply u32_small. specialize (Hfit Hraw). lia.
    + destruct (good_flags _ Hg) as (He' & _). congruence.
  - destruct (openRaw_state _ _ _ _ _ _ _ Ho) as (_ & Hhs & _ & Hp).
    rewrite Hp, Hhs. reflexivity.
Qed.

Section Totals.
Context `{Host}.

Lemma enter_counters_ok cb out : counters_ok (CodecBench.enter cb out).
Proof. repeat split. Qed.

Lemma loop_totals_gen fs (cb : CodecBench.t) (out : list event) :
  (forall n, s_stop n = false) ->
  0 <= CodecBench.m_loopCount cb < 2 ^ 31 ->
  0 < CodecBench.m_framesToProcess cb < 2 ^ 31 ->
  opened fs (CodecBench.m_videoReader cb) ->
  (VideoReader.m_raw (CodecBench.m_videoReader cb) = false ->
   8 + Z.of_nat (length (VideoReader.getFormat (CodecBench.m_videoReader cb))) < 2 ^ 32) ->
  frames_ahead (Z.to_nat (CodecBench.m_framesToProcess cb)) (CodecBench.m_videoReader cb)
    = true ->
  exists stK st1,
    (forall fuel,
       (Z.to_nat (CodecBench.m_loopCount cb * (CodecBench.m_framesToProcess cb + 1))
        <= fuel)%nat ->
       CodecBench.while fuel (CodecBench.enter cb out) = Some stK) /\
    (forall fuel,
       (Z.to_nat (CodecBench.m_framesToProcess cb + 1) <= fuel)%nat ->
       CodecBench.while fuel (CodecBench.enter (with_loopCount 1 cb) out) = Some st1) /\
    frames_processed (CodecBench.stdout stK)
      = frames_processed out
        + CodecBench.m_loopCount cb * CodecBench.m_framesToProcess cb /\
    frames_processed (CodecBench.stdout st1)
      = frames_processed out + CodecBench.m_framesToProcess cb /\
    CodecBench.numFrames st1 = CodecBench.m_framesToProcess cb /\
    CodecBench.numFrames stK
      = CInt.s32 (CodecBench.m_loopCount cb * CodecBench.numFrames st1) /\
    CodecBench.sumInputSize stK
      = CInt.u64 (CodecBench.m_loopCount cb * CodecBench.sumInputSize st1) /\
    CodecBench.sumRawSize stK
      = CInt.u64 (CodecBench.m_loopCount cb * CodecBench.sumRawSize st1) /\
    (CodecBench.m_compress cb = false ->
     CodecBench.sumOutputSize stK
       = CInt.u64 (CodecBench.m_loopCount cb * CodecBench.sumOutputSize st1)).
Proof.
  intros Hns HK HF Hop Hfit Hfa.
  set (K := CodecBench.m_loopCount cb) in *.
  set (F := CodecBench.m_framesToProcess cb) in *.
  set (r0 := CodecBench.m_videoReader cb) in *.
  assert (Hst : at_start r0).
  { apply (opened_at_start fs); auto.
    apply (frames_ahead_le 1 (Z.to_nat F) r0) in Hfa; [|lia].
    cbn [frames_ahead] in Hfa. apply andb_true_iff in Hfa. apply Hfa. }
  destruct (run_loops r0 F Hns HF Hst Hfa (Z.to_nat K) (CodecBench.enter cb out))
    as (stK & Kw & (nK & KT) & Kn & Ki & Kr & Ko & Kp);
    try reflexivity; try (cbn; lia).
  { intros _. apply same_source_refl. }
  destruct (run_loops r0 F Hns HF Hst Hfa 1%nat
              (CodecBench.enter (with_loopCount 1 cb) out))
    as (st1 & Ow & (n1 & OT) & On & Oi & Or & Oo & Op);
    try reflexivity; try (cbn; lia).
  { intros _. apply same_source_refl. }
  pose proof (turns_counters_ok nK _ (enter_counters_ok cb out)) as (CK1 & CK2 & CK3 & CK4).
  pose proof (turns_counters_ok n1 _ (enter_counters_ok (with_loopCount 1 cb) out))
    as (C11 & C12 & C13 & C14).
  rewrite <- KT in CK1, CK2, CK3, CK4. rewrite <- OT in C11, C12, C13, C14.
  cbn [CodecBench.enter CodecBench.numFrames CodecBench.sumInputSize
       CodecBench.sumRawSize CodecBench.sumOutputSize CodecBench.stdout
       CodecBench.this_ CodecBench.m_compress with_loopCount] in *.
  change (decoded_bytes_ahead (with_loopCount 1 cb) (Z.to_nat F) r0)
    with (decoded_bytes_ahead cb (Z.to_nat F) r0) in *.
  rewrite Z2Nat.id in * by lia.
  rewrite !Z.add_0_l, ?Z.mul_1_l in *.
  assert (Hnl : frames_processed (out ++ [Text nl]) = frames_processed out).
  { rewrite frames_processed_app.
    assert (E : frames_processed [Text nl] = 0) by reflexivity. lia. }
  rewrite Hnl in Kp, Op.
  exists stK, st1.
  split.
  { intros fuel Hfuel.
    assert (E : Z.to_nat (K * (F + 1)) = (Z.to_nat K * S (Z.to_nat F))%nat).
    { rewrite Z2Nat.inj_mul by lia. apply f_equal. lia. }
    replace fuel with (Z.to_nat K * S (Z.to_nat F)
                       + (fuel - Z.to_nat K * S (Z.to_nat F)))%nat by lia.
    apply Kw. }
  split.
  { intros fuel Hfuel.
    replace fuel with (1 * S (Z.to_nat F) + (fuel - 1 * S (Z.to_nat F)))%nat by lia.
    apply Ow. }
  split; [exact Kp|]. split; [exact Op|].
  assert (E1 : CodecBench.numFrames st1 = F).
  { rewrite <- C11, On. apply s32_small. lia. }
  split; [exact E1|].
  split; [rewrite <- CK1, Kn, E1; reflexivity|].
  split.
  { rewrite <- CK2, Ki, <- C12, Oi. unfold CInt.u64.
    rewrite Z.mul_mod_idemp_r by lia. reflexivity. }
  split.
  { rewrite <- CK3, Kr, <- C13, Or. unfold CInt.u64.
    rewrite Z.mul_mod_idemp_r by lia. reflexivity. }
  intros Hoff. rewrite <- CK4, (Ko Hoff), <- C14, (Oo Hoff). unfold CInt.u64.
  rewrite Z.mul_mod_idemp_r by lia. reflexivity.
Qed.

(** C4 (as amended). Without an interrupt, with a frame limit F > 0, a
    loop count K >= 0 and a source that holds at least F frames behind a
    header whose offset fits 32 bits, the loop ends after K * (F + 1)
    turns; it has processed K * F frames, and the frame count, the input
    bytes and the post-decode bytes are K times those of the single loop,
    in the counters' 32 and 64 bits.  The output bytes are K times the
    single loop's when the encode stage is off. *)
Theorem loop_totals (fs : filesystem) (cb : CodecBench.t) (out : list event) :
  (forall n, s_stop n = false) ->
  0 <= CodecBench.m_loopCount cb < 2 ^ 31 ->
  0 < CodecBench.m_framesToProcess cb < 2 ^ 31 ->
  opened fs (CodecBench.m_videoReader cb) ->
  (VideoReader.m_raw (CodecBench.m_videoReader cb) = false ->
   8 + Z.of_nat (length (VideoReader.getFormat (CodecBench.m_videoReader cb))) < 2 ^ 32) ->
  frames_ahead (Z.to_nat (CodecBench.m_framesToProcess cb)) (CodecBench.m_videoReader cb)
    = true ->
  exists stK st1,
    (forall fuel,
       (Z.to_nat (CodecBench.m_loopCount cb * (CodecBench.m_framesToProcess cb + 1))
        <= fuel)%nat ->
       CodecBench.while fuel (CodecBench.enter cb out) = Some stK) /\
    (forall fuel,
       (Z.to_nat (CodecBench.m_framesToProcess cb + 1) <= fuel)%nat ->
       CodecBench.while fuel (CodecBench.enter (with_loopCount 1 cb) out) = Some st1) /\
    frames_processed (CodecBench.stdout stK)
      = frames_processed out
        + CodecBench.m_loopCount cb * CodecBench.m_framesToProcess cb /\
    frames_processed (CodecBench.stdout st1)
      = frames_processed out + CodecBench.m_framesToProcess cb /\
    CodecBench.numFrames st1 = CodecBench.m_framesToProcess cb /\
    CodecBench.numFrames stK
      = CInt.s32 (CodecBench.m_loopCount cb * CodecBench.numFrames st1) /\
    CodecBench.sumInputSize stK
      = CInt.u64 (CodecBench.m_loopCount cb * CodecBench.sumInputSize st1) /\
    CodecBench.sumRawSize stK
      = CInt.u64 (CodecBench.m_loopCount cb * CodecBench.sumRawSize st1) /\
    (CodecBench.m_compress cb = false ->
     CodecBench.sumOutputSize stK
       = CInt.u64 (CodecBench.m_loopCount cb * CodecBench.sumOutputSize st1)).
Proof. apply loop_totals_gen. Qed.

End Totals.

Lemma loop_totals_witness :
  ((forall n, s_stop (Host := Sample.plain) n = false) /\
   0 <= CodecBench.m_loopCount (Sample.initialised Sample.plain Sample.input Sample.loop_argv).1
     < 2 ^ 31 /\
   0 < CodecBench.m_framesToProcess
         (Sample.initialised Sample.plain Sample.input Sample.loop_argv).1 < 2 ^ 31 /\
   opened Sample.input
     (CodecBench.m_videoReader
        (Sample.initialised Sample.plain Sample.input Sample.loop_argv).1) /\
   frames_ahead 2
     (CodecBench.m_videoReader
        (Sample.initialised Sample.plain Sample.input Sample.loop_argv).1) = true) /\
  exists stK st1,
    CodecBench.while 9 (CodecBench.enter
                          (Sample.initialised Sample.plain Sample.input Sample.loop_argv).1
                          (Sample.initialised Sample.plain Sample.input Sample.loop_argv).2)
      = Some stK /\
    CodecBench.while 3 (CodecBench.enter
                          (with_loopCount 1
                             (Sample.initialised Sample.plain Sample.input Sample.loop_argv).1)
                          (Sample.initialised Sample.plain Sample.input Sample.loop_argv).2)
      = Some st1 /\
    CodecBench.numFrames stK = CInt.s32 (3 * CodecBench.numFrames st1) /\
    CodecBench.sumInputSize stK = CInt.u64 (3 * CodecBench.sumInputSize st1) /\
    CodecBench.sumRawSize stK = CInt.u64 (3 * CodecBench.sumRawSize st1) /\
    CodecBench.sumOutputSize stK = CInt.u64 (3 * CodecBench.sumOutputSize st1).
Proof.
  set (cb := (Sample.initialised Sample.plain Sample.input Sample.loop_argv).1).
  set (out := (Sample.initialised Sample.plain Sample.input Sample.loop_argv).2).
  assert (H1 : forall n, s_stop (Host := Sample.plain) n = false) by (intros n; reflexivity).
  assert (EK : CodecBench.m_loopCount cb = 3) by (vm_compute; reflexivity).
  assert (EF : CodecBench.m_framesToProcess cb = 2) by (vm_compute; reflexivity).
  assert (H2 : 0 <= CodecBench.m_loopCount cb < 2 ^ 31) by (rewrite EK; lia).
  assert (H3 : 0 < CodecBench.m_framesToProcess cb < 2 ^ 31) by (rewrite EF; lia).
  assert (H4 : opened Sample.input (CodecBench.m_videoReader cb)).
  { left. exists "in.cb"%string, 0, 0, VideoReader.ctor. vm_compute. reflexivity. }
  assert (H5 : VideoReader.m_raw (CodecBench.m_videoReader cb) = false ->
               8 + Z.of_nat (length (VideoReader.getFormat (CodecBench.m_videoReader cb)))
                 < 2 ^ 32) by (intros _; vm_compute; reflexivity).
  assert (H6 : frames_ahead (Z.to_nat (CodecBench.m_framesToProcess cb))
                            (CodecBench.m_videoReader cb) = true)
    by (vm_compute; reflexivity).
  assert (H7 : CodecBench.m_compress cb = false) by (vm_compute; reflexivity).
  split; [ repeat split; try assumption; apply H2 || apply H3 | ].
  destruct (loop_totals Sample.input cb out H1 H2 H3 H4 H5 H6)
    as (stK & st1 & WK & W1 & _ & _ & _ & En & Ei & Er & Eo).
  exists stK, st1.
  rewrite EK, EF in WK. rewrite EF in W1. rewrite EK in En, Ei, Er, Eo.
  split; [ apply WK; simpl; lia | ].
  split; [ apply W1; simpl; lia | ].
  split; [ exact En | ]. split; [ exact Ei | ]. split; [ exact Er | ].
  exact (Eo H7).
Defined.

(** C4, as stated, fails for the output bytes when an encoder keeps state
    across the loops: the sample compressor spends two bytes on the first
    frame it ever sees and one on each later frame, so a single loop over
    two frames puts out 3 bytes and two loops put out 5. *)
Lemma loop_totals_counterexample :
  exists stK st1,
    CodecBench.m_loopCount
      (Sample.initialised Sample.compressing Sample.input Sample.twice_argv).1 = 2 /\
    CodecBench.m_framesToProcess
      (Sample.initialised Sample.compressing Sample.input Sample.twice_argv).1 = 2 /\
    frames_ahead 2
      (CodecBench.m_videoReader
         (Sample.initialised Sample.compressing Sample.input Sample.twice_argv).1) = true /\
    CodecBench.while 6
      (CodecBench.enter
         (Sample.initialised Sample.compressing Sample.input Sample.twice_argv).1
         (Sample.initialised Sample.compressing Sample.input Sample.twice_argv).2)
      = Some stK /\
    CodecBench.while 3
      (CodecBench.enter
         (with_loopCount 1
            (Sample.initialised Sample.compressing Sample.input Sample.twice_argv).1)
         (Sample.initialised Sample.compressing Sample.input Sample.twice_argv).2)
      = Some st1 /\
    CodecBench.numFrames stK = 4 /\ CodecBench.numFrames st1 = 2 /\
    CodecBench.sumOutputSize st1 = 3 /\
    CodecBench.sumOutputSize stK = 5.
Proof.
  eexists _, _.
  split; [ vm_compute; reflexivity | ].
  split; [ vm_compute; reflexivity | ].
  split; [ vm_compute; reflexivity | ].
  split; [ vm_compute; reflexivity | ].
  split; [ vm_compute; reflexivity | ].
  vm_compute. auto.
Qed.

(** * The format code shown in the info lines *)

Lemma length_string_of_list_byte (l : list byte) :
  String.length (string_of_list_byte l) = length l.
Proof.
  unfold string_of_list_byte. induction l as [|b l IH]; [reflexivity|].
  cbn. rewrite IH. reflexivity.
Qed.

Lemma length_string_app (s1 s2 : string) :
  String.length (s1 +:+ s2) = (String.length s1 + String.length s2)%nat.
Proof.
  induction s1 as [|c s1 IH]; [reflexivity|].
  change (String c s1 +:+ s2) with (String c (s1 +:+ s2)).
  cbn [String.length]. rewrite IH. reflexivity.
Qed.

Lemma length_decimal fuel : forall n acc,
  (String.length (Stdio.decimal fuel n acc) <= fuel + String.length acc)%nat.
Proof.
  induction fuel as [|fuel IH]; intros n acc; cbn [Stdio.decimal]; [lia|].
  destruct (n / 10 =? 0); [cbn; lia|].
  etransitivity; [apply IH|]. cbn. lia.
Qed.

Lemma length_d n : (String.length (Stdio.d n) <= 11)%nat.
Proof.
  unfold Stdio.d. destruct (n <? 0).
  - pose proof (length_decimal 10 (- n) EmptyString). cbn [String.length] in *. lia.
  - pose proof (length_decimal 10 n EmptyString). cbn [String.length] in *. lia.
Qed.

Lemma length_hex digits : forall n acc,
  String.length (Stdio.hex digits n acc) = (digits + String.length acc)%nat.
Proof.
  induction digits as [|k IH]; intros n acc; cbn [Stdio.hex]; [reflexivity|].
  rewrite IH. cbn. lia.
Qed.

(** X1. Whatever [fcc] and [bpp] are, the string [printfcc] builds has at
    most 14 characters: with its terminator it fits the 32 bytes of
    [fccstr] in [PrintBitmapInfo]. *)
Theorem printfcc_fits_its_buffer (fcc bpp : Z) :
  (String.length (printfcc fcc bpp) <= 14)%nat /\
  (String.length (printfcc fcc bpp) + 1 <= 32)%nat.
Proof.
  assert (Hlen : (String.length (printfcc fcc bpp) <= 14)%nat).
  { unfold printfcc.
    destruct (_ && _).
    - rewrite length_string_of_list_byte, length_bytes_of. lia.
    - destruct (fcc =? 0).
      + rewrite length_string_app. pose proof (length_d bpp). cbn. lia.
      + rewrite length_string_app. unfold Stdio.X08. rewrite length_hex. cbn. lia. }
  lia.
Qed.

(** Bits that do not overlap add up. *)
Lemma lor_shiftl_add a b n :
  0 <= n -> 0 <= a < 2 ^ n -> Z.lor a (Z.shiftl b n) = a + b * 2 ^ n.
Proof.
  intros Hn Ha. rewrite Z.shiftl_mul_pow2 by lia.
  symmetry. apply Z.add_nocarry_lor.
  apply Z.bits_inj'. intros m Hm. rewrite Z.land_spec, Z.bits_0.
  destruct (Z.lt_ge_cases m n).
  - rewrite Z.mul_pow2_bits_low by lia. apply andb_false_r.
  - rewrite <- (Z.mod_small a (2 ^ n)) by lia.
    rewrite Z.mod_pow2_bits_high by lia. reflexivity.
Qed.

Lemma code_range (c : ascii) : 0 <= Z.of_N (Ascii.N_of_ascii c) < 256.
Proof. pose proof (Ascii.N_ascii_bounded c). lia. Qed.

Lemma mmioFOURCC_value (a b c d : ascii) :
  Resolver.mmioFOURCC a b c d
    = Z.of_N (Ascii.N_of_ascii a)
      + 256 * (Z.of_N (Ascii.N_of_ascii b)
               + 256 * (Z.of_N (Ascii.N_of_ascii c)
                        + 256 * Z.of_N (Ascii.N_of_ascii d))).
Proof.
  unfold Resolver.mmioFOURCC.
  pose proof (code_range a). pose proof (code_range b).
  pose proof (code_range c). pose proof (code_range d).
  rewrite (lor_shiftl_add _ _ 8) by lia.
  rewrite (lor_shiftl_add _ _ 16) by lia.
  rewrite (lor_shiftl_add _ _ 24) by lia.
  lia.
Qed.

Lemma low_byte a r : 0 <= a < 256 -> (a + 256 * r) mod 256 = a.
Proof. intros Ha. symmetry. apply (Z.mod_unique _ _ r); lia. Qed.

Lemma high_bytes a r : 0 <= a < 256 -> (a + 256 * r) / 256 = r.
Proof. intros Ha. symmetry. apply (Z.div_unique _ _ _ a); lia. Qed.

Lemma ascii_of_low_byte (c : ascii) r :
  Ascii.ascii_of_byte (Mem.byte_of_Z (Z.of_N (Ascii.N_of_ascii c) + 256 * r)) = c.
Proof.
  unfold Mem.byte_of_Z. rewrite low_byte by apply code_range.
  rewrite N2Z.id, <- Ascii.byte_of_ascii_via_N. cbn [default].
  apply Ascii.ascii_of_byte_of_ascii.
Qed.

Lemma land_255 z : Z.land z 255 = z mod 256.
Proof. change 255 with (Z.ones 8). rewrite Z.land_ones by lia. reflexivity. Qed.

Lemma shiftr_bytes z k : 0 <= k -> Z.shiftr z (8 * k) = z / 256 ^ k.
Proof.
  intros Hk. rewrite Z.shiftr_div_pow2 by lia.
  rewrite Z.pow_mul_r by lia. reflexivity.
Qed.

(** X2. A code made of four printable characters is shown as those four
    characters, in the order [mmioFOURCC] takes them, whatever the bit
    count is. *)
Theorem printfcc_shows_the_four_characters (a b c d : ascii) (bpp : Z) :
  printable a -> printable b -> printable c -> printable d ->
  printfcc (Resolver.mmioFOURCC a b c d) bpp
    = String a (String b (String c (String d EmptyString))).
Proof.
  unfold printable. intros Ha Hb Hc Hd.
  rewrite mmioFOURCC_value. unfold printfcc.
  pose proof (code_range a). pose proof (code_range b).
  pose proof (code_range c). pose proof (code_range d).
  set (A := Z.of_N (Ascii.N_of_ascii a)) in *.
  set (B := Z.of_N (Ascii.N_of_ascii b)) in *.
  set (C := Z.of_N (Ascii.N_of_ascii c)) in *.
  set (D := Z.of_N (Ascii.N_of_ascii d)) in *.
  change 0xFF with 255. rewrite !land_255.
  rewrite (shiftr_bytes _ 1), (shiftr_bytes _ 2) by lia.
  change 24 with (8 * 3). rewrite (shiftr_bytes _ 3) by lia.
  change (256 ^ 1) with 256. change (256 ^ 2) with (256 * 256).
  change (256 ^ 3) with (256 * 256 * 256).
  rewrite <- !Z.div_div by lia.
  rewrite !high_bytes by lia. rewrite !low_byte by lia.
  replace (D mod 256) with D by (symmetry; apply Z.mod_small; lia).
  rewrite Ha, Hb, Hc, Hd. cbn [andb].
  cbn [Mem.bytes_of string_of_list_byte map string_of_list_ascii].
  rewrite !high_bytes by lia.
  subst A B C D. rewrite !ascii_of_low_byte.
  replace (Z.of_N (Ascii.N_of_ascii d)) with (Z.of_N (Ascii.N_of_ascii d) + 256 * 0) by lia.
  rewrite ascii_of_low_byte. reflexivity.
Qed.

Lemma printfcc_shows_the_four_characters_witness :
  (printable "Y" /\ printable "8" /\ printable " " /\ printable " ") /\
  printfcc (Resolver.mmioFOURCC "Y" "8" " " " ") 8 = "Y8  "%string.
Proof.
  split; [repeat split; reflexivity|].
  apply printfcc_shows_the_four_characters; reflexivity.
Defined.

(** X3. For every supported format name the descriptor [GetDecompFormat]
    fills in is shown by [printfcc] under the name a user expects,
    whatever the width and the height are: the four-character formats
    under their own name, RGB24 and RGB32 (and their bgr aliases) as
    RGB with the bit count, Y8 with its two spaces of padding. *)
Theorem supported_formats_are_shown_by_name (format : string) (w h : Z) :
  format ∈ supported ->
  exists bi,
    Resolver.GetDecompFormat format w h = Ok bi /\
    printfcc (biCompression bi) (biBitCount bi) = shown_as format.
Proof.
  intros Hin. unfold supported in Hin.
  repeat (apply elem_of_cons in Hin; destruct Hin as [->|Hin]);
    [ .. | by apply elem_of_nil in Hin ];
    (eexists; split;
     [ unfold Resolver.GetDecompFormat; rewrite ?strcmp_zero; simpl bool_decide;
       cbn [orb]; reflexivity
     | cbn [biCompression biBitCount Resolver.layout]; vm_compute; reflexivity ]).
Qed.

Lemma supported_formats_are_shown_by_name_witness :
  "bgr32"%string ∈ supported /\
  exists bi,
    Resolver.GetDecompFormat "bgr32" 640 (- 480) = Ok bi /\
    printfcc (biCompression bi) (biBitCount bi) = "RGB32"%string.
Proof.
  split; [unfold supported; set_solver|].
  apply (supported_formats_are_shown_by_name "bgr32" 640 (- 480)).
  unfold supported; set_solver.
Defined.

(** * The command-line parser *)

Ltac not_in_list :=
  repeat (apply not_elem_of_cons; split; [discriminate|]); apply not_elem_of_nil.

(** An option that is not scanned, and is not the one a value is awaited
    for, keeps its entry. *)
Lemma scan_untouched args : forall last t k,
  k ∉ args -> last <> Some k ->
  ArgvParser.argmap (ArgvParser.scan args last t) !! k = ArgvParser.argmap t !! k.
Proof.
  induction args as [|a rest IH]; intros last t k Hk Hlast; [reflexivity|].
  apply not_elem_of_cons in Hk as [Hne Hrest].
  cbn [ArgvParser.scan]. destruct (ArgvParser.is_switch a).
  - rewrite IH by (try done; congruence).
    cbn [ArgvParser.argmap]. by rewrite lookup_insert_ne.
  - destruct last as [l|].
    + rewrite IH by done. cbn [ArgvParser.argmap].
      rewrite lookup_insert_ne; [done|congruence].
    + rewrite IH by done. reflexivity.
Qed.

(** Scanning a command line in two parts. *)
Lemma scan_app pre : forall rest last t,
  exists last' t',
    ArgvParser.scan (pre ++ rest) last t = ArgvParser.scan rest last' t'.
Proof.
  induction pre as [|a pre IH]; intros rest last t; [by eexists _, _|].
  cbn [app ArgvParser.scan]. destruct (ArgvParser.is_switch a); [apply IH|].
  destruct last; apply IH.
Qed.

(** The keys of the map are the switches that were scanned. *)
Lemma scan_keys args : forall last t k,
  (forall l, last = Some l -> is_Some (ArgvParser.argmap t !! l)) ->
  is_Some (ArgvParser.argmap (ArgvParser.scan args last t) !! k)
  <-> is_Some (ArgvParser.argmap t !! k)
      \/ (k ∈ args /\ ArgvParser.is_switch k = true).
Proof.
  induction args as [|a rest IH]; intros last t k Hlast.
  - cbn [ArgvParser.scan]. split; [by left|].
    intros [?|[Hin _]]; [done|by apply elem_of_nil in Hin].
  - cbn [ArgvParser.scan]. destruct (ArgvParser.is_switch a) eqn:Ea.
    + rewrite IH; cbn [ArgvParser.argmap].
      2:{ intros l [= <-]. rewrite lookup_insert_eq. by eexists. }
      destruct (decide (k = a)) as [->|Hne].
      * rewrite lookup_insert_eq. split; [intros _|intros _; left; by eexists].
        right. split; [apply elem_of_cons; by left|done].
      * rewrite lookup_insert_ne by done. rewrite elem_of_cons.
        split; [intros [?|[? ?]]; [by left|right; split; [by right|done]]|].
        intros [?|[[->|?] ?]]; [by left|done|by right].
    + destruct last as [l|].
      * rewrite IH; cbn [ArgvParser.argmap]; [|done].
        destruct (decide (k = l)) as [->|Hne].
        -- rewrite lookup_insert_eq. split; [intros _; left; by apply Hlast|].
           intros _. left. by eexists.
        -- rewrite lookup_insert_ne by done. rewrite elem_of_cons.
           split; [intros [?|[? ?]]; [by left|right; split; [by right|done]]|].
           intros [?|[[->|?] Hs]]; [by left|congruence|].
           right. done.
      * rewrite IH; cbn [ArgvParser.argmap]; [|done].
        rewrite elem_of_cons.
        split; [intros [?|[? ?]]; [by left|right; split; [by right|done]]|].
        intros [?|[[->|?] Hs]]; [by left|congruence|].
        right. done.
Qed.

Lemma ctor_keys argv k :
  is_Some (ArgvParser.argmap (ArgvParser.ctor argv) !! k)
  <-> k ∈ drop 1 argv /\ ArgvParser.is_switch k = true.
Proof.
  unfold ArgvParser.ctor. rewrite scan_keys by done.
  cbn [ArgvParser.argmap]. rewrite lookup_empty.
  split; [intros [[? [=]]|?]; done|by right].
Qed.

Lemma not_given argv arg :
  ~ (arg ∈ drop 1 argv /\ ArgvParser.is_switch arg = true) ->
  ArgvParser.argmap (ArgvParser.ctor argv) !! arg = None.
Proof.
  intros Hn. apply eq_None_not_Some. by rewrite ctor_keys.
Qed.

Lemma getArg_not_given argv arg defVal :
  arg ∉ drop 1 argv ->
  ArgvParser.getArg arg defVal (ArgvParser.ctor argv) = Ok defVal.
Proof.
  intros Hn. unfold ArgvParser.getArg. rewrite not_given; [done|]. intros [? _]. done.
Qed.

Lemma hasArg_not_given argv arg allowParam :
  arg ∉ drop 1 argv ->
  ArgvParser.hasArg arg allowParam (ArgvParser.ctor argv) = Ok false.
Proof.
  intros Hn. unfold ArgvParser.hasArg. rewrite not_given; [done|]. intros [? _]. done.
Qed.

(** The entry of a switch after its last occurrence, followed by a value. *)
Lemma ctor_value prog pre k v post :
  ArgvParser.is_switch k = true -> ArgvParser.is_switch v = false -> k ∉ post ->
  ArgvParser.argmap (ArgvParser.ctor (prog :: pre ++ k :: v :: post)) !! k
    = Some (Some v).
Proof.
  intros Hk Hv Hpost. unfold ArgvParser.ctor.
  change (drop 1 (prog :: pre ++ k :: v :: post)) with (pre ++ k :: v :: post).
  destruct (scan_app pre (k :: v :: post) None
              {| ArgvParser.argmap := ∅; ArgvParser.arglist := [] |})
    as (last' & t' & ->).
  cbn [ArgvParser.scan]. rewrite Hk, Hv.
  rewrite scan_untouched by done.
  cbn [ArgvParser.argmap]. by rewrite lookup_insert_eq.
Qed.

(** The entry of a switch after its last occurrence, followed by another
    switch or by nothing. *)
Lemma ctor_no_value prog pre k post :
  ArgvParser.is_switch k = true -> k ∉ post ->
  (forall a, head post = Some a -> ArgvParser.is_switch a = true) ->
  ArgvParser.argmap (ArgvParser.ctor (prog :: pre ++ k :: post)) !! k = Some None.
Proof.
  intros Hk Hpost Hnext. unfold ArgvParser.ctor.
  change (drop 1 (prog :: pre ++ k :: post)) with (pre ++ k :: post).
  destruct (scan_app pre (k :: post) None
              {| ArgvParser.argmap := ∅; ArgvParser.arglist := [] |})
    as (last' & t' & ->).
  cbn [ArgvParser.scan]. rewrite Hk.
  destruct post as [|a post].
  - cbn [ArgvParser.scan ArgvParser.argmap]. by rewrite lookup_insert_eq.
  - apply not_elem_of_cons in Hpost as [Hne Hpost].
    cbn [ArgvParser.scan]. rewrite (Hnext a) by done.
    rewrite scan_untouched by (try done; congruence).
    cbn [ArgvParser.argmap]. rewrite lookup_insert_ne by done.
    by rewrite lookup_insert_eq.
Qed.

(** X4. The options the parser knows are exactly the arguments after the
    program name that start with a dash; for anything else [getArg]
    returns the default and [hasArg] returns false, without an error. *)
Theorem options_are_the_dashed_arguments (argv : list string) (arg : string) :
  (is_Some (ArgvParser.argmap (ArgvParser.ctor argv) !! arg)
   <-> arg ∈ drop 1 argv /\ ArgvParser.is_switch arg = true) /\
  (~ (arg ∈ drop 1 argv /\ ArgvParser.is_switch arg = true) ->
   forall defVal allowParam,
     ArgvParser.getArg arg defVal (ArgvParser.ctor argv) = Ok defVal /\
     ArgvParser.hasArg arg allowParam (ArgvParser.ctor argv) = Ok false).
Proof.
  split; [apply ctor_keys|].
  intros Hn defVal allowParam.
  unfold ArgvParser.getArg, ArgvParser.hasArg. by rewrite not_given.
Qed.

(** X5. An option followed by a value has that value, and the last
    occurrence of the option decides: [getArg] returns the value that
    follows it, and [hasArg] without [allowParam] rejects the option. *)
Theorem option_value_is_the_last_one_given
    (prog : string) (pre post : list string) (k v : string)
    (defVal : option string) :
  ArgvParser.is_switch k = true -> ArgvParser.is_switch v = false -> k ∉ post ->
  ArgvParser.getArg k defVal (ArgvParser.ctor (prog :: pre ++ k :: v :: post))
    = Ok (Some v) /\
  ArgvParser.hasArg k true (ArgvParser.ctor (prog :: pre ++ k :: v :: post))
    = Ok true /\
  ArgvParser.hasArg k false (ArgvParser.ctor (prog :: pre ++ k :: v :: post))
    = Throw ("ERROR: '" +:+ k +:+ "' does not accept arguments").
Proof.
  intros Hk Hv Hpost.
  unfold ArgvParser.getArg, ArgvParser.hasArg.
  rewrite (ctor_value prog pre k v post Hk Hv Hpost).
  cbn [negb andb]. rewrite bool_decide_eq_true_2 by (by eexists). done.
Qed.

Lemma option_value_is_the_last_one_given_witness :
  (ArgvParser.is_switch "-w" = true /\ ArgvParser.is_switch "640" = false /\
   ("-w"%string ∉ ["-h"; "480"]%string)) /\
  ArgvParser.getArg "-w" (Some "0"%string)
    (ArgvParser.ctor ("codecbench" :: (["-w"; "320"] ++ "-w" :: "640" :: ["-h"; "480"]))%string)
    = Ok (Some "640"%string).
Proof.
  split; [split; [reflexivity|split; [reflexivity|not_in_list]]|].
  apply (option_value_is_the_last_one_given
           "codecbench" ["-w"; "320"]%string ["-h"; "480"]%string "-w" "640");
    [reflexivity|reflexivity|not_in_list].
Defined.

(** X6. An option whose last occurrence is followed by another option, or
    by nothing, has no value, also when an earlier occurrence had one:
    [hasArg] finds it and [getArg] throws the missing-argument error. *)
Theorem option_without_value_is_an_error
    (prog : string) (pre post : list string) (k : string)
    (defVal : option string) (allowParam : bool) :
  ArgvParser.is_switch k = true -> k ∉ post ->
  (forall a, head post = Some a -> ArgvParser.is_switch a = true) ->
  ArgvParser.getArg k defVal (ArgvParser.ctor (prog :: pre ++ k :: post))
    = Throw ("ERROR: Missing argument for option '" +:+ k +:+ "'") /\
  ArgvParser.hasArg k allowParam (ArgvParser.ctor (prog :: pre ++ k :: post))
    = Ok true.
Proof.
  intros Hk Hpost Hnext.
  unfold ArgvParser.getArg, ArgvParser.hasArg.
  rewrite (ctor_no_value prog pre k post Hk Hpost Hnext).
  rewrite bool_decide_eq_false_2 by (intros [? [=]]).
  by rewrite andb_false_r.
Qed.

Lemma option_without_value_is_an_error_witness :
  (ArgvParser.is_switch "-w" = true /\ ("-w"%string ∉ ["-nd"]%string) /\
   (forall a, head ["-nd"]%string = Some a -> ArgvParser.is_switch a = true)) /\
  ArgvParser.getArg "-w" (Some "0"%string)
    (ArgvParser.ctor ("codecbench" :: (["-w"; "320"] ++ "-w" :: ["-nd"]))%string)
    = Throw "ERROR: Missing argument for option '-w'" /\
  ArgvParser.hasArg "-w" false
    (ArgvParser.ctor ("codecbench" :: (["-w"; "320"] ++ "-w" :: ["-nd"]))%string)
    = Ok true.
Proof.
  assert (Hnext : forall a, head ["-nd"]%string = Some a -> ArgvParser.is_switch a = true)
    by (intros a [= <-]; reflexivity).
  split; [split; [reflexivity|split; [not_in_list|exact Hnext]]|].
  apply (option_without_value_is_an_error
           "codecbench" ["-w"; "320"]%string ["-nd"]%string "-w" (Some "0"%string) false);
    [reflexivity|not_in_list|exact Hnext].
Defined.

(** * The command line as [initArguments] accepts it *)

Lemma clamp_range z : - 2 ^ 31 <= Crt.clamp z < 2 ^ 31.
Proof. unfold Crt.clamp. lia. Qed.

Lemma atoi_range s : - 2 ^ 31 <= Crt.atoi s < 2 ^ 31.
Proof.
  unfold Crt.atoi. destruct (Crt.skip_spaces s); [lia|].
  repeat case_bool_decide; apply clamp_range.
Qed.

Ltac thrown := let Hx := fresh in intros Hx; cbv beta in Hx; discriminate Hx.

Section Arguments.
Context `{Host}.

Lemma print_all_ok lines : forall out,
  CodecBench.print_all lines out = (Ok tt, out ++ map Text lines).
Proof.
  induction lines as [|l lines IH]; intros out; cbn [CodecBench.print_all map].
  - unfold ret. by rewrite app_nil_r.
  - unfold bindIO, printf. rewrite IH. by rewrite <- app_assoc.
Qed.

(** What "Verify arguments" lets through. *)
Lemma verifyArguments_inv (this cb : CodecBench.t) out out' :
  CodecBench.verifyArguments this out = (Ok cb, out') ->
  is_Some (CodecBench.m_infile this) /\
  (CodecBench.m_rawin this = true ->
   is_Some (CodecBench.m_decompFormat this) /\
   CodecBench.m_decompWidth this <> 0 /\ CodecBench.m_decompHeight this <> 0) /\
  (CodecBench.m_rawin this = false -> CodecBench.m_decompress this = false ->
   CodecBench.m_decompFormat cb = None /\
   CodecBench.m_decompWidth cb = 0 /\ CodecBench.m_decompHeight cb = 0) /\
  (CodecBench.m_rawin this = true \/ CodecBench.m_decompress this = true ->
   cb = this /\ out' = out) /\
  CodecBench.m_rawin cb = CodecBench.m_rawin this /\
  CodecBench.m_rawout cb = CodecBench.m_rawout this /\
  CodecBench.m_decompress cb = CodecBench.m_decompress this /\
  CodecBench.m_compress cb = CodecBench.m_compress this /\
  CodecBench.m_infile cb = CodecBench.m_infile this /\
  CodecBench.m_outfile cb = CodecBench.m_outfile this /\
  CodecBench.m_framesToProcess cb = CodecBench.m_framesToProcess this /\
  CodecBench.m_loopCount cb = CodecBench.m_loopCount this /\
  CodecBench.m_videoReader cb = CodecBench.m_videoReader this /\
  CodecBench.m_videoWriter cb = CodecBench.m_videoWriter this /\
  CodecBench.m_decompressor cb = CodecBench.m_decompressor this /\
  CodecBench.m_compressor cb = CodecBench.m_compressor this.
Proof.
  unfold CodecBench.verifyArguments, throw. intros Hv.
  destruct (bool_decide (is_Some (CodecBench.m_infile this))) eqn:Hin;
    cbn [negb] in Hv; [|discriminate Hv].
  apply bool_decide_eq_true in Hin.
  split; [exact Hin|].
  destruct (CodecBench.m_rawin this) eqn:Eraw.
  - destruct (bool_decide (is_Some (CodecBench.m_decompFormat this))) eqn:Hf;
      cbn [negb orb] in Hv; [|discriminate Hv].
    apply bool_decide_eq_true in Hf.
    destruct (CodecBench.m_decompWidth this =? 0) eqn:Ew; cbn [orb] in Hv;
      [discriminate Hv|].
    destruct (CodecBench.m_decompHeight this =? 0) eqn:Eh; [discriminate Hv|].
    injection Hv as <- <-. apply Z.eqb_neq in Ew, Eh.
    split; [intros _; auto|]. split; [intros [=]|]. split; [auto|].
    rewrite Eraw. repeat split; reflexivity.
  - split; [intros [=]|].
    destruct (CodecBench.m_decompress this) eqn:Ed; cbn [negb] in Hv.
    + injection Hv as <- <-. split; [intros _ [=]|]. split; [auto|].
      rewrite Eraw, Ed. repeat split; reflexivity.
    + unfold bindIO, printf, ret in Hv.
      assert (Hcb :
        CodecBench.m_decompFormat cb = None /\
        CodecBench.m_decompWidth cb = 0 /\ CodecBench.m_decompHeight cb = 0 /\
        CodecBench.m_rawin cb = false /\
        CodecBench.m_rawout cb = CodecBench.m_rawout this /\
        CodecBench.m_decompress cb = false /\
        CodecBench.m_compress cb = CodecBench.m_compress this /\
        CodecBench.m_infile cb = CodecBench.m_infile this /\
        CodecBench.m_outfile cb = CodecBench.m_outfile this /\
        CodecBench.m_framesToProcess cb = CodecBench.m_framesToProcess this /\
        CodecBench.m_loopCount cb = CodecBench.m_loopCount this /\
        CodecBench.m_videoReader cb = CodecBench.m_videoReader this /\
        CodecBench.m_videoWriter cb = CodecBench.m_videoWriter this /\
        CodecBench.m_decompressor cb = CodecBench.m_decompressor this /\
        CodecBench.m_compressor cb = CodecBench.m_compressor this).
      { destruct (bool_decide (is_Some (CodecBench.m_decompFormat this))) eqn:Ef;
          destruct (CodecBench.m_decompWidth this =? 0) eqn:Ew;
          destruct (CodecBench.m_decompHeight this =? 0) eqn:Eh;
          cbn [negb] in Hv; injection Hv as <- Hout; clear Hout;
          cbn [CodecBench.m_decompFormat CodecBench.m_decompWidth
               CodecBench.m_decompHeight CodecBench.m_rawin CodecBench.m_rawout
               CodecBench.m_decompress CodecBench.m_compress CodecBench.m_infile
               CodecBench.m_outfile CodecBench.m_framesToProcess
               CodecBench.m_loopCount CodecBench.m_videoReader
               CodecBench.m_videoWriter CodecBench.m_decompressor
               CodecBench.m_compressor];
          try apply Z.eqb_eq in Ew; try apply Z.eqb_eq in Eh;
          try apply bool_decide_eq_false in Ef;
          rewrite ?Eraw, ?Ed;
          repeat split; try reflexivity; try assumption.
        all: destruct (CodecBench.m_decompFormat this); [exfalso; apply Ef; by eexists|done]. }
      destruct Hcb as (H1 & H2 & H3 & H4 & H5 & H6 & Hrest).
      split; [auto|]. split; [intros [[=]|[=]]|].
      split; [exact H4|]. split; [exact H5|]. split; [exact H6|]. exact Hrest.
Qed.

(** What [initArguments] read from the command line before it verified it. *)
Lemma initArguments_inv argv (this cb : CodecBench.t) out out' :
  CodecBench.initArguments argv this out = (Ok cb, out') ->
  let parser := ArgvParser.ctor argv in
  exists rawin rawout decompress compress decompFormat sw sh sf sl infile outfile,
    ArgvParser.hasArg "-rawin" false parser = Ok rawin /\
    ArgvParser.hasArg "-rawout" false parser = Ok rawout /\
    (if rawin then decompress = false
     else exists nd, ArgvParser.hasArg "-nd" false parser = Ok nd /\ decompress = negb nd) /\
    (if rawout then compress = false
     else exists nc, ArgvParser.hasArg "-nc" false parser = Ok nc /\ compress = negb nc) /\
    ArgvParser.getArg "-f" None parser = Ok decompFormat /\
    ArgvParser.getArg "-w" (Some "0"%string) parser = Ok sw /\
    ArgvParser.getArg "-h" (Some "0"%string) parser = Ok sh /\
    ArgvParser.getArg "-frames" (Some "0"%string) parser = Ok sf /\
    ArgvParser.getArg "-loop" (Some "1"%string) parser = Ok sl /\
    ArgvParser.getArg "-i" None parser = Ok infile /\
    ArgvParser.getArg "-o" None parser = Ok outfile /\
    CodecBench.verifyArguments
      {| CodecBench.m_rawin := rawin; CodecBench.m_rawout := rawout;
         CodecBench.m_decompress := decompress; CodecBench.m_compress := compress;
         CodecBench.m_infile := infile; CodecBench.m_outfile := outfile;
         CodecBench.m_decompFormat := decompFormat;
         CodecBench.m_decompWidth := Crt.atoi (default EmptyString sw);
         CodecBench.m_decompHeight := Crt.atoi (default EmptyString sh);
         CodecBench.m_framesToProcess := Crt.atoi (default EmptyString sf);
         CodecBench.m_loopCount := Crt.atoi (default EmptyString sl);
         CodecBench.m_videoReader := CodecBench.m_videoReader this;
         CodecBench.m_videoWriter := CodecBench.m_videoWriter this;
         CodecBench.m_decompressor := CodecBench.m_decompressor this;
         CodecBench.m_compressor := CodecBench.m_compressor this;
         CodecBench.m_formatDecompressed := CodecBench.m_formatDecompressed this;
         CodecBench.m_formatCompressed := CodecBench.m_formatCompressed this |} out
      = (Ok cb, out').
Proof.
  unfold CodecBench.initArguments. intros Hi.
  set (parser := ArgvParser.ctor argv) in *.
  destruct (Z.of_nat (length argv) <? 2).
  { unfold bindIO in Hi. rewrite print_all_ok in Hi. discriminate Hi. }
  unfold bindIO at 1 in Hi. unfold lift at 1 in Hi.
  destruct (ArgvParser.hasArg "-rawin" false parser) as [rawin|] eqn:E1; [|discriminate Hi].
  unfold bindIO at 1 in Hi. unfold lift at 1 in Hi.
  destruct (ArgvParser.hasArg "-rawout" false parser) as [rawout|] eqn:E2; [|discriminate Hi].
  unfold bindIO at 1 in Hi.
  destruct ((if rawin then ret false
             else doIO nd <- lift (ArgvParser.hasArg "-nd" false parser); ret (negb nd)) out)
    as [[decompress|] o1] eqn:E3; [|discriminate Hi].
  assert (H3 : o1 = out /\
               if rawin then decompress = false
               else exists nd, ArgvParser.hasArg "-nd" false parser = Ok nd
                               /\ decompress = negb nd).
  { destruct rawin; [injection E3 as <- <-; done|].
    unfold bindIO, lift, ret in E3.
    destruct (ArgvParser.hasArg "-nd" false parser) as [nd|]; [|discriminate E3].
    injection E3 as <- <-. split; [done|]. by exists nd. }
  destruct H3 as [-> H3]. clear E3.
  unfold bindIO at 1 in Hi.
  destruct ((if rawout then ret false
             else doIO nc <- lift (ArgvParser.hasArg "-nc" false parser); ret (negb nc)) out)
    as [[compress|] o1] eqn:E4; [|discriminate Hi].
  assert (H4 : o1 = out /\
               if rawout then compress = false
               else exists nc, ArgvParser.hasArg "-nc" false parser = Ok nc
                               /\ compress = negb nc).
  { destruct rawout; [injection E4 as <- <-; done|].
    unfold bindIO, lift, ret in E4.
    destruct (ArgvParser.hasArg "-nc" false parser) as [nc|]; [|discriminate E4].
    injection E4 as <- <-. split; [done|]. by exists nc. }
  destruct H4 as [-> H4]. clear E4.
  unfold bindIO at 1 in Hi. unfold lift at 1 in Hi.
  destruct (ArgvParser.getArg "-f" None parser) as [decompFormat|] eqn:E5;
    [|discriminate Hi].
  unfold CodecBench.intArg in Hi.
  unfold bindIO at 1 2 in Hi. unfold lift at 1 in Hi.
  destruct (ArgvParser.getArg "-w" (Some "0"%string) parser) as [sw|] eqn:E6;
    [|discriminate Hi].
  unfold ret at 1 in Hi.
  unfold bindIO at 1 2 in Hi. unfold lift at 1 in Hi.
  destruct (ArgvParser.getArg "-h" (Some "0"%string) parser) as [sh|] eqn:E7;
    [|discriminate Hi].
  unfold ret at 1 in Hi.
  unfold bindIO at 1 2 in Hi. unfold lift at 1 in Hi.
  destruct (ArgvParser.getArg "-frames" (Some "0"%string) parser) as [sf|] eqn:E8;
    [|discriminate Hi].
  unfold ret at 1 in Hi.
  unfold bindIO at 1 2 in Hi. unfold lift at 1 in Hi.
  destruct (ArgvParser.getArg "-loop" (Some "1"%string) parser) as [sl|] eqn:E9;
    [|discriminate Hi].
  unfold ret at 1 in Hi.
  unfold bindIO at 1 in Hi. unfold lift at 1 in Hi.
  destruct (ArgvParser.getArg "-i" None parser) as [infile|] eqn:E10; [|discriminate Hi].
  unfold bindIO at 1 in Hi. unfold lift at 1 in Hi.
  destruct (ArgvParser.getArg "-o" None parser) as [outfile|] eqn:E11; [|discriminate Hi].
  exists rawin, rawout, decompress, compress, decompFormat, sw, sh, sf, sl, infile, outfile.
  repeat (split; [first [reflexivity|assumption]|]). exact Hi.
Qed.

(** X7. A command line [initArguments] accepts is consistent: the input
    file is named; a raw input is not decompressed and has a format name
    and a nonzero width and height, so that [openRaw] is never handed a
    null format; a raw output is not compressed; an input that is neither
    raw nor decompressed has no requested format or size left; the four
    numbers are values of [int]; and the reader, the writer and the two
    codec objects are not touched. *)
Theorem accepted_command_line_is_consistent
    (argv : list string) (this cb : CodecBench.t) (out out' : list event) :
  CodecBench.initArguments argv this out = (Ok cb, out') ->
  is_Some (CodecBench.m_infile cb) /\
  (CodecBench.m_rawin cb = true ->
   CodecBench.m_decompress cb = false /\
   is_Some (CodecBench.m_decompFormat cb) /\
   CodecBench.m_decompWidth cb <> 0 /\ CodecBench.m_decompHeight cb <> 0) /\
  (CodecBench.m_rawout cb = true -> CodecBench.m_compress cb = false) /\
  (CodecBench.m_rawin cb = false -> CodecBench.m_decompress cb = false ->
   CodecBench.m_decompFormat cb = None /\
   CodecBench.m_decompWidth cb = 0 /\ CodecBench.m_decompHeight cb = 0) /\
  (- 2 ^ 31 <= CodecBench.m_decompWidth cb < 2 ^ 31 /\
   - 2 ^ 31 <= CodecBench.m_decompHeight cb < 2 ^ 31 /\
   - 2 ^ 31 <= CodecBench.m_framesToProcess cb < 2 ^ 31 /\
   - 2 ^ 31 <= CodecBench.m_loopCount cb < 2 ^ 31) /\
  (CodecBench.m_videoReader cb = CodecBench.m_videoReader this /\
   CodecBench.m_videoWriter cb = CodecBench.m_videoWriter this /\
   CodecBench.m_decompressor cb = CodecBench.m_decompressor this /\
   CodecBench.m_compressor cb = CodecBench.m_compressor this).
Proof.
  intros Hi.
  destruct (initArguments_inv _ _ _ _ _ Hi)
    as (rawin & rawout & decompress & compress & decompFormat & sw & sh & sf & sl
        & infile & outfile & _ & _ & H3 & H4 & _ & _ & _ & _ & _ & _ & _ & Hv).
  destruct (verifyArguments_inv _ _ _ _ Hv)
    as (Hin & Hraw & Hnd & Hsame & Erawin & Erawout & Ed & Ec & Einfile & Eout
        & Ef & El & Er & Ew & Edc & Ecc).
  cbn [CodecBench.m_infile CodecBench.m_rawin CodecBench.m_rawout
       CodecBench.m_decompress CodecBench.m_compress CodecBench.m_decompFormat
       CodecBench.m_decompWidth CodecBench.m_decompHeight CodecBench.m_outfile
       CodecBench.m_framesToProcess CodecBench.m_loopCount
       CodecBench.m_videoReader CodecBench.m_videoWriter
       CodecBench.m_decompressor CodecBench.m_compressor] in *.
  split; [by rewrite Einfile|].
  split.
  { rewrite Erawin, Ed. intros ->. split; [exact H3|].
    destruct Hsame as [-> _]; [by left|]. by apply Hraw. }
  split; [rewrite Erawout, Ec; by intros ->|].
  split; [rewrite Erawin, Ed; exact Hnd|].
  split; [|by rewrite Er, Ew, Edc, Ecc].
  rewrite Ef, El.
  assert (Hw : - 2 ^ 31 <= CodecBench.m_decompWidth cb < 2 ^ 31).
  { destruct rawin.
    - destruct Hsame as [-> _]; [by left|]. apply atoi_range.
    - destruct decompress.
      + destruct Hsame as [-> _]; [by right|]. apply atoi_range.
      + destruct Hnd as (_ & -> & _); [done..|]. lia. }
  assert (Hh : - 2 ^ 31 <= CodecBench.m_decompHeight cb < 2 ^ 31).
  { destruct rawin.
    - destruct Hsame as [-> _]; [by left|]. apply atoi_range.
    - destruct decompress.
      + destruct Hsame as [-> _]; [by right|]. apply atoi_range.
      + destruct Hnd as (_ & _ & ->); [done..|]. lia. }
  split; [exact Hw|]. split; [exact Hh|]. split; apply atoi_range.
Qed.

(** X8. An option that is not on the command line has its default in what
    [initArguments] accepts: one loop, no frame limit, no output file, no
    requested format, width or height; the input is raw only with
    [-rawin] and the output only with [-rawout], and both stages are on
    unless one of the four switches turns them off. *)
Theorem options_not_given_take_their_defaults
    (argv : list string) (this cb : CodecBench.t) (out out' : list event) :
  CodecBench.initArguments argv this out = (Ok cb, out') ->
  ("-loop"%string ∉ drop 1 argv -> CodecBench.m_loopCount cb = 1) /\
  ("-frames"%string ∉ drop 1 argv -> CodecBench.m_framesToProcess cb = 0) /\
  ("-o"%string ∉ drop 1 argv -> CodecBench.m_outfile cb = None) /\
  ("-f"%string ∉ drop 1 argv -> CodecBench.m_decompFormat cb = None) /\
  ("-w"%string ∉ drop 1 argv -> CodecBench.m_decompWidth cb = 0) /\
  ("-h"%string ∉ drop 1 argv -> CodecBench.m_decompHeight cb = 0) /\
  ("-rawin"%string ∉ drop 1 argv ->
   CodecBench.m_rawin cb = false /\
   ("-nd"%string ∉ drop 1 argv -> CodecBench.m_decompress cb = true)) /\
  ("-rawout"%string ∉ drop 1 argv ->
   CodecBench.m_rawout cb = false /\
   ("-nc"%string ∉ drop 1 argv -> CodecBench.m_compress cb = true)).
Proof.
  intros Hi.
  destruct (initArguments_inv _ _ _ _ _ Hi)
    as (rawin & rawout & decompress & compress & decompFormat & sw & sh & sf & sl
        & infile & outfile & E1 & E2 & H3 & H4 & E5 & E6 & E7 & E8 & E9 & _ & E11 & Hv).
  destruct (verifyArguments_inv _ _ _ _ Hv)
    as (Hin & Hraw & Hnd & Hsame & Erawin & Erawout & Ed & Ec & Einfile & Eout
        & Ef & El & _).
  cbn [CodecBench.m_infile CodecBench.m_rawin CodecBench.m_rawout
       CodecBench.m_decompress CodecBench.m_compress CodecBench.m_decompFormat
       CodecBench.m_decompWidth CodecBench.m_decompHeight CodecBench.m_outfile
       CodecBench.m_framesToProcess CodecBench.m_loopCount] in *.
  assert (Hfwh :
    (decompFormat = None -> CodecBench.m_decompFormat cb = None) /\
    (Crt.atoi (default EmptyString sw) = 0 -> CodecBench.m_decompWidth cb = 0) /\
    (Crt.atoi (default EmptyString sh) = 0 -> CodecBench.m_decompHeight cb = 0)).
  { destruct rawin; [destruct Hsame as [-> _]; [by left|]; done|].
    destruct decompress; [destruct Hsame as [-> _]; [by right|]; done|].
    destruct Hnd as (-> & -> & ->); done. }
  destruct Hfwh as (Hf' & Hw' & Hh').
  split.
  { intros Hn. rewrite El. rewrite getArg_not_given in E9 by done.
    injection E9 as <-. reflexivity. }
  split.
  { intros Hn. rewrite Ef. rewrite getArg_not_given in E8 by done.
    injection E8 as <-. reflexivity. }
  split.
  { intros Hn. rewrite Eout. rewrite getArg_not_given in E11 by done.
    by injection E11 as <-. }
  split.
  { intros Hn. apply Hf'. rewrite getArg_not_given in E5 by done.
    by injection E5 as <-. }
  split.
  { intros Hn. apply Hw'. rewrite getArg_not_given in E6 by done.
    injection E6 as <-. reflexivity. }
  split.
  { intros Hn. apply Hh'. rewrite getArg_not_given in E7 by done.
    injection E7 as <-. reflexivity. }
  split.
  { intros Hn. rewrite hasArg_not_given in E1 by done. injection E1 as <-.
    split; [exact Erawin|]. intros Hnd'. rewrite Ed.
    destruct H3 as (nd & End & ->).
    rewrite hasArg_not_given in End by done. by injection End as <-. }
  intros Hn. rewrite hasArg_not_given in E2 by done. injection E2 as <-.
  split; [exact Erawout|]. intros Hnc. rewrite Ec.
  destruct H4 as (nc & Enc & ->).
  rewrite hasArg_not_given in Enc by done. by injection Enc as <-.
Qed.

(** X9. A value after [-rawin], the first switch that is looked up, ends
    the program with exit code 1: whatever else is on the command line,
    the only thing printed is the error that the switch accepts no
    argument. *)
Theorem rawin_followed_by_a_value_is_rejected
    (fs : filesystem) (fuel : nat) (prog : string) (pre post : list string)
    (v : string) :
  ArgvParser.is_switch v = false -> "-rawin"%string ∉ post ->
  main fs fuel (prog :: pre ++ "-rawin"%string :: v :: post)
    = Some (1, [Text ("ERROR: '-rawin' does not accept arguments" +:+ nl)]).
Proof.
  intros Hv Hpost.
  apply (main_throw fs _ _ [] fuel).
  unfold CodecBench.init, bindIO at 1 2. unfold CodecBench.initArguments.
  replace (Z.of_nat (length (prog :: pre ++ "-rawin"%string :: v :: post)) <? 2)
    with false.
  2:{ symmetry. apply Z.ltb_ge. cbn [length]. rewrite length_app. cbn [length]. lia. }
  unfold bindIO at 1. unfold lift at 1.
  unfold ArgvParser.hasArg at 1.
  rewrite (ctor_value prog pre "-rawin" v post eq_refl Hv Hpost).
  reflexivity.
Qed.

End Arguments.

Lemma accepted_command_line_is_consistent_witness :
  CodecBench.initArguments (H := Sample.plain) raw_argv CodecBench.ctor []
    = (Ok (parsed Sample.plain raw_argv).1, (parsed Sample.plain raw_argv).2) /\
  CodecBench.m_rawin (parsed Sample.plain raw_argv).1 = true /\
  CodecBench.m_decompress (parsed Sample.plain raw_argv).1 = false /\
  is_Some (CodecBench.m_decompFormat (parsed Sample.plain raw_argv).1) /\
  CodecBench.m_decompWidth (parsed Sample.plain raw_argv).1 <> 0 /\
  CodecBench.m_decompHeight (parsed Sample.plain raw_argv).1 <> 0.
Proof.
  assert (Hi : CodecBench.initArguments (H := Sample.plain) raw_argv CodecBench.ctor []
               = (Ok (parsed Sample.plain raw_argv).1, (parsed Sample.plain raw_argv).2))
    by reflexivity.
  split; [exact Hi|]. split; [reflexivity|].
  apply (accepted_command_line_is_consistent (H := Sample.plain) _ _ _ _ _ Hi).
  reflexivity.
Defined.

Lemma options_not_given_take_their_defaults_witness :
  CodecBench.initArguments (H := Sample.plain) raw_argv CodecBench.ctor []
    = (Ok (parsed Sample.plain raw_argv).1, (parsed Sample.plain raw_argv).2) /\
  ("-loop"%string ∉ drop 1 raw_argv) /\
  CodecBench.m_loopCount (parsed Sample.plain raw_argv).1 = 1.
Proof.
  assert (Hi : CodecBench.initArguments (H := Sample.plain) raw_argv CodecBench.ctor []
               = (Ok (parsed Sample.plain raw_argv).1, (parsed Sample.plain raw_argv).2))
    by reflexivity.
  assert (Hn : "-loop"%string ∉ drop 1 raw_argv) by (cbn [drop raw_argv]; not_in_list).
  split; [exact Hi|]. split; [exact Hn|].
  apply (options_not_given_take_their_defaults (H := Sample.plain) _ _ _ _ _ Hi).
  exact Hn.
Defined.

Lemma rawin_followed_by_a_value_is_rejected_witness :
  (ArgvParser.is_switch "in.raw" = false /\
   ("-rawin"%string ∉ ["-f"; "YV12"; "-w"; "4"; "-h"; "2"]%string)) /\
  main (H := Sample.plain) Sample.input 10
       ("codecbench" :: ([] ++ "-rawin" :: "in.raw" :: ["-f"; "YV12"; "-w"; "4"; "-h"; "2"]))%string
    = Some (1, [Text ("ERROR: '-rawin' does not accept arguments" +:+ nl)]).
Proof.
  assert (Hn : "-rawin"%string ∉ ["-f"; "YV12"; "-w"; "4"; "-h"; "2"]%string)
    by not_in_list.
  split; [split; [reflexivity|exact Hn]|].
  apply (rawin_followed_by_a_value_is_rejected (H := Sample.plain)
           Sample.input 10 "codecbench" [] _ "in.raw" eq_refl Hn).
Defined.

(** * The descriptor in memory *)

Lemma s32_of_u32 z : CInt.s32 (z mod 2 ^ 32) = CInt.s32 z.
Proof.
  rewrite (Z.div_mod z (2 ^ 32)) at 2 by lia.
  replace (2 ^ 32 * (z / 2 ^ 32) + z mod 2 ^ 32)
    with (z mod 2 ^ 32 + (z / 2 ^ 32) * 2 ^ 32) by lia.
  symmetry. apply s32_add_multiple.
Qed.

Lemma u16_of_bytes_of v : Mem.unsigned_of (Mem.bytes_of 2 v) = v mod 2 ^ 16.
Proof. rewrite unsigned_of_bytes_of. reflexivity. Qed.

Lemma u32_mod_of_bytes_of v : Mem.unsigned_of (Mem.bytes_of 4 v) = v mod 2 ^ 32.
Proof. rewrite unsigned_of_bytes_of. reflexivity. Qed.

(** The fields read through a pointer to the object representation. *)
Lemma Bih_loads (b : BITMAPINFOHEADER) :
  Bih.size (Bih.bytes b) = biSize b mod 2 ^ 32 /\
  Bih.width (Bih.bytes b) = CInt.s32 (biWidth b) /\
  Bih.height (Bih.bytes b) = CInt.s32 (biHeight b) /\
  Bih.bitCount (Bih.bytes b) = biBitCount b mod 2 ^ 16 /\
  Bih.compression (Bih.bytes b) = biCompression b mod 2 ^ 32 /\
  Bih.sizeImage (Bih.bytes b) = biSizeImage b mod 2 ^ 32.
Proof.
  unfold Bih.size, Bih.width, Bih.height, Bih.bitCount, Bih.compression,
    Bih.sizeImage, Bih.load_s32, Bih.load_u32, Bih.load_u16.
  assert (H0 : Mem.slice 0 4 (Bih.bytes b) = Mem.bytes_of 4 (biSize b)) by reflexivity.
  assert (H4 : Mem.slice 4 4 (Bih.bytes b) = Mem.bytes_of 4 (biWidth b)) by reflexivity.
  assert (H8 : Mem.slice 8 4 (Bih.bytes b) = Mem.bytes_of 4 (biHeight b)) by reflexivity.
  assert (H14 : Mem.slice 14 2 (Bih.bytes b) = Mem.bytes_of 2 (biBitCount b)) by reflexivity.
  assert (H16 : Mem.slice 16 4 (Bih.bytes b) = Mem.bytes_of 4 (biCompression b))
    by reflexivity.
  assert (H20 : Mem.slice 20 4 (Bih.bytes b) = Mem.bytes_of 4 (biSizeImage b))
    by reflexivity.
  rewrite H0, H4, H8, H14, H16, H20.
  rewrite !u32_mod_of_bytes_of, u16_of_bytes_of, !s32_of_u32. done.
Qed.

Lemma length_Bih_bytes b : length (Bih.bytes b) = 40%nat.
Proof. reflexivity. Qed.

(** * align_to *)

(** X10. [align_to<4>] rounds an [int] up to the next multiple of four,
    negative values included, as long as that multiple is an [int]; the
    32-bit and the 64-bit build agree on it, and an aligned value is left
    alone. *)
Theorem align_to_rounds_up_to_a_multiple (v : Z) :
  - 2 ^ 31 <= v <= 2 ^ 31 - 4 ->
  Resolver.align_to 4 v mod 4 = 0 /\
  v <= Resolver.align_to 4 v < v + 4 /\
  Resolver.align_to_on 32 4 v = Resolver.align_to 4 v /\
  Resolver.align_to 4 (Resolver.align_to 4 v) = Resolver.align_to 4 v.
Proof.
  intros Hv.
  assert (Hq : forall z, - 2 ^ 31 <= z <= 2 ^ 31 - 4 ->
                         Resolver.align_to 4 z = (z + 3) / 4 * 4).
  { intros z Hz. rewrite align_to_spec by lia. unfold align4.
    pose proof (Z.div_mod (z + 3) 4 ltac:(lia)).
    pose proof (Z.mod_pos_bound (z + 3) 4 ltac:(lia)).
    apply s32_small. lia. }
  pose proof (Z.div_mod (v + 3) 4 ltac:(lia)) as Hd.
  pose proof (Z.mod_pos_bound (v + 3) 4 ltac:(lia)) as Hm.
  rewrite align_to_on_32_64 by lia.
  change (Resolver.align_to_on 64 4 v) with (Resolver.align_to 4 v).
  rewrite (Hq v Hv).
  split; [apply Z_mod_mult|]. split; [lia|]. split; [reflexivity|].
  rewrite Hq by lia.
  replace ((v + 3) / 4 * 4 + 3) with (3 + (v + 3) / 4 * 4) by lia.
  rewrite Z.div_add by lia. change (3 / 4) with 0. lia.
Qed.

Lemma align_to_rounds_up_to_a_multiple_witness :
  - 2 ^ 31 <= - 5 <= 2 ^ 31 - 4 /\
  Resolver.align_to 4 (- 5) mod 4 = 0 /\
  - 5 <= Resolver.align_to 4 (- 5) < - 5 + 4.
Proof.
  split; [lia|].
  pose proof (align_to_rounds_up_to_a_multiple (- 5) ltac:(lia)) as (H1 & H2 & _).
  split; [exact H1|exact H2].
Defined.

(** * readVar and writeVar *)

Lemma read_slice n s :
  IStream.good s = true -> 0 <= n <= IStream.avail s ->
  (IStream.read n s).1
    = Mem.slice (N.to_nat (IStream.gpos s)) (Z.to_nat n) (IStream.content s).
Proof. intros Hg Hn. rewrite read_good by done. reflexivity. Qed.

(** X11. What [writeVar] appends to a stream without error, [readVar] of
    the same width reads back from that place of the file: the value
    modulo the width of the variable, whatever the uninitialised local
    held and whatever follows in the file, and the stream stays good. *)
Theorem writeVar_then_readVar
    (width : nat) (v junk : Z) (output : OStream.t) (rest : list byte) :
  OStream.failbit output = false ->
  readVar width junk
    {| IStream.content := OStream.written (writeVar width output v) ++ rest;
       IStream.gpos := N.of_nat (length (OStream.written output));
       IStream.eofbit := false; IStream.failbit := false |}
  = (v mod 256 ^ Z.of_nat width,
     {| IStream.content := OStream.written (writeVar width output v) ++ rest;
        IStream.gpos := N.of_nat (length (OStream.written output)) + N.of_nat width;
        IStream.eofbit := false; IStream.failbit := false |}).
Proof.
  intros Hf. unfold writeVar, OStream.write. rewrite Hf.
  cbn [OStream.written]. unfold readVar.
  set (s := {| IStream.content := (OStream.written output ++ Mem.bytes_of width v) ++ rest;
               IStream.gpos := N.of_nat (length (OStream.written output));
               IStream.eofbit := false; IStream.failbit := false |}).
  assert (Hav : Z.of_nat width <= IStream.avail s).
  { unfold IStream.avail, s. cbn [IStream.content IStream.gpos].
    rewrite !length_app, length_bytes_of. lia. }
  rewrite read_good by (try reflexivity; lia).
  cbn [IStream.content IStream.gpos s].
  rewrite Nat2N.id, Nat2Z.id, <- app_assoc.
  rewrite (slice_middle _ _ _ width) by apply length_bytes_of.
  rewrite blit_full by (rewrite !length_bytes_of; lia).
  rewrite unsigned_of_bytes_of.
  replace (Z.to_N (Z.of_nat width)) with (N.of_nat width) by lia.
  reflexivity.
Qed.

Lemma writeVar_then_readVar_witness :
  OStream.failbit {| OStream.written := [x07]; OStream.failbit := false |} = false /\
  (readVar 4 99
     {| IStream.content :=
          OStream.written
            (writeVar 4 {| OStream.written := [x07]; OStream.failbit := false |}
                      0x1ABCDEF01) ++ [x08];
        IStream.gpos := 1; IStream.eofbit := false; IStream.failbit := false |}).1
  = 0xABCDEF01.
Proof.
  split; [reflexivity|].
  exact (f_equal fst
           (writeVar_then_readVar 4 0x1ABCDEF01 99
              {| OStream.written := [x07]; OStream.failbit := false |} [x08] eq_refl)).
Defined.

(** * Opening a container and writing one *)

Lemma magic_on_disk : Mem.bytes_of 4 MAGIC = [x01; xef; xcd; xab].
Proof. reflexivity. Qed.



Lemma writeFrames_raw frames w :
  VideoWriter.m_raw w = true ->
  OStream.failbit (VideoWriter.m_outFile w) = false ->
  OStream.written (VideoWriter.m_outFile (writeFrames frames w))
    = OStream.written (VideoWriter.m_outFile w) ++ raw_frames frames.
Proof.
  revert w. induction frames as [|f frames IH]; intros w Hraw Hf.
  - unfold raw_frames. simpl. rewrite app_nil_r. reflexivity.
  - unfold writeFrames in *. cbn [foldl]. rewrite IH.
    + unfold VideoWriter.writeFrame. rewrite Hraw. cbn [negb].
      unfold OStream.write. rewrite Hf.
      cbn [OStream.failbit OStream.written VideoWriter.m_outFile].
      unfold raw_frames. cbn [map concat].
      rewrite <- !app_assoc. reflexivity.
    + unfold VideoWriter.writeFrame. rewrite Hraw. reflexivity.
    + unfold VideoWriter.writeFrame. rewrite Hraw. cbn [negb].
      unfold OStream.write. rewrite Hf. reflexivity.
Qed.

Lemma writer_open_raw fs outfile w0 w1 :
  VideoWriter.open fs outfile None w0 = Ok w1 ->
  w1 = {| VideoWriter.m_outFile := {| OStream.written := []; OStream.failbit := false |};
          VideoWriter.m_raw := true |}.
Proof.
  unfold VideoWriter.open, OStream.open. cbn [OStream.failbit].
  destruct (creatable fs outfile); cbn [negb]; [|discriminate].
  by intros [= <-].
Qed.

(** X13. The file a writer leaves is laid out by its mode alone.  Opened
    with a descriptor it holds the magic, the descriptor's [biSize] as a
    32-bit number, [biSize] bytes of the descriptor, and then each frame
    behind its 32-bit size; opened without one it holds the frames' bytes
    and nothing else.  A file that cannot be created gives the
    failed-to-open error with its name. *)
Theorem written_file_layout
    (fs : filesystem) (outfile : string) (biFormat : option (list byte))
    (frames : list (list byte * Z)) (w0 : VideoWriter.t) :
  (creatable fs outfile = false ->
   VideoWriter.open fs outfile biFormat w0
     = Throw ("ERROR: Failed to open file: " +:+ outfile)) /\
  (forall w1,
     VideoWriter.open fs outfile biFormat w0 = Ok w1 ->
     OStream.written (VideoWriter.m_outFile (writeFrames frames w1))
       = match biFormat with
         | Some p =>
             [x01; xef; xcd; xab] ++ Mem.bytes_of 4 (Bih.size p)
             ++ take (Z.to_nat (Bih.size p)) p ++ container_frames frames
         | None => raw_frames frames
         end).
Proof.
  split.
  - intros Hc. unfold VideoWriter.open, OStream.open. cbn [OStream.failbit].
    rewrite Hc. reflexivity.
  - intros w1 Hw. destruct biFormat as [p|].
    + pose proof (writer_open_inv _ _ _ _ _ Hw) as Hc.
      rewrite (writer_open_container fs outfile p w0 Hc) in Hw.
      injection Hw as <-.
      rewrite writeFrames_container by reflexivity.
      cbn [VideoWriter.m_outFile OStream.written].
      rewrite <- magic_on_disk. reflexivity.
    + rewrite (writer_open_raw _ _ _ _ Hw).
      rewrite writeFrames_raw by reflexivity. reflexivity.
Qed.

(** * The descriptor of a raw input *)

Lemma GetDecompFormat_fields format w h bi :
  Resolver.GetDecompFormat format w h = Ok bi ->
  biSize bi = 40 /\ biWidth bi = w /\ biHeight bi = h /\ biPlanes bi = 1 /\
  0 <= biBitCount bi < 2 ^ 16 /\ 0 <= biCompression bi < 2 ^ 32 /\
  0 <= biSizeImage bi < 2 ^ 32.
Proof.
  unfold Resolver.GetDecompFormat.
  assert (Hu : forall z, 0 <= CInt.u32 z < 2 ^ 32)
    by (intros z; unfold CInt.u32; apply Z.mod_pos_bound; lia).
  repeat match goal with
         | |- context [if ?c then _ else _] => destruct c
         end;
    (intros Hx;
     first [ discriminate Hx
           | apply (f_equal (fun r => match r with Ok b => b | Throw _ => bi end)) in Hx;
             subst bi ]);
    cbn [Resolver.layout biSize biWidth biHeight biPlanes
                          biBitCount biCompression biSizeImage];
    (split; [reflexivity|]); (split; [reflexivity|]); (split; [reflexivity|]);
    (split; [reflexivity|]); (split; [lia|]); (split; [|apply Hu]);
    (vm_compute; split; [discriminate|reflexivity]).
Qed.

(** X14. For a supported format name and a file that can be opened,
    [openRaw] on a fresh reader succeeds, and what [getFormat] then points
    to is the 40-byte descriptor [GetDecompFormat] resolved: its width and
    height are the ones passed in, its bit count, code and frame size the
    resolved ones.  The reader is in raw mode with no header to skip, and
    every frame it will read has the descriptor's frame size. *)
Theorem openRaw_publishes_the_resolved_descriptor
    (fs : filesystem) (infile format : string) (w h : Z) (file : list byte) :
  files fs !! infile = Some file -> format ∈ supported ->
  - 2 ^ 31 <= w < 2 ^ 31 -> - 2 ^ 31 <= h < 2 ^ 31 ->
  exists bi r,
    Resolver.GetDecompFormat format w h = Ok bi /\
    VideoReader.openRaw fs infile format w h VideoReader.ctor = Ok r /\
    VideoReader.getFormat r = Bih.bytes bi /\
    Bih.size (VideoReader.getFormat r) = 40 /\
    Bih.width (VideoReader.getFormat r) = w /\
    Bih.height (VideoReader.getFormat r) = h /\
    Bih.bitCount (VideoReader.getFormat r) = biBitCount bi /\
    Bih.compression (VideoReader.getFormat r) = biCompression bi /\
    Bih.sizeImage (VideoReader.getFormat r) = biSizeImage bi /\
    VideoReader.m_raw r = true /\ VideoReader.m_headerSize r = 0 /\
    next_size r = biSizeImage bi.
Proof.
  intros Hfile Hin Hw Hh.
  destruct (GetDecompFormat_supported format w h Hin) as (bi & Hbi).
  destruct (GetDecompFormat_fields _ _ _ _ Hbi)
    as (Fs & Fw & Fh & _ & Fb & Fc & Fi).
  destruct (Bih_loads bi) as (Ls & Lw & Lh & Lb & Lc & Li).
  exists bi.
  eexists. split; [exact Hbi|].
  split.
  { unfold VideoReader.openRaw. rewrite Hbi. cbn [bind].
    unfold IStream.open. rewrite Hfile. cbn [IStream.fail IStream.failbit].
    reflexivity. }
  assert (Hfmt : VideoReader.getFormat
                   {| VideoReader.m_frameBuf := VideoReader.m_frameBuf VideoReader.ctor;
                      VideoReader.m_frameSize := VideoReader.m_frameSize VideoReader.ctor;
                      VideoReader.m_inFile :=
                        {| IStream.content := file; IStream.gpos := 0;
                           IStream.eofbit := false; IStream.failbit := false |};
                      VideoReader.m_biFormat :=
                        Mem.blit (Bih.bytes bi) (VideoReader.m_biFormat VideoReader.ctor);
                      VideoReader.m_headerSize := 0; VideoReader.m_raw := true |}
                 = Bih.bytes bi).
  { unfold VideoReader.getFormat, BitmapInfoHeader.ptr. cbn [VideoReader.m_biFormat].
    apply blit_full. rewrite length_Bih_bytes. reflexivity. }
  unfold next_size. cbn [VideoReader.m_raw VideoReader.m_headerSize].
  rewrite Hfmt, Ls, Lw, Lh, Lb, Lc, Li, Fs, Fw, Fh.
  rewrite !s32_small by lia. rewrite !Z.mod_small by lia.
  repeat split; reflexivity.
Qed.

Lemma openRaw_publishes_the_resolved_descriptor_witness :
  (files (Sample.disk "in.raw" [x00; x01]) !! "in.raw"%string = Some [x00; x01] /\
   ("YUY2"%string ∈ supported) /\
   - 2 ^ 31 <= 640 < 2 ^ 31 /\ - 2 ^ 31 <= - 480 < 2 ^ 31) /\
  exists bi r,
    Resolver.GetDecompFormat "YUY2" 640 (- 480) = Ok bi /\
    VideoReader.openRaw (Sample.disk "in.raw" [x00; x01]) "in.raw" "YUY2" 640 (- 480)
                        VideoReader.ctor = Ok r /\
    Bih.width (VideoReader.getFormat r) = 640 /\
    Bih.height (VideoReader.getFormat r) = - 480 /\
    next_size r = biSizeImage bi.
Proof.
  assert (Hin : "YUY2"%string ∈ supported).
  { unfold supported. rewrite !elem_of_cons. tauto. }
  split; [split; [reflexivity|split; [exact Hin|lia]]|].
  destruct (openRaw_publishes_the_resolved_descriptor
              (Sample.disk "in.raw" [x00; x01]) "in.raw" "YUY2" 640 (- 480) [x00; x01]
              eq_refl Hin ltac:(lia) ltac:(lia))
    as (bi & r & H1 & H2 & _ & _ & H5 & H6 & _ & _ & _ & _ & _ & H12).
  exists bi, r. repeat split; assumption.
Defined.

(** * The frame buffer of the reader *)



(** * Reading a raw file *)

Lemma readFrames_app junks : forall more r,
  readFrames (junks ++ more) r
    = ((readFrames junks r).1 ++ (readFrames more (readFrames junks r).2).1,
       (readFrames more (readFrames junks r).2).2).
Proof.
  induction junks as [|j junks IH]; intros more r.
  - cbn [app readFrames fst snd]. by destruct (readFrames more r).
  - cbn [app readFrames]. destruct (VideoReader.readFrame j r) as [b r1].
    rewrite IH. destruct (readFrames junks r1) as [l r2]. cbn [fst snd].
    destruct (readFrames more r2) as [l' r3]. reflexivity.
Qed.

(** Once no complete frame is ahead, none will be: the stream is left in
    a failed state. *)
Lemma end_of_stream_stays j r :
  frame_ahead r = false -> frame_ahead (VideoReader.readFrame j r).2 = false.
Proof.
  intros Hna.
  assert (Hbad : forall r', IStream.good (VideoReader.m_inFile r') = false ->
                            frame_ahead r' = false)
    by (intros r' Hg; unfold frame_ahead; rewrite Hg; reflexivity).
  unfold VideoReader.readFrame.
  destruct (IStream.eof (VideoReader.m_inFile r)) eqn:Eeof; [exact Hna|].
  unfold frame_ahead, next_size in Hna.
  destruct (VideoReader.m_raw r) eqn:Eraw.
  - destruct (IStream.good (VideoReader.m_inFile r)) eqn:Eg.
    + cbn [andb] in Hna. apply Z.leb_gt in Hna.
      destruct (read_short _ _ Eg Hna) as (He & Hf & _).
      destruct (IStream.read _ _) as [bs s2]. cbn [snd] in *.
      apply Hbad. cbn [VideoReader.m_inFile]. unfold IStream.good. by rewrite He.
    + rewrite read_bad by exact Eg. apply Hbad. apply andb_false_r.
  - destruct (IStream.good (VideoReader.m_inFile r)) eqn:Eg.
    + cbn [andb] in Hna.
      destruct (4 <=? IStream.avail (VideoReader.m_inFile r)) eqn:E4.
      * apply Z.leb_le in E4. cbn [andb] in Hna. apply Z.leb_gt in Hna.
        rewrite readVar_good by done.
        set (s1 := {| IStream.content := IStream.content (VideoReader.m_inFile r);
                      IStream.gpos := IStream.gpos (VideoReader.m_inFile r) + 4;
                      IStream.eofbit := false; IStream.failbit := false |}).
        assert (Hav : IStream.avail s1
                      < Mem.unsigned_of
                          (Mem.slice (N.to_nat (IStream.gpos (VideoReader.m_inFile r))) 4
                                     (IStream.content (VideoReader.m_inFile r)))).
        { unfold IStream.avail in *. cbn [IStream.content IStream.gpos s1]. lia. }
        destruct (read_short _ s1 eq_refl Hav) as (He & Hf & _).
        destruct (IStream.read _ s1) as [bs s2]. cbn [snd] in *.
        apply Hbad. cbn [VideoReader.m_inFile]. unfold IStream.good. by rewrite He.
      * apply Z.leb_gt in E4.
        destruct (readVar_short j (VideoReader.m_inFile r) (or_intror E4))
          as (Hg1 & _).
        destruct (readVar 4 j (VideoReader.m_inFile r)) as [size s1]. cbn [snd] in Hg1.
        rewrite read_bad by exact Hg1. apply Hbad. apply andb_false_r.
    + destruct (readVar_short j (VideoReader.m_inFile r) (or_introl Eg)) as (Hg1 & _).
      destruct (readVar 4 j (VideoReader.m_inFile r)) as [size s1]. cbn [snd] in Hg1.
      rewrite read_bad by exact Hg1. apply Hbad. apply andb_false_r.
Qed.

Lemma readFrames_at_end junks : forall r,
  frame_ahead r = false ->
  Forall (fun res : bool * Z * list byte => res.1.1 = false) (readFrames junks r).1.
Proof.
  induction junks as [|j junks IH]; intros r Hna; [constructor|].
  cbn [readFrames].
  pose proof (readFrame_not_ahead j r Hna) as Hf.
  pose proof (end_of_stream_stays j r Hna) as Hn.
  destruct (VideoReader.readFrame j r) as [b r1]. cbn [fst snd] in *.
  specialize (IH r1 Hn). destruct (readFrames junks r1) as [l r2]. cbn [fst] in *.
  constructor; [exact Hf|exact IH].
Qed.

(** Reading the frames of a raw stream back, and where the stream is
    afterwards. *)
Lemma reads_back_raw frames : forall junks r pre post,
  VideoReader.m_raw r = true ->
  VideoReader.m_inFile r =
    {| IStream.content := pre ++ raw_frames frames ++ post;
       IStream.gpos := N.of_nat (length pre);
       IStream.eofbit := false; IStream.failbit := false |} ->
  Forall (fun f => frame_ok f /\ f.2 = next_size r) frames ->
  length junks = length frames ->
  (readFrames junks r).1
    = map (fun f => (true, f.2, take (Z.to_nat f.2) f.1)) frames /\
  VideoReader.m_raw (readFrames junks r).2 = true /\
  next_size (readFrames junks r).2 = next_size r /\
  VideoReader.m_inFile (readFrames junks r).2 =
    {| IStream.content := pre ++ raw_frames frames ++ post;
       IStream.gpos := N.of_nat (length (pre ++ raw_frames frames));
       IStream.eofbit := false; IStream.failbit := false |}.
Proof.
  induction frames as [|[data sz] frames IH]; intros junks r pre post Hraw Hs Hok Hlen.
  - destruct junks; [|discriminate]. cbn [readFrames fst snd map].
    unfold raw_frames. cbn [map concat]. rewrite app_nil_r. auto.
  - destruct junks as [|j junks]; [discriminate|].
    apply Forall_cons in Hok as [[[Hsz Hdata] Hsame] Hok]. cbn [fst snd] in *.
    set (x := take (Z.to_nat sz) data).
    assert (Lx : length x = Z.to_nat sz) by (subst x; rewrite length_take; lia).
    assert (Hc : IStream.content (VideoReader.m_inFile r)
                 = pre ++ x ++ raw_frames frames ++ post).
    { rewrite Hs. cbn [IStream.content]. unfold raw_frames at 1.
      cbn [map concat fst snd]. fold (raw_frames frames).
      rewrite <- !app_assoc. reflexivity. }
    assert (Hp : IStream.gpos (VideoReader.m_inFile r) = N.of_nat (length pre))
      by (rewrite Hs; reflexivity).
    assert (Hav : IStream.avail (VideoReader.m_inFile r)
                  = sz + Z.of_nat (length (raw_frames frames ++ post))).
    { unfold IStream.avail. rewrite Hp, Hc, !length_app. lia. }
    assert (Hah : frame_ahead r = true).
    { unfold frame_ahead. rewrite Hraw, <- Hsame, Hav.
      replace (IStream.good (VideoReader.m_inFile r)) with true by (rewrite Hs; reflexivity).
      cbn [andb]. apply Z.leb_le. lia. }
    destruct (readFrame_ahead j r Hah) as (Hmore & Hfs & Hfr & _ & Hin).
    destruct (readFrame_preserves j r) as (_ & Hraw' & Hfmt' & _).
    cbn [readFrames]. destruct (VideoReader.readFrame j r) as [more r1].
    cbn [fst snd] in *. subst more.
    assert (Hn1 : next_size r1 = next_size r).
    { unfold next_size, VideoReader.getFormat. rewrite Hraw', Hraw, Hfmt'. reflexivity. }
    specialize (IH junks r1 (pre ++ x) post).
    destruct IH as (I1 & I2 & I3 & I4).
    + congruence.
    + rewrite Hin, Hc, <- Hsame. unfold next_off. rewrite Hraw, Hp.
      f_equal.
      * rewrite <- !app_assoc. reflexivity.
      * rewrite !length_app. lia.
    + rewrite Hn1. exact Hok.
    + simpl in Hlen. lia.
    + destruct (readFrames junks r1) as [l r2]. cbn [fst snd map] in *.
      split; [|split; [exact I2|split; [congruence|]]].
      * f_equal; [|exact I1].
        rewrite Hfs, Hfr, <- Hsame. repeat f_equal.
        unfold next_off. rewrite Hraw, Hp, Hc, Nat2N.id.
        apply slice_middle. exact Lx.
      * rewrite I4. unfold raw_frames at 3 4. cbn [map concat fst snd].
        fold (raw_frames frames). fold x. rewrite <- !app_assoc. reflexivity.
Qed.

Lemma openRaw_inv fs infile format w h r0 r :
  VideoReader.openRaw fs infile format w h r0 = Ok r ->
  exists file,
    files fs !! infile = Some file /\
    VideoReader.m_raw r = true /\
    VideoReader.m_inFile r =
      {| IStream.content := file; IStream.gpos := 0;
         IStream.eofbit := false; IStream.failbit := false |}.
Proof.
  unfold VideoReader.openRaw, IStream.open.
  destruct (Resolver.GetDecompFormat format w h); cbn [bind]; [|discriminate].
  destruct (files fs !! infile) as [file|]; cbn [IStream.fail IStream.failbit];
    [|discriminate].
  intros [= <-]. exists file. auto.
Qed.

(** X16. Raw frames come back from a raw file.  Frames that a writer
    opened without a descriptor has written, each of the frame size of the
    reader's descriptor and that size not zero, are returned by
    [readFrame] one per call, in order and byte for byte; every call after
    the last frame returns false, however often it is repeated. *)
Theorem raw_round_trip
    (fs fs' : filesystem) (outfile infile format : string) (w h : Z)
    (frames : list (list byte * Z)) (w0 w1 : VideoWriter.t)
    (r0 r1 : VideoReader.t) (junks more : list Z) :
  VideoWriter.open fs outfile None w0 = Ok w1 ->
  files fs' !! infile
    = Some (OStream.written (VideoWriter.m_outFile (writeFrames frames w1))) ->
  VideoReader.openRaw fs' infile format w h r0 = Ok r1 ->
  0 < next_size r1 ->
  Forall (fun f => frame_ok f /\ f.2 = next_size r1) frames ->
  length junks = length frames ->
  exists tail,
    (readFrames (junks ++ more) r1).1
      = map (fun f => (true, f.2, take (Z.to_nat f.2) f.1)) frames ++ tail /\
    length tail = length more /\
    Forall (fun res : bool * Z * list byte => res.1.1 = false) tail.
Proof.
  intros Hw Hfile Hr Hpos Hok Hlen.
  rewrite (writer_open_raw _ _ _ _ Hw) in Hfile.
  rewrite writeFrames_raw in Hfile by reflexivity.
  cbn [VideoWriter.m_outFile OStream.written app] in Hfile.
  destruct (openRaw_inv _ _ _ _ _ _ _ Hr) as (file & Hf & Hraw & Hs).
  rewrite Hfile in Hf. injection Hf as <-.
  destruct (reads_back_raw frames junks r1 [] [] Hraw) as (R1 & R2 & R3 & R4);
    [rewrite Hs, app_nil_r; reflexivity|exact Hok|exact Hlen|].
  rewrite readFrames_app. cbn [fst].
  exists (readFrames more (readFrames junks r1).2).1.
  split; [by rewrite R1|].
  assert (Hend : frame_ahead (readFrames junks r1).2 = false).
  { unfold frame_ahead. rewrite R2, R3, R4.
    cbn [IStream.good IStream.eofbit IStream.failbit negb andb].
    apply Z.leb_gt. unfold IStream.avail. cbn [IStream.content IStream.gpos].
    rewrite app_nil_r, app_nil_l. lia. }
  split; [|apply readFrames_at_end; exact Hend].
  clear. generalize (readFrames junks r1).2. induction more as [|j more IH]; intros r.
  - reflexivity.
  - cbn [readFrames]. destruct (VideoReader.readFrame j r) as [b r'].
    specialize (IH r'). destruct (readFrames more r') as [l r'']. cbn [fst length] in *.
    by rewrite IH.
Qed.

Lemma raw_round_trip_witness :
  (VideoWriter.open (Sample.disk "none" []) "out.raw" None VideoWriter.ctor
     = Ok raw_writer /\
   files (Sample.disk "in.raw" [x01; x02; x03; x04]) !! "in.raw"%string
     = Some (OStream.written (VideoWriter.m_outFile (writeFrames y8_frames raw_writer))) /\
   VideoReader.openRaw (Sample.disk "in.raw" [x01; x02; x03; x04]) "in.raw" "Y8" 2 1
                       VideoReader.ctor
     = Ok (y8_reader_on [x01; x02; x03; x04]) /\
   0 < next_size (y8_reader_on [x01; x02; x03; x04]) /\
   Forall (fun f => frame_ok f /\ f.2 = next_size (y8_reader_on [x01; x02; x03; x04]))
          y8_frames /\
   length [7; 8] = length y8_frames) /\
  exists tail,
    (readFrames ([7; 8] ++ [9; 10]) (y8_reader_on [x01; x02; x03; x04])).1
      = map (fun f => (true, f.2, take (Z.to_nat f.2) f.1)) y8_frames ++ tail /\
    length tail = length [9; 10] /\
    Forall (fun res : bool * Z * list byte => res.1.1 = false) tail.
Proof.
  assert (H1 : VideoWriter.open (Sample.disk "none" []) "out.raw" None VideoWriter.ctor
               = Ok raw_writer) by reflexivity.
  assert (H2 : files (Sample.disk "in.raw" [x01; x02; x03; x04]) !! "in.raw"%string
               = Some (OStream.written
                         (VideoWriter.m_outFile (writeFrames y8_frames raw_writer))))
    by reflexivity.
  assert (H3 : VideoReader.openRaw (Sample.disk "in.raw" [x01; x02; x03; x04])
                 "in.raw" "Y8" 2 1 VideoReader.ctor
               = Ok (y8_reader_on [x01; x02; x03; x04])) by reflexivity.
  assert (H4 : next_size (y8_reader_on [x01; x02; x03; x04]) = 2) by reflexivity.
  assert (H5 : Forall (fun f => frame_ok f
                                /\ f.2 = next_size (y8_reader_on [x01; x02; x03; x04]))
                      y8_frames).
  { rewrite H4. unfold y8_frames, frame_ok.
    repeat constructor; cbn [fst snd length]; lia. }
  split; [split; [exact H1|split; [exact H2|split; [exact H3|split; [lia|split;
          [exact H5|reflexivity]]]]]|].
  apply (raw_round_trip _ _ _ _ _ _ _ _ _ _ _ _ [7; 8] [9; 10] H1 H2 H3);
    [lia|exact H5|reflexivity].
Defined.

(** * Stores into a descriptor *)

Lemma length_store_32 off v (p : list byte) :
  (off + 4 <= length p)%nat -> length (Bih.store_32 off v p) = length p.
Proof.
  intros Hl. unfold Bih.store_32.
  rewrite length_app, length_take, length_blit, length_bytes_of, length_drop. lia.
Qed.

Lemma store_32_room off v (p : list byte) :
  (off + 4 <= 12)%nat -> (40 <= length (Bih.store_32 off v p))%nat ->
  (40 <= length p)%nat.
Proof.
  unfold Bih.store_32.
  rewrite length_app, length_take, length_blit, length_bytes_of, length_drop. lia.
Qed.

Lemma slice_store_32_same off v (p : list byte) :
  (off + 4 <= length p)%nat ->
  Mem.slice off 4 (Bih.store_32 off v p) = Mem.bytes_of 4 v.
Proof.
  intros Hl. unfold Bih.store_32, Mem.blit.
  replace off with (length (take off p)) at 1 by (rewrite length_take; lia).
  apply slice_middle. apply length_bytes_of.
Qed.

Lemma slice_store_32_before off off' v (p : list byte) :
  (off' + 4 <= off)%nat -> (off + 4 <= length p)%nat ->
  Mem.slice off' 4 (Bih.store_32 off v p) = Mem.slice off' 4 p.
Proof.
  intros Hb Hl. unfold Bih.store_32, Mem.slice.
  rewrite drop_app_le by (rewrite length_take; lia).
  rewrite take_app_le by (rewrite length_drop, length_take; lia).
  rewrite skipn_firstn_comm, take_take.
  replace (4 `min` (off - off'))%nat with 4%nat by lia. reflexivity.
Qed.

Lemma slice_store_32_after off off' v (p : list byte) :
  (off + 4 <= off')%nat -> (off + 4 <= length p)%nat ->
  Mem.slice off' 4 (Bih.store_32 off v p) = Mem.slice off' 4 p.
Proof.
  intros Hb Hl. unfold Bih.store_32, Mem.slice, Mem.blit.
  rewrite drop_app_ge by (rewrite length_take; lia).
  rewrite drop_app_ge by (rewrite length_take, length_bytes_of; lia).
  rewrite length_take, !length_bytes_of, !drop_drop.
  replace (off + (4 + (off' - off `min` length p - 4)))%nat with off' by lia.
  reflexivity.
Qed.

Lemma load_after_set (w h : Z) (p : list byte) :
  (12 <= length p)%nat ->
  Bih.width (Bih.set_width w p) = CInt.s32 w /\
  Bih.height (Bih.set_width w p) = Bih.height p /\
  Bih.height (Bih.set_height h p) = CInt.s32 h /\
  Bih.width (Bih.set_height h p) = Bih.width p /\
  length (Bih.set_width w p) = length p /\
  length (Bih.set_height h p) = length p.
Proof.
  intros Hl.
  unfold Bih.width, Bih.height, Bih.set_width, Bih.set_height, Bih.load_s32, Bih.load_u32.
  rewrite !slice_store_32_same by lia.
  rewrite (slice_store_32_before 8 4) by lia.
  rewrite (slice_store_32_after 4 8) by lia.
  rewrite !u32_mod_of_bytes_of, !s32_of_u32, !length_store_32 by lia.
  repeat split; reflexivity.
Qed.

(** * The decompressor *)

Section Decoder.
Context `{Host}.

Lemma length_store (bs buf : list byte) :
  length (Decompressor.store bs buf) = length buf.
Proof.
  unfold Decompressor.store. rewrite length_blit, length_take. lia.
Qed.

Lemma decompressFrame_keeps data size (d : Decompressor.t) :
  length (Decompressor.frameData (Decompressor.decompressFrame data size d))
    = length (Decompressor.frameData d) /\
  Decompressor.getOutputFormat (Decompressor.decompressFrame data size d)
    = Decompressor.getOutputFormat d /\
  (is_Some (Decompressor.m_hic d) ->
   is_Some (Decompressor.m_hic (Decompressor.decompressFrame data size d))) /\
  Decompressor.m_decompressing (Decompressor.decompressFrame data size d)
    = Decompressor.m_decompressing d.
Proof.
  unfold Decompressor.decompressFrame, Decompressor.frameData,
    Decompressor.getOutputFormat.
  destruct (Decompressor.m_hic d) as [hic|].
  - destruct (ICDecompress _ _ _ _ _) as [bs hic1].
    cbn [Decompressor.m_frameBuf Decompressor.m_biFormatOut Decompressor.m_hic
         Decompressor.m_decompressing].
    rewrite length_store. repeat split; try reflexivity. intros _. by eexists.
  - cbn. repeat split; try reflexivity. intros [? [=]].
Qed.

(** What a successful [init] leaves in the object. *)
Lemma Decompressor_init_inv biIn biOut w h (d d' : Decompressor.t) out out' :
  Decompressor.init biIn biOut w h d out = (Ok d', out') ->
  exists hic hic1 hic2 hic3 fmt1,
    ICLocate (Bih.compression biIn) biIn = Some hic /\
    Decompressor.negotiate_format hic biIn biOut d
      (out ++ [Text ("INFO: Decompressor        : '" +:+ (ICGetInfo hic).1
                     +:+ "' - '" +:+ (ICGetInfo hic).2 +:+ "'" +:+ nl)])
      = (Ok (hic1, fmt1), out') /\
    Decompressor.negotiate_size hic1 biIn w h fmt1 out'
      = (Ok (hic2, Decompressor.m_biFormatOut d'), out') /\
    ICDecompressBegin hic2 biIn (Decompressor.m_biFormatOut d') = (ICERR_OK, hic3) /\
    Decompressor.m_hic d' = Some hic3 /\
    Decompressor.m_decompressing d' = true /\
    Decompressor.m_frameBuf d'
      = Mem.resize (Bih.sizeImage (Decompressor.m_biFormatOut d'))
                   (Decompressor.m_frameBuf d) /\
    Decompressor.m_biFormatIn d'
      = BitmapInfoHeader.assign (Some biIn) (Decompressor.m_biFormatIn d).
Proof.
  unfold Decompressor.init.
  destruct (ICLocate (Bih.compression biIn) biIn) as [hic|]; [|discriminate].
  unfold bindIO at 1. unfold printf at 1.
  unfold bindIO at 1.
  destruct (Decompressor.negotiate_format hic biIn biOut d _)
    as [[[hic1 fmt1]|] o1] eqn:E1; [|discriminate].
  assert (Ho1 : o1 = out ++ [Text ("INFO: Decompressor        : '" +:+ (ICGetInfo hic).1
                     +:+ "' - '" +:+ (ICGetInfo hic).2 +:+ "'" +:+ nl)]).
  { revert E1. unfold Decompressor.negotiate_format, throw, ret.
    destruct biOut as [bo|].
    - destruct (ICDecompressQuery hic biIn bo) as [res h1].
      destruct (negb (res =? ICERR_OK)); [discriminate|]. by intros [= _ _ <-].
    - destruct (ICDecompressGetFormatSize hic biIn) as [sz h1].
      destruct (_ || _); [discriminate|].
      destruct (ICDecompressGetFormat _ _ _) as [[res bs] h2].
      destruct (negb (res =? ICERR_OK)); [discriminate|]. by intros [= _ _ <-]. }
  unfold bindIO at 1.
  destruct (Decompressor.negotiate_size hic1 biIn w h fmt1 o1)
    as [[[hic2 fmt2]|] o2] eqn:E2; [|discriminate].
  assert (Ho2 : o2 = o1).
  { revert E2. unfold Decompressor.negotiate_size, throw, ret.
    destruct (_ || _).
    - destruct (ICDecompressQuery _ _ _) as [res h1].
      destruct (negb (res =? ICERR_OK)); [discriminate|]. by intros [= _ _ <-].
    - by intros [= _ _ <-]. }
  subst o2.
  destruct (ICDecompressBegin hic2 biIn fmt2) as [res hic3] eqn:E3.
  destruct (res =? ICERR_OK) eqn:Eres; cbn [negb]; [|discriminate].
  apply Z.eqb_eq in Eres. subst res.
  unfold ret. intros [= <- <-].
  exists hic, hic1, hic2, hic3, fmt1.
  cbn [Decompressor.m_hic Decompressor.m_decompressing Decompressor.m_frameBuf
       Decompressor.m_biFormatIn Decompressor.m_biFormatOut].
  subst o1. repeat split; try reflexivity; assumption.
Qed.

Lemma sizeImage_nonneg p : 0 <= Bih.sizeImage p.
Proof. unfold Bih.sizeImage, Bih.load_u32. apply unsigned_of_range. Qed.

Lemma init_ready biIn biOut w h (d d' : Decompressor.t) out out' :
  Decompressor.init biIn biOut w h d out = (Ok d', out') -> decoder_ready d'.
Proof.
  intros Hi.
  destruct (Decompressor_init_inv _ _ _ _ _ _ _ _ Hi)
    as (hic & hic1 & hic2 & hic3 & fmt1 & _ & _ & _ & _ & Hh & Hd & Hb & _).
  split; [rewrite Hh; by eexists|]. split; [exact Hd|].
  unfold Decompressor.frameData, Decompressor.getOutputFormat, BitmapInfoHeader.ptr.
  rewrite Hb, length_resize by apply sizeImage_nonneg.
  pose proof (sizeImage_nonneg (Decompressor.m_biFormatOut d')). lia.
Qed.

Lemma decompressFrame_ready data size (d : Decompressor.t) :
  decoder_ready d -> decoder_ready (Decompressor.decompressFrame data size d).
Proof.
  intros (R1 & R2 & R3).
  destruct (decompressFrame_keeps data size d) as (K1 & K2 & K3 & K4).
  split; [auto|]. split; [congruence|]. rewrite K1, K2. exact R3.
Qed.

(** X17. After a successful [init] the frame buffer of the decompressor has
    exactly the [biSizeImage] bytes of the output format it settled on,
    the codec is located and decompression has begun; and
    [decompressFrame], however often it is called and whatever the codec
    stores, changes neither the output format nor the size of the buffer.
    So the frame the loop hands on after the decode stage always has the
    size the loop counts for it. *)
Theorem decompressed_frame_has_the_size_of_the_format
    (biIn : list byte) (biOut : option (list byte)) (w h : Z)
    (d d' : Decompressor.t) (out out' : list event)
    (frames : list (list byte * Z)) :
  Decompressor.init biIn biOut w h d out = (Ok d', out') ->
  let d'' := foldl (fun d f => Decompressor.decompressFrame f.1 f.2 d) d' frames in
  Z.of_nat (length (Decompressor.frameData d''))
    = Bih.sizeImage (Decompressor.getOutputFormat d'') /\
  Decompressor.getOutputFormat d'' = Decompressor.getOutputFormat d' /\
  is_Some (Decompressor.m_hic d'') /\
  Decompressor.m_decompressing d'' = true.
Proof.
  intros Hi. pose proof (init_ready _ _ _ _ _ _ _ _ Hi) as Hr.
  clear Hi. revert d' Hr.
  induction frames as [|f frames IH]; intros d' (R1 & R2 & R3); cbn [foldl].
  - auto.
  - destruct (decompressFrame_keeps f.1 f.2 d') as (_ & K2 & _).
    destruct (IH (Decompressor.decompressFrame f.1 f.2 d')) as (I1 & I2 & I3 & I4).
    + apply decompressFrame_ready. by split.
    + cbv zeta in *. split; [exact I1|]. split; [congruence|]. auto.
Qed.

(** X18. A width or height requested with [-w] or [-h] is written into the
    output format before the decompressor is asked whether it can deliver
    it: after a successful [init] whose output format holds a whole
    [BITMAPINFOHEADER], a nonzero width is the width of the output format and a
    nonzero height its height, and the decompressor has accepted the
    format with these values when it was begun. *)
Theorem requested_size_is_in_the_output_format
    (biIn : list byte) (biOut : option (list byte)) (w h : Z)
    (d d' : Decompressor.t) (out out' : list event) :
  Decompressor.init biIn biOut w h d out = (Ok d', out') ->
  (40 <= length (Decompressor.getOutputFormat d'))%nat ->
  - 2 ^ 31 <= w < 2 ^ 31 -> - 2 ^ 31 <= h < 2 ^ 31 ->
  (w <> 0 -> Bih.width (Decompressor.getOutputFormat d') = w) /\
  (h <> 0 -> Bih.height (Decompressor.getOutputFormat d') = h) /\
  exists hic, (ICDecompressBegin hic biIn (Decompressor.getOutputFormat d')).1 = ICERR_OK.
Proof.
  intros Hi Hl Hw Hh.
  destruct (Decompressor_init_inv _ _ _ _ _ _ _ _ Hi)
    as (hic & hic1 & hic2 & hic3 & fmt1 & _ & _ & Hsz & Hb & _).
  unfold Decompressor.getOutputFormat, BitmapInfoHeader.ptr in *.
  split; [|split; [|exists hic2; by rewrite Hb]].
  - intros Hw0. revert Hsz. unfold Decompressor.negotiate_size, throw, ret.
    replace (w =? 0) with false by (symmetry; apply Z.eqb_neq; exact Hw0).
    cbn [negb orb].
    destruct (ICDecompressQuery _ _ _) as [res h1].
    destruct (negb (res =? ICERR_OK)); [discriminate|].
    intros [= _ Hf]. rewrite <- Hf in Hl |- *.
    destruct (h =? 0); cbn [negb] in *.
    + pose proof (store_32_room 4 w fmt1 ltac:(lia) Hl) as L.
      destruct (load_after_set w h fmt1 ltac:(lia)) as (-> & _). apply s32_small. lia.
    + pose proof (store_32_room 8 h _ ltac:(lia) Hl) as L1.
      pose proof (store_32_room 4 w fmt1 ltac:(lia) L1) as L.
      destruct (load_after_set w h fmt1 ltac:(lia)) as (Ew & _ & _ & _ & Lw & _).
      destruct (load_after_set w h (Bih.set_width w fmt1) ltac:(lia))
        as (_ & _ & _ & -> & _).
      rewrite Ew. apply s32_small. lia.
  - intros Hh0. revert Hsz. unfold Decompressor.negotiate_size, throw, ret.
    replace (h =? 0) with false by (symmetry; apply Z.eqb_neq; exact Hh0).
    cbn [negb]. rewrite orb_true_r.
    destruct (ICDecompressQuery _ _ _) as [res h1].
    destruct (negb (res =? ICERR_OK)); [discriminate|].
    intros [= _ Hf]. rewrite <- Hf in Hl |- *.
    destruct (w =? 0); cbn [negb] in *.
    + pose proof (store_32_room 8 h fmt1 ltac:(lia) Hl) as L.
      destruct (load_after_set w h fmt1 ltac:(lia)) as (_ & _ & -> & _).
      apply s32_small. lia.
    + pose proof (store_32_room 8 h _ ltac:(lia) Hl) as L1.
      pose proof (store_32_room 4 w fmt1 ltac:(lia) L1) as L.
      destruct (load_after_set w h fmt1 ltac:(lia)) as (_ & _ & _ & _ & Lw & _).
      destruct (load_after_set w h (Bih.set_width w fmt1) ltac:(lia))
        as (_ & _ & -> & _).
      apply s32_small. lia.
Qed.

End Decoder.

Lemma decompressed_frame_has_the_size_of_the_format_witness :
  Decompressor.init (H := Sample.plain) (Bih.bytes Sample.format) None 0 0
                    Decompressor.ctor []
    = (Ok (decoder Sample.plain (Bih.bytes Sample.format) None 0 0).1,
       (decoder Sample.plain (Bih.bytes Sample.format) None 0 0).2) /\
  let d'' := foldl (fun d f => Decompressor.decompressFrame f.1 f.2 d)
                   (decoder Sample.plain (Bih.bytes Sample.format) None 0 0).1
                   [([x01], 1); ([x02; x03], 2)] in
  Z.of_nat (length (Decompressor.frameData d''))
    = Bih.sizeImage (Decompressor.getOutputFormat d'') /\
  Decompressor.getOutputFormat d''
    = Decompressor.getOutputFormat
        (decoder Sample.plain (Bih.bytes Sample.format) None 0 0).1 /\
  is_Some (Decompressor.m_hic d'') /\
  Decompressor.m_decompressing d'' = true.
Proof.
  split; [reflexivity|].
  apply (decompressed_frame_has_the_size_of_the_format (H := Sample.plain)
           (Bih.bytes Sample.format) None 0 0 Decompressor.ctor
           (decoder Sample.plain (Bih.bytes Sample.format) None 0 0).1 []
           (decoder Sample.plain (Bih.bytes Sample.format) None 0 0).2
           [([x01], 1); ([x02; x03], 2)]).
  reflexivity.
Defined.

Lemma requested_size_is_in_the_output_format_witness :
  (Decompressor.init (H := Sample.plain) (Bih.bytes Sample.format) None 8 (- 6)
                     Decompressor.ctor []
     = (Ok (decoder Sample.plain (Bih.bytes Sample.format) None 8 (- 6)).1,
        (decoder Sample.plain (Bih.bytes Sample.format) None 8 (- 6)).2) /\
   (40 <= length (Decompressor.getOutputFormat
                    (decoder Sample.plain (Bih.bytes Sample.format) None 8 (- 6)).1))%nat /\
   - 2 ^ 31 <= 8 < 2 ^ 31 /\ - 2 ^ 31 <= - 6 < 2 ^ 31) /\
  (8 <> 0 ->
   Bih.width (Decompressor.getOutputFormat
                (decoder Sample.plain (Bih.bytes Sample.format) None 8 (- 6)).1) = 8) /\
  (- 6 <> 0 ->
   Bih.height (Decompressor.getOutputFormat
                 (decoder Sample.plain (Bih.bytes Sample.format) None 8 (- 6)).1) = - 6) /\
  exists hic,
    (ICDecompressBegin (Host := Sample.plain) hic (Bih.bytes Sample.format)
       (Decompressor.getOutputFormat
          (decoder Sample.plain (Bih.bytes Sample.format) None 8 (- 6)).1)).1
    = ICERR_OK.
Proof.
  assert (Hl : (40 <= length (Decompressor.getOutputFormat
                  (decoder Sample.plain (Bih.bytes Sample.format) None 8 (- 6)).1))%nat)
    by (vm_compute; lia).
  split; [split; [reflexivity|split; [exact Hl|lia]]|].
  apply (requested_size_is_in_the_output_format (H := Sample.plain)
           (Bih.bytes Sample.format) None 8 (- 6) Decompressor.ctor
           (decoder Sample.plain (Bih.bytes Sample.format) None 8 (- 6)).1 []
           (decoder Sample.plain (Bih.bytes Sample.format) None 8 (- 6)).2 eq_refl Hl);
    lia.
Defined.

(** * What [init] leaves for [run] *)

Section Init.
Context `{Host}.
Variable fs : filesystem.

Lemma initInput_inv (this cb : CodecBench.t) out out' :
  CodecBench.initInput fs this out = (Ok cb, out') ->
  options cb = options this /\
  CodecBench.m_compress cb = CodecBench.m_compress this /\
  CodecBench.m_videoWriter cb = CodecBench.m_videoWriter this /\
  CodecBench.m_compressor cb = CodecBench.m_compressor this /\
  CodecBench.m_formatCompressed cb = CodecBench.m_formatCompressed this /\
  (if CodecBench.m_rawin this then
     VideoReader.openRaw fs (default EmptyString (CodecBench.m_infile this))
       (default EmptyString (CodecBench.m_decompFormat this))
       (CodecBench.m_decompWidth this) (CodecBench.m_decompHeight this)
       (CodecBench.m_videoReader this)
   else
     VideoReader.open fs (default EmptyString (CodecBench.m_infile this))
       junk_open.1 junk_open.2 (CodecBench.m_videoReader this))
    = Ok (CodecBench.m_videoReader cb) /\
  (if CodecBench.m_decompress this then
     exists biOut o1 o2,
       Decompressor.init (VideoReader.getFormat (CodecBench.m_videoReader cb)) biOut
         (CodecBench.m_decompWidth this) (CodecBench.m_decompHeight this)
         (CodecBench.m_decompressor this) o1
       = (Ok (CodecBench.m_decompressor cb), o2)
   else CodecBench.m_decompressor cb = CodecBench.m_decompressor this) /\
  CodecBench.m_formatDecompressed cb
    = BitmapInfoHeader.assign
        (Some (if CodecBench.m_decompress this
               then Decompressor.getOutputFormat (CodecBench.m_decompressor cb)
               else VideoReader.getFormat (CodecBench.m_videoReader cb)))
        (CodecBench.m_formatDecompressed this).
Proof.
  unfold CodecBench.initInput. intros Hi.
  unfold bindIO at 1 in Hi. unfold lift at 1 in Hi.
  destruct (if CodecBench.m_rawin this then _ else _) as [reader|] eqn:Er;
    [|discriminate Hi].
  unfold bindIO at 1 2 3 4 in Hi. unfold printf at 1 2 3 in Hi.
  unfold PrintBitmapInfo at 1 in Hi. unfold printf at 1 in Hi.
  cbn [CodecBench.m_decompress CodecBench.set_videoReader CodecBench.m_rawin
       CodecBench.m_decompFormat CodecBench.m_decompWidth CodecBench.m_decompHeight
       CodecBench.m_decompressor CodecBench.m_formatDecompressed] in Hi.
  destruct (CodecBench.m_decompress this) eqn:Ed.
  - unfold bindIO at 1 in Hi.
    match type of Hi with
    | context [match ?m ?o with _ => _ end] =>
        destruct (m o) as [[biOut|] o1] eqn:Eb; [|discriminate Hi]
    end.
    unfold bindIO at 1 in Hi.
    destruct (Decompressor.init _ _ _ _ _ _) as [[dec|] o2] eqn:Edec; [|discriminate Hi].
    unfold bindIO, printf, PrintBitmapInfo, ret in Hi.
    injection Hi as <- _.
    cbn. split; [unfold options; cbn; rewrite Ed; reflexivity|].
    repeat (split; [reflexivity|]).
    split; [by eexists _, _, _|]. reflexivity.
  - unfold bindIO, printf, ret in Hi. injection Hi as <- _.
    cbn. split; [unfold options; cbn; rewrite Ed; reflexivity|].
    repeat (split; [reflexivity|]). reflexivity.
Qed.

Lemma initOutput_inv (this cb : CodecBench.t) out out' :
  CodecBench.initOutput fs this out = (Ok cb, out') ->
  options cb = options this /\
  CodecBench.m_videoReader cb = CodecBench.m_videoReader this /\
  CodecBench.m_decompressor cb = CodecBench.m_decompressor this /\
  CodecBench.m_formatDecompressed cb = CodecBench.m_formatDecompressed this /\
  (if CodecBench.m_compress this then
     exists o1 o2,
       Compressor.init (BitmapInfoHeader.ptr (CodecBench.m_formatDecompressed this))
                       (CodecBench.m_compressor this) o1
       = (Ok (CodecBench.m_compress cb, CodecBench.m_compressor cb), o2)
   else CodecBench.m_compress cb = false /\
        CodecBench.m_compressor cb = CodecBench.m_compressor this) /\
  CodecBench.m_formatCompressed cb
    = BitmapInfoHeader.assign
        (Some (if CodecBench.m_compress cb
               then Compressor.getOutputFormat (CodecBench.m_compressor cb)
               else BitmapInfoHeader.ptr (CodecBench.m_formatDecompressed this)))
        (CodecBench.m_formatCompressed this) /\
  match CodecBench.m_outfile this with
  | Some outfile =>
      VideoWriter.open fs outfile
        (if CodecBench.m_rawout this then None
         else Some (BitmapInfoHeader.ptr (CodecBench.m_formatCompressed cb)))
        (CodecBench.m_videoWriter this)
      = Ok (CodecBench.m_videoWriter cb)
  | None => CodecBench.m_videoWriter cb = CodecBench.m_videoWriter this
  end.
Proof.
  unfold CodecBench.initOutput. intros Hi.
  unfold bindIO at 1 in Hi.
  match type of Hi with
  | context [match ?m ?o with _ => _ end] =>
      destruct (m o) as [[this1|] o1] eqn:E1; [|discriminate Hi]
  end.
  assert (H1 :
    options this1 = options this /\
    CodecBench.m_videoReader this1 = CodecBench.m_videoReader this /\
    CodecBench.m_decompressor this1 = CodecBench.m_decompressor this /\
    CodecBench.m_formatDecompressed this1 = CodecBench.m_formatDecompressed this /\
    CodecBench.m_videoWriter this1 = CodecBench.m_videoWriter this /\
    (if CodecBench.m_compress this then
       (exists o1 o2,
          Compressor.init (BitmapInfoHeader.ptr (CodecBench.m_formatDecompressed this))
                          (CodecBench.m_compressor this) o1
          = (Ok (CodecBench.m_compress this1, CodecBench.m_compressor this1), o2)) /\
       (CodecBench.m_compress this1 = true ->
        CodecBench.m_formatCompressed this1
          = BitmapInfoHeader.assign
              (Some (Compressor.getOutputFormat (CodecBench.m_compressor this1)))
              (CodecBench.m_formatCompressed this)) /\
       (CodecBench.m_compress this1 = false ->
        CodecBench.m_formatCompressed this1 = CodecBench.m_formatCompressed this)
     else this1 = this)).
  { destruct (CodecBench.m_compress this) eqn:Ec.
    - unfold bindIO at 1 in E1.
      destruct (Compressor.init _ _ _) as [[[compress compressor]|] o2] eqn:Ei;
        [|discriminate E1].
      destruct compress; unfold ret in E1; injection E1 as <- _;
        cbn; (split; [reflexivity|]); repeat (split; [reflexivity|]);
        (split; [by eexists _, _|]); split; first [reflexivity|discriminate|done].
    - unfold ret in E1. injection E1 as <- _. repeat split; reflexivity. }
  destruct H1 as (Ho & Hr & Hd & Hf & Hw & Hc1).
  unfold bindIO at 1 in Hi.
  match type of Hi with
  | context [match ?m ?o with _ => _ end] =>
      destruct (m o) as [[this2|] o2] eqn:E2; [|discriminate Hi]
  end.
  assert (H2 :
    options this2 = options this1 /\
    CodecBench.m_compress this2 = CodecBench.m_compress this1 /\
    CodecBench.m_compressor this2 = CodecBench.m_compressor this1 /\
    CodecBench.m_videoReader this2 = CodecBench.m_videoReader this1 /\
    CodecBench.m_decompressor this2 = CodecBench.m_decompressor this1 /\
    CodecBench.m_formatDecompressed this2 = CodecBench.m_formatDecompressed this1 /\
    CodecBench.m_videoWriter this2 = CodecBench.m_videoWriter this1 /\
    CodecBench.m_formatCompressed this2
      = (if CodecBench.m_compress this1 then CodecBench.m_formatCompressed this1
         else BitmapInfoHeader.assign
                (Some (BitmapInfoHeader.ptr (CodecBench.m_formatDecompressed this1)))
                (CodecBench.m_formatCompressed this1))).
  { destruct (CodecBench.m_compress this1) eqn:Ec; cbn [negb] in E2.
    - unfold ret in E2. injection E2 as <- _. rewrite Ec. repeat split; reflexivity.
    - unfold bindIO, printf, ret in E2. injection E2 as <- _.
      cbn. unfold options. cbn. rewrite Ec. repeat split; reflexivity. }
  destruct H2 as (Ho2 & Hc2 & Hcc2 & Hr2 & Hd2 & Hf2 & Hw2 & Hfc2).
  unfold bindIO at 1 2 3 in Hi. unfold printf at 1 2 in Hi.
  unfold PrintBitmapInfo at 1 in Hi. unfold printf at 1 in Hi.
  unfold bindIO at 1 in Hi.
  match type of Hi with
  | context [match ?m ?o with _ => _ end] =>
      destruct (m o) as [[this3|] o3] eqn:E3; [|discriminate Hi]
  end.
  unfold bindIO, printf, ret in Hi. injection Hi as <- _.
  assert (Hout : CodecBench.m_outfile this2 = CodecBench.m_outfile this).
  { transitivity (CodecBench.m_outfile this1).
    - exact (f_equal (fun o => o.1.1.1.1.1.2) Ho2).
    - exact (f_equal (fun o => o.1.1.1.1.1.2) Ho). }
  assert (Hro : CodecBench.m_rawout this2 = CodecBench.m_rawout this).
  { transitivity (CodecBench.m_rawout this1).
    - exact (f_equal (fun o => o.1.1.1.1.1.1.1.1.2) Ho2).
    - exact (f_equal (fun o => o.1.1.1.1.1.1.1.1.2) Ho). }
  assert (H3 :
    options this3 = options this2 /\
    CodecBench.m_compress this3 = CodecBench.m_compress this2 /\
    CodecBench.m_compressor this3 = CodecBench.m_compressor this2 /\
    CodecBench.m_videoReader this3 = CodecBench.m_videoReader this2 /\
    CodecBench.m_decompressor this3 = CodecBench.m_decompressor this2 /\
    CodecBench.m_formatDecompressed this3 = CodecBench.m_formatDecompressed this2 /\
    CodecBench.m_formatCompressed this3 = CodecBench.m_formatCompressed this2 /\
    match CodecBench.m_outfile this2 with
    | Some outfile =>
        VideoWriter.open fs outfile
          (if CodecBench.m_rawout this2 then None
           else Some (BitmapInfoHeader.ptr (CodecBench.m_formatCompressed this2)))
          (CodecBench.m_videoWriter this2)
        = Ok (CodecBench.m_videoWriter this3)
    | None => CodecBench.m_videoWriter this3 = CodecBench.m_videoWriter this2
    end).
  { destruct (CodecBench.m_outfile this2) as [f|] eqn:Ef.
    - unfold bindIO, lift, ret in E3.
      destruct (VideoWriter.open fs f _ _) as [wr|] eqn:Ew; [|discriminate E3].
      injection E3 as <- _. cbn. unfold options. cbn. rewrite Ef.
      repeat split; reflexivity.
    - unfold ret in E3. injection E3 as <- _. repeat split; reflexivity. }
  destruct H3 as (Ho3 & Hc3 & Hcc3 & Hr3 & Hd3 & Hf3 & Hfc3 & Hw3).
  split; [congruence|]. split; [congruence|]. split; [congruence|].
  split; [congruence|].
  assert (Hfc : CodecBench.m_formatCompressed this3
                = BitmapInfoHeader.assign
                    (Some (if CodecBench.m_compress this3
                           then Compressor.getOutputFormat (CodecBench.m_compressor this3)
                           else BitmapInfoHeader.ptr (CodecBench.m_formatDecompressed this)))
                    (CodecBench.m_formatCompressed this)).
  { rewrite Hfc3, Hfc2, Hc3, Hc2, Hcc3, Hcc2.
    destruct (CodecBench.m_compress this) eqn:Ec.
    - destruct Hc1 as (_ & Ht & Hf').
      destruct (CodecBench.m_compress this1) eqn:Ec1.
      + apply Ht. reflexivity.
      + rewrite Hf' by reflexivity. rewrite Hf. reflexivity.
    - subst this1. rewrite Ec. reflexivity. }
  split.
  { destruct (CodecBench.m_compress this) eqn:Ec.
    - destruct Hc1 as ((o1' & o2' & Hci) & _).
      exists o1', o2'. rewrite Hc3, Hc2, Hcc3, Hcc2. exact Hci.
    - subst this1. rewrite Hc3, Hc2, Hcc3, Hcc2. auto. }
  split; [exact Hfc|].
  rewrite Hout in Hw3. rewrite <- Hfc3 in Hw3. rewrite Hro, Hw2, Hw in Hw3.
  exact Hw3.
Qed.

Lemma init_inv argv (this cb : CodecBench.t) out out' :
  CodecBench.init fs argv this out = (Ok cb, out') ->
  exists cb1 o1 cb2 o2,
    CodecBench.initArguments argv this out = (Ok cb1, o1) /\
    CodecBench.initInput fs cb1 o1 = (Ok cb2, o2) /\
    CodecBench.initOutput fs cb2 o2 = (Ok cb, out').
Proof.
  unfold CodecBench.init. intros Hi.
  unfold bindIO at 1 in Hi.
  destruct (CodecBench.initArguments argv this out) as [[cb1|] o1]; [|discriminate Hi].
  unfold bindIO at 1 in Hi.
  destruct (CodecBench.initInput fs cb1 o1) as [[cb2|] o2] eqn:E2; [|discriminate Hi].
  by exists cb1, o1, cb2, o2.
Qed.

Lemma Compressor_init_flag biIn (c c' : Compressor.t) out out' b :
  Compressor.init biIn c out = (Ok (b, c'), out') ->
  (b = true -> encoder_ready c') /\
  (b = false -> Compressor.m_compressing c' = false).
Proof.
  unfold Compressor.init, throw, ret.
  destruct (ICCompressorChoose biIn) as [cv|]; [|discriminate].
  destruct (compvars_hic cv) as [hic|].
  - unfold bindIO, printf.
    destruct (ICSeqCompressFrameStart cv biIn) as [res cv1].
    destruct res; cbn [negb]; [|discriminate].
    intros [= <- <- _]. split; [intros _|discriminate].
    split; [by eexists|reflexivity].
  - intros [= <- <- _]. split; [discriminate|reflexivity].
Qed.

Lemma compressFrame_ready data (c : Compressor.t) :
  (encoder_ready c -> encoder_ready (Compressor.compressFrame data c)) /\
  Compressor.m_compressing (Compressor.compressFrame data c)
    = Compressor.m_compressing c.
Proof.
  unfold Compressor.compressFrame, encoder_ready.
  destruct (Compressor.m_compvars c) as [cv|];
    [|split; [intros [[? [=]] _]|reflexivity]].
  destruct (ICSeqCompressFrame _ _ _) as [[p sz] cv1].
  cbn [Compressor.m_compvars Compressor.m_compressing].
  split; [|reflexivity]. intros [_ Hc]. split; [by eexists|exact Hc].
Qed.

(** A turn of the loop keeps the stages prepared. *)
Lemma body_stages st :
  stages_prepared (CodecBench.this_ st) ->
  stages_prepared (CodecBench.this_ (CodecBench.body st)).
Proof.
  intros (P1 & P2 & P3 & P4). unfold CodecBench.body.
  destruct (VideoReader.readFrame _ _) as [more reader].
  destruct (negb more || _).
  { cbn [CodecBench.this_]. split; [|split; [|split]]; assumption. }
  unfold CodecBench.decompress_if_needed, CodecBench.compress_if_needed.
  cbn [CodecBench.m_decompress CodecBench.m_compress CodecBench.set_videoReader
       CodecBench.set_decompressor CodecBench.m_decompressor CodecBench.m_compressor].
  destruct (CodecBench.m_decompress (CodecBench.this_ st)) eqn:Ed;
    destruct (CodecBench.m_compress (CodecBench.this_ st)) eqn:Ec;
    unfold stages_prepared;
    cbn [CodecBench.this_ CodecBench.m_decompress CodecBench.m_compress
         CodecBench.set_videoWriter CodecBench.set_compressor
         CodecBench.set_decompressor CodecBench.set_videoReader
         CodecBench.m_decompressor CodecBench.m_compressor];
    rewrite ?Ed, ?Ec.
  - split; [intros _; apply decompressFrame_ready; auto|].
    split; [discriminate|]. split; [|discriminate].
    intros _. apply compressFrame_ready. auto.
  - split; [intros _; apply decompressFrame_ready; auto|].
    split; [discriminate|]. split; [discriminate|]. auto.
  - split; [discriminate|]. split; [auto|]. split; [|discriminate].
    intros _. apply compressFrame_ready. auto.
  - split; [discriminate|]. split; [auto|]. split; [discriminate|]. auto.
Qed.

Lemma turns_stages n st :
  stages_prepared (CodecBench.this_ st) ->
  stages_prepared (CodecBench.this_ (turns n st)).
Proof.
  intros Hp. induction n as [|n IH]; [exact Hp|].
  change (turns (S n) st) with (CodecBench.body (turns n st)).
  apply body_stages, IH.
Qed.

Lemma init_stages argv (cb : CodecBench.t) out0 out :
  CodecBench.init fs argv CodecBench.ctor out0 = (Ok cb, out) ->
  stages_prepared cb.
Proof.
  intros Hi.
  destruct (init_inv _ _ _ _ _ Hi) as (cb1 & o1 & cb2 & o2 & Ha & Hin & Hout).
  destruct (initArguments_inv _ _ _ _ _ Ha)
    as (rawin & rawout & decompress & compress & decompFormat & sw & sh & sf & sl
        & infile & outfile & _ & _ & _ & _ & _ & _ & _ & _ & _ & _ & _ & Hv).
  destruct (verifyArguments_inv _ _ _ _ Hv)
    as (_ & _ & _ & _ & _ & _ & _ & _ & _ & _ & _ & _ & _ & _ & Edc & Ecc).
  cbn [CodecBench.m_decompressor CodecBench.m_compressor CodecBench.ctor] in Edc, Ecc.
  destruct (initInput_inv _ _ _ _ Hin) as (Io & Ic & _ & Icc & _ & _ & Idec & _).
  destruct (initOutput_inv _ _ _ _ Hout) as (Oo & _ & Od & _ & Ocomp & _).
  assert (Ed : CodecBench.m_decompress cb = CodecBench.m_decompress cb1).
  { transitivity (CodecBench.m_decompress cb2).
    - exact (f_equal (fun o => o.1.1.1.1.1.1.1.2) Oo).
    - exact (f_equal (fun o => o.1.1.1.1.1.1.1.2) Io). }
  split; [|split; [|split]].
  - rewrite Ed, Od. intros Hd. rewrite Hd in Idec.
    destruct Idec as (biOut & o1' & o2' & Hdi). exact (init_ready _ _ _ _ _ _ _ _ Hdi).
  - rewrite Ed, Od. intros Hd. rewrite Hd in Idec. congruence.
  - intros Hc. destruct (CodecBench.m_compress cb2) eqn:Ec2.
    + destruct Ocomp as (o1' & o2' & Hci).
      apply (Compressor_init_flag _ _ _ _ _ _ Hci). exact Hc.
    + destruct Ocomp as (Hcf & _). congruence.
  - intros Hc. destruct (CodecBench.m_compress cb2) eqn:Ec2.
    + destruct Ocomp as (o1' & o2' & Hci).
      apply (Compressor_init_flag _ _ _ _ _ _ Hci). exact Hc.
    + destruct Ocomp as (_ & ->). rewrite Icc, Ecc. reflexivity.
Qed.

(** X19. [run] only drives a stage that [init] has prepared.  After a
    successful [init], at every turn of the loop: a decode stage that is
    on has a located codec on which decompression has begun and a frame
    buffer of exactly one output frame, and one that is off has a
    decompressor that was never touched; an encode stage that is on has a
    chosen compressor whose sequence was started, and one that is off has
    started none. *)
Theorem stages_are_prepared_throughout
    (argv : list string) (cb : CodecBench.t) (out0 out : list event) (n : nat) :
  CodecBench.init fs argv CodecBench.ctor out0 = (Ok cb, out) ->
  stages_prepared cb /\
  stages_prepared (CodecBench.this_ (turns n (CodecBench.enter cb out))).
Proof.
  intros Hi. pose proof (init_stages _ _ _ _ Hi) as Hp.
  split; [exact Hp|]. apply turns_stages. exact Hp.
Qed.

(** Without an output file a turn leaves the writer alone. *)
Lemma body_writer_off st :
  CodecBench.m_outfile (CodecBench.this_ st) = None ->
  CodecBench.m_videoWriter (CodecBench.this_ (CodecBench.body st))
    = CodecBench.m_videoWriter (CodecBench.this_ st).
Proof.
  intros Ho. unfold CodecBench.body.
  destruct (VideoReader.readFrame _ _) as [more reader].
  destruct (negb more || _); [reflexivity|].
  destruct (CodecBench.decompress_if_needed _ _ _ _) as [[[d t1] k1] c1].
  destruct (CodecBench.compress_if_needed _ _ _ _) as [[[c t2] k2] c2].
  unfold CodecBench.write_if_needed.
  cbn [CodecBench.this_ CodecBench.m_videoWriter CodecBench.set_videoWriter
       CodecBench.m_outfile CodecBench.set_compressor CodecBench.set_decompressor
       CodecBench.set_videoReader].
  rewrite Ho. rewrite bool_decide_eq_false_2 by (intros [? [=]]). reflexivity.
Qed.

Lemma settings_outfile (this this' : CodecBench.t) :
  settings this' = settings this ->
  CodecBench.m_outfile this' = CodecBench.m_outfile this.
Proof. intros Hs. exact (f_equal (fun s => s.1.1.1.2) Hs). Qed.

Lemma turns_settings n st :
  settings (CodecBench.this_ (turns n st)) = settings (CodecBench.this_ st).
Proof.
  induction n as [|n IH]; [reflexivity|].
  change (turns (S n) st) with (CodecBench.body (turns n st)).
  rewrite body_settings. exact IH.
Qed.

(** X20. Without [-o] nothing is opened and nothing is written: after a
    successful [init] on a command line without that option there is no
    output file name, and at every turn of the loop the writer is still
    the one the orchestrator was constructed with. *)
Theorem nothing_is_written_without_an_output_file
    (argv : list string) (cb : CodecBench.t) (out0 out : list event) (n : nat) :
  CodecBench.init fs argv CodecBench.ctor out0 = (Ok cb, out) ->
  "-o"%string ∉ drop 1 argv ->
  CodecBench.m_outfile cb = None /\
  CodecBench.m_videoWriter (CodecBench.this_ (turns n (CodecBench.enter cb out)))
    = VideoWriter.ctor.
Proof.
  intros Hi Hno.
  destruct (init_inv _ _ _ _ _ Hi) as (cb1 & o1 & cb2 & o2 & Ha & Hin & Hout).
  destruct (initArguments_inv _ _ _ _ _ Ha)
    as (rawin & rawout & decompress & compress & decompFormat & sw & sh & sf & sl
        & infile & outfile & _ & _ & _ & _ & _ & _ & _ & _ & _ & _ & E11 & Hv).
  rewrite getArg_not_given in E11 by exact Hno. injection E11 as <-.
  destruct (verifyArguments_inv _ _ _ _ Hv)
    as (_ & _ & _ & _ & _ & _ & _ & _ & _ & Eo & _ & _ & _ & Ew & _).
  cbn [CodecBench.m_outfile CodecBench.m_videoWriter CodecBench.ctor] in Eo, Ew.
  destruct (initInput_inv _ _ _ _ Hin) as (Io & _ & Iw & _).
  destruct (initOutput_inv _ _ _ _ Hout) as (Oo & _ & _ & _ & _ & _ & Ow).
  assert (Eo2 : CodecBench.m_outfile cb2 = None).
  { rewrite <- Eo. exact (f_equal (fun o => o.1.1.1.1.1.2) Io). }
  assert (Eo3 : CodecBench.m_outfile cb = None).
  { rewrite <- Eo2. exact (f_equal (fun o => o.1.1.1.1.1.2) Oo). }
  rewrite Eo2 in Ow.
  split; [exact Eo3|].
  induction n as [|n IH]; [cbn; congruence|].
  change (turns (S n) (CodecBench.enter cb out))
    with (CodecBench.body (turns n (CodecBench.enter cb out))).
  rewrite body_writer_off; [exact IH|].
  rewrite (settings_outfile _ _ (turns_settings n _)). exact Eo3.
Qed.

(** * The timers of [run] *)

Lemma s32_of_s64 z : CInt.s32 (CInt.s64 z) = CInt.s32 z.
Proof.
  unfold CInt.s64.
  replace ((z + 2 ^ 63) mod 2 ^ 64 - 2 ^ 63)
    with (z + (- ((z + 2 ^ 63) / 2 ^ 64) * 2 ^ 32) * 2 ^ 32).
  - apply s32_add_multiple.
  - pose proof (Z.div_mod (z + 2 ^ 63) (2 ^ 64) ltac:(lia)). lia.
Qed.

Lemma timers_step st :
  let d := CodecBench.m_decompress (CodecBench.this_ st) in
  let c := CodecBench.m_compress (CodecBench.this_ st) in
  let frame := frames_processed (CodecBench.stdout (CodecBench.body st))
               - frames_processed (CodecBench.stdout st) in
  0 <= frame <= 1 /\
  CodecBench.numFrames (CodecBench.body st)
    = (if frame =? 0 then CodecBench.numFrames st
       else CInt.s32 (CodecBench.numFrames st + 1)) /\
  Timer.numSamples (CodecBench.decompTimer (CodecBench.body st))
    = (if negb (frame =? 0) && d
       then CInt.s64 (Timer.numSamples (CodecBench.decompTimer st) + 1)
       else Timer.numSamples (CodecBench.decompTimer st)) /\
  Timer.numSamples (CodecBench.compTimer (CodecBench.body st))
    = (if negb (frame =? 0) && c
       then CInt.s64 (Timer.numSamples (CodecBench.compTimer st) + 1)
       else Timer.numSamples (CodecBench.compTimer st)) /\
  Z.of_nat (CodecBench.ticks (CodecBench.body st))
    = Z.of_nat (CodecBench.ticks st)
      + 2 * ((if d then 1 else 0) + (if c then 1 else 0)) * frame /\
  Timer.freq (CodecBench.decompTimer (CodecBench.body st))
    = Timer.freq (CodecBench.decompTimer st) /\
  Timer.freq (CodecBench.compTimer (CodecBench.body st))
    = Timer.freq (CodecBench.compTimer st).
Proof.
  cbv zeta. unfold CodecBench.body.
  destruct (VideoReader.readFrame _ _) as [more reader].
  destruct (negb more || _).
  { cbn [CodecBench.stdout CodecBench.numFrames CodecBench.decompTimer
         CodecBench.compTimer CodecBench.ticks].
    rewrite Z.sub_diag. cbn [Z.eqb negb andb]. repeat split; lia. }
  unfold CodecBench.decompress_if_needed, CodecBench.compress_if_needed.
  cbn [CodecBench.m_decompress CodecBench.m_compress CodecBench.set_videoReader
       CodecBench.set_decompressor].
  destruct (CodecBench.m_decompress (CodecBench.this_ st)) eqn:Ed;
    destruct (CodecBench.m_compress (CodecBench.this_ st)) eqn:Ec;
    cbn [CodecBench.stdout CodecBench.numFrames CodecBench.decompTimer
         CodecBench.compTimer CodecBench.ticks Timer.numSamples Timer.end_
         Timer.begin Timer.freq];
    rewrite frames_processed_app;
    match goal with
    | |- context [frames_processed [?e]] => change (frames_processed [e]) with 1
    end;
    replace (frames_processed (CodecBench.stdout st) + 1
             - frames_processed (CodecBench.stdout st)) with 1 by lia;
    cbn [Z.eqb negb andb]; repeat split; lia.
Qed.

(** X21. Each stage that is on times every processed frame exactly once.
    At every turn of the loop the sample count of a stage's timer is the
    frame count [numFrames] when the stage is on and zero when it is off,
    the performance counter has been queried twice per frame for each
    stage that is on and not otherwise, and both timers still hold the
    counter frequency they were constructed with. *)
Theorem each_stage_times_every_frame_once
    (cb : CodecBench.t) (out : list event) (n : nat) :
  let st := turns n (CodecBench.enter cb out) in
  CInt.s32 (Timer.numSamples (CodecBench.decompTimer st))
    = (if CodecBench.m_decompress cb then CodecBench.numFrames st else 0) /\
  CInt.s32 (Timer.numSamples (CodecBench.compTimer st))
    = (if CodecBench.m_compress cb then CodecBench.numFrames st else 0) /\
  Z.of_nat (CodecBench.ticks st)
    = 2 * ((if CodecBench.m_decompress cb then 1 else 0)
           + (if CodecBench.m_compress cb then 1 else 0))
      * (frames_processed (CodecBench.stdout st) - frames_processed out) /\
  Timer.freq (CodecBench.decompTimer st) = QueryPerformanceFrequency /\
  Timer.freq (CodecBench.compTimer st) = QueryPerformanceFrequency.
Proof.
  cbv zeta. induction n as [|n IH].
  - cbn. rewrite frames_processed_app.
    change (frames_processed [Text nl]) with 0.
    destruct (CodecBench.m_decompress cb), (CodecBench.m_compress cb);
      repeat split; lia.
  - change (turns (S n) (CodecBench.enter cb out))
      with (CodecBench.body (turns n (CodecBench.enter cb out))).
    set (st := turns n (CodecBench.enter cb out)) in *.
    destruct IH as (I1 & I2 & I3 & I4 & I5).
    pose proof (turns_settings n (CodecBench.enter cb out)) as Hs. fold st in Hs.
    assert (Hd : CodecBench.m_decompress (CodecBench.this_ st) = CodecBench.m_decompress cb)
      by exact (f_equal (fun s => s.1.1.1.1.1) Hs).
    assert (Hc : CodecBench.m_compress (CodecBench.this_ st) = CodecBench.m_compress cb)
      by exact (f_equal (fun s => s.1.1.1.1.2) Hs).
    destruct (timers_step st) as (Hf & Tn & Td & Tc & Tt & Tf1 & Tf2).
    cbv zeta in *. rewrite Hd, Hc in *.
    set (frame := frames_processed (CodecBench.stdout (CodecBench.body st))
                  - frames_processed (CodecBench.stdout st)) in *.
    assert (Hcount : forall (t : Timer.t) (b : bool),
              CInt.s32 (Timer.numSamples t) = (if b then CodecBench.numFrames st else 0) ->
              CInt.s32 (if negb (frame =? 0) && b
                        then CInt.s64 (Timer.numSamples t + 1)
                        else Timer.numSamples t)
              = (if b then CodecBench.numFrames (CodecBench.body st) else 0)).
    { intros t b Ht. rewrite Tn. destruct (frame =? 0); cbn [negb andb]; [exact Ht|].
      destruct b; [|exact Ht].
      rewrite s32_of_s64, <- s32_add_l, Ht. reflexivity. }
    split; [rewrite Td; apply Hcount; exact I1|].
    split; [rewrite Tc; apply Hcount; exact I2|].
    split; [rewrite Tt, I3; lia|].
    split; congruence.
Qed.

End Init.

Lemma stages_are_prepared_throughout_witness :
  CodecBench.init (H := Sample.compressing) Sample.input
                  ["codecbench"; "-i"; "in.cb"]%string CodecBench.ctor []
    = (Ok (Sample.initialised Sample.compressing Sample.input
             ["codecbench"; "-i"; "in.cb"]%string).1,
       (Sample.initialised Sample.compressing Sample.input
          ["codecbench"; "-i"; "in.cb"]%string).2) /\
  stages_prepared
    (CodecBench.this_
       (turns 2
          (CodecBench.enter
             (Sample.initialised Sample.compressing Sample.input
                ["codecbench"; "-i"; "in.cb"]%string).1
             (Sample.initialised Sample.compressing Sample.input
                ["codecbench"; "-i"; "in.cb"]%string).2))).
Proof.
  set (argv := ["codecbench"; "-i"; "in.cb"]%string).
  set (cb := Sample.initialised Sample.compressing Sample.input argv).
  assert (Hi : CodecBench.init (H := Sample.compressing) Sample.input argv
                 CodecBench.ctor [] = (Ok cb.1, cb.2)) by (vm_compute; reflexivity).
  split; [exact Hi|].
  exact (proj2 (stages_are_prepared_throughout (H := Sample.compressing) Sample.input
                  argv cb.1 [] cb.2 2 Hi)).
Defined.

Lemma nothing_is_written_without_an_output_file_witness :
  (CodecBench.init (H := Sample.plain) Sample.input
                   ["codecbench"; "-i"; "in.cb"; "-nd"]%string CodecBench.ctor []
     = (Ok (Sample.initialised Sample.plain Sample.input
              ["codecbench"; "-i"; "in.cb"; "-nd"]%string).1,
        (Sample.initialised Sample.plain Sample.input
           ["codecbench"; "-i"; "in.cb"; "-nd"]%string).2) /\
   ("-o"%string ∉ drop 1 ["codecbench"; "-i"; "in.cb"; "-nd"]%string)) /\
  CodecBench.m_outfile
    (Sample.initialised Sample.plain Sample.input
       ["codecbench"; "-i"; "in.cb"; "-nd"]%string).1 = None /\
  CodecBench.m_videoWriter
    (CodecBench.this_
       (turns 3
          (CodecBench.enter
             (Sample.initialised Sample.plain Sample.input
                ["codecbench"; "-i"; "in.cb"; "-nd"]%string).1
             (Sample.initialised Sample.plain Sample.input
                ["codecbench"; "-i"; "in.cb"; "-nd"]%string).2)))
    = VideoWriter.ctor.
Proof.
  set (argv := ["codecbench"; "-i"; "in.cb"; "-nd"]%string).
  set (cb := Sample.initialised Sample.plain Sample.input argv).
  assert (Hi : CodecBench.init (H := Sample.plain) Sample.input argv
                 CodecBench.ctor [] = (Ok cb.1, cb.2)) by (vm_compute; reflexivity).
  assert (Hn : "-o"%string ∉ drop 1 argv) by (subst argv; cbn [drop]; not_in_list).
  split; [split; [exact Hi|exact Hn]|].
  exact (nothing_is_written_without_an_output_file (H := Sample.plain) Sample.input
           argv cb.1 [] cb.2 3 Hi Hn).
Defined.

(** * A loop over the input that ends at the end of the stream *)



Section Passes.
Context `{Host}.







Section OneInput.
Variable r0 : VideoReader.t.
Variable n : nat.
Hypothesis never_stopped : forall i, s_stop i = false.
Hypothesis r0_at_start : at_start r0.
Hypothesis r0_frames : frames_ahead n r0 = true.
Hypothesis r0_end : frame_ahead (after_frames n r0) = false.


End OneInput.




End Passes.





Section Copy.
Context `{Host}.
Variable fs : filesystem.



End Copy.




(** X25. Started without arguments the program only prints its usage: the
    usage text with the program's name in its first line, then the empty
    line [main] prints for the exception's empty message, and the exit
    code is 1, whatever files and codecs there are. *)
Theorem usage_is_printed_without_arguments `{Host}
    (fs : filesystem) (fuel : nat) (prog : string) :
  main fs fuel [prog] = Some (1, map Text (CodecBench.usage prog) ++ [Text nl]).
Proof.
  unfold main, CodecBench.init, CodecBench.initArguments.
  change (Z.of_nat (length [prog]) <? 2) with true. cbn [head default].
  unfold bindIO. rewrite print_all_ok. reflexivity.
Qed.
